(** * Aadhaar enrolment and updates pipeline: scoring, cleaning and adapters

    A shallow embedding of [src/lib/data_pipeline.py] (classes
    [AadhaarDataPipeline], [DataValidator]) and of [src/lib/ml_models.py]
    (classes [AnomalyDetector], [VulnerabilityAnalyzer],
    [TimeSeriesForecaster], [PopulationClusterer], [InsightGenerator]).

    Numbers.  The pipeline computes on IEEE binary64 values held in pandas
    columns.  Two embeddings are used:
    - [float64]: exact rational arithmetic extended with the IEEE special
      values (+inf, -inf, NaN), so that division by zero and NaN propagation
      behave as in numpy.  Rounding and the sign of zero are not represented;
      overflow to an infinity is represented in the biometric totals and
      coverage ([overflow]).  Sums of a column are exact; the results on them
      are stated for columns on which the 64-bit sums of pandas are exact
      too ([exact_counts]).
    - the kernel's binary64 numbers ([PrimFloat]) for the z-score, which
      takes a square root.

    Tables.  A pandas [DataFrame] is a header and a list of rows of cells;
    a missing value (NaN, None, NaT) is the single cell [Null]. *)

From Stdlib Require Import List String Ascii Bool Arith ZArith QArith Qabs Qround Lia Lqa.
From Stdlib Require Import Floats.
From Stdlib Require Import Permutation Sorted DecimalString.
Import ListNotations.

Set Implicit Arguments.
Open Scope string_scope.

(* ================================================================== *)
(** * Part I: the program *)
(* ================================================================== *)

(** ** Exceptions

    A Python call either returns a value or raises; the exceptions that the
    modelled code can raise are enumerated. *)

Inductive exn : Type :=
| ValueError (msg : string)
| KeyError (key : string)
| TypeError
| LibraryError (msg : string). (* raised inside an external library *)

Inductive result (A : Type) : Type :=
| Ok (a : A)
| Raise (e : exn).

Arguments Ok {A} a.
Arguments Raise {A} e.

Definition bind {A B : Type} (m : result A) (k : A -> result B) : result B :=
  match m with
  | Ok a => k a
  | Raise e => Raise e
  end.

Notation "x <- m ;; k" := (bind m (fun x => k))
  (at level 61, m at next level, right associativity).

Fixpoint mapM {A B : Type} (f : A -> result B) (l : list A) : result (list B) :=
  match l with
  | [] => Ok []
  | a :: l' => b <- f a ;; bs <- mapM f l' ;; Ok (b :: bs)
  end.

(** ** [float64]: exact arithmetic with the IEEE special values *)

Inductive float64 : Type :=
| Finite (q : Q)
| PosInf
| NegInf
| NaN.

Declare Scope fl_scope.
Delimit Scope fl_scope with fl.
Bind Scope fl_scope with float64.

Definition isnan (x : float64) : bool :=
  match x with NaN => true | _ => false end.

Definition Qltb (a b : Q) : bool := negb (Qle_bool b a).

Definition fneg (x : float64) : float64 :=
  match x with
  | Finite q => Finite (- q)
  | PosInf => NegInf
  | NegInf => PosInf
  | NaN => NaN
  end.

Definition fadd (x y : float64) : float64 :=
  match x, y with
  | NaN, _ | _, NaN => NaN
  | Finite a, Finite b => Finite (a + b)
  | PosInf, NegInf | NegInf, PosInf => NaN
  | PosInf, _ | _, PosInf => PosInf
  | NegInf, _ | _, NegInf => NegInf
  end.

Definition fsub (x y : float64) : float64 := fadd x (fneg y).

(** [inf_of_sign neg] is -inf when [neg] holds, +inf otherwise. *)
Definition inf_of_sign (neg : bool) : float64 :=
  if neg then NegInf else PosInf.

Definition fmul (x y : float64) : float64 :=
  match x, y with
  | NaN, _ | _, NaN => NaN
  | Finite a, Finite b => Finite (a * b)
  | Finite a, PosInf | PosInf, Finite a =>
      if Qeq_bool a 0 then NaN else inf_of_sign (Qltb a 0)
  | Finite a, NegInf | NegInf, Finite a =>
      if Qeq_bool a 0 then NaN else inf_of_sign (negb (Qltb a 0))
  | PosInf, PosInf | NegInf, NegInf => PosInf
  | PosInf, NegInf | NegInf, PosInf => NegInf
  end.

(** Division follows numpy: a non-zero number over zero is an infinity,
    zero over zero and inf over inf are NaN, nothing raises. *)
Definition fdiv (x y : float64) : float64 :=
  match x, y with
  | NaN, _ | _, NaN => NaN
  | Finite a, Finite b =>
      if Qeq_bool b 0
      then (if Qeq_bool a 0 then NaN else inf_of_sign (Qltb a 0))
      else Finite (a / b)
  | Finite _, (PosInf | NegInf) => Finite 0
  | PosInf, Finite b => inf_of_sign (Qltb b 0)
  | NegInf, Finite b => inf_of_sign (negb (Qltb b 0))
  | (PosInf | NegInf), (PosInf | NegInf) => NaN
  end.

Infix "+" := fadd : fl_scope.
Infix "-" := fsub : fl_scope.
Infix "*" := fmul : fl_scope.
Infix "/" := fdiv : fl_scope.

(** [x < y] on floats; false as soon as one side is NaN. *)
Definition fltb (x y : float64) : bool :=
  match x, y with
  | NaN, _ | _, NaN => false
  | Finite a, Finite b => Qltb a b
  | NegInf, (Finite _ | PosInf) => true
  | Finite _, PosInf => true
  | _, _ => false
  end.

(** [x <= y] for two floats that are not NaN. *)
Definition fle (x y : float64) : Prop := fltb y x = false.

(** Numeric equality of two floats that are not NaN (NaN equals nothing). *)
Definition feq (x y : float64) : Prop :=
  match x, y with
  | Finite a, Finite b => a == b
  | PosInf, PosInf | NegInf, NegInf => True
  | _, _ => False
  end.

(** [lo <= x <= hi] for a finite [x]; false on the special values. *)
Definition in_range (lo hi : Q) (x : float64) : Prop :=
  match x with
  | Finite q => lo <= q /\ q <= hi
  | _ => False
  end.

(** *** Series reductions and [fillna] *)

(** [Series.fillna(v)] on a float column. *)
Definition fillna (v : float64) (s : list float64) : list float64 :=
  map (fun x => if isnan x then v else x) s.

(** [Series.min()] / [Series.max()]: NaN entries are skipped; the result is
    NaN when nothing is left. *)
Definition series_min (s : list float64) : float64 :=
  fold_right (fun x acc =>
                if isnan x then acc
                else if isnan acc then x
                else if fltb x acc then x else acc) NaN s.

Definition series_max (s : list float64) : float64 :=
  fold_right (fun x acc =>
                if isnan x then acc
                else if isnan acc then x
                else if fltb acc x then x else acc) NaN s.

(** The guard [1e-6] added to denominators throughout the source. *)
Definition eps : Q := 1 # 1000000.

(** *** Overflow

    A result of magnitude 2^1024 - 2^970 or more has no neighbour in
    binary64 and becomes an infinity.  The operations above are exact;
    [overflow] is applied where the pipeline adds up and scales a column of
    updates. *)
Definition overflow_bound : Q := inject_Z (2 ^ 1024 - 2 ^ 970).

Definition overflow (x : float64) : float64 :=
  match x with
  | Finite q =>
      if Qle_bool overflow_bound (Qabs q) then inf_of_sign (Qltb q 0) else x
  | _ => x
  end.

(** ** Scoring engine: [_calculate_migration_risk]
    (data_pipeline.py, lines 180-186) *)

Definition _calculate_migration_risk (Update_Rate : list float64) : list float64 :=
  let update_rate := fillna (Finite 0) Update_Rate in
  let lo := series_min update_rate in
  let hi := series_max update_rate in
  let risk_score :=
    map (fun u => ((u - lo) / (hi - lo + Finite eps) * Finite 100)%fl) update_rate in
  fillna (Finite 50) risk_score.

(** ** Tables *)

(** A cell of a pandas column.  [Null] stands for every missing value (NaN,
    None, NaT); a number read from a file is a rational; [Date] carries a
    timestamp in nanoseconds since the epoch. *)
Inductive cell : Type :=
| Null
| Num (q : Q)
| Str (s : string)
| Date (t : Z).

Definition isnull (c : cell) : bool :=
  match c with Null => true | _ => false end.

Definition is_str (c : cell) : bool :=
  match c with Str _ => true | _ => false end.

(** Equality of cells as [duplicated], [merge] and [groupby] see it: numbers
    by value, missing values equal to each other. *)
Definition cell_eqb (a b : cell) : bool :=
  match a, b with
  | Null, Null => true
  | Num p, Num q => Qeq_bool p q
  | Str s, Str t => String.eqb s t
  | Date s, Date t => Z.eqb s t
  | _, _ => false
  end.

Definition row : Type := list cell.

Fixpoint row_eqb (a b : row) : bool :=
  match a, b with
  | [], [] => true
  | x :: a', y :: b' => cell_eqb x y && row_eqb a' b'
  | _, _ => false
  end.

Record DataFrame : Type := mkDataFrame {
  columns : list string;
  rows : list row
}.

(** [name in df.columns] *)
Definition has_column (df : DataFrame) (name : string) : bool :=
  existsb (String.eqb name) (columns df).

(** Position of the first column called [name]. *)
Fixpoint index_of (name : string) (cols : list string) : option nat :=
  match cols with
  | [] => None
  | c :: cols' =>
      if String.eqb name c then Some O
      else option_map S (index_of name cols')
  end.

(** [df[name]]: the cells of a column; [KeyError] when there is none. *)
Definition get_column (df : DataFrame) (name : string) : result (list cell) :=
  match index_of name (columns df) with
  | Some i => Ok (map (fun r => nth i r Null) (rows df))
  | None => Raise (KeyError name)
  end.

(** The cells at position [i], one per row. *)
Definition column_at (i : nat) (rs : list row) : list cell :=
  map (fun r => nth i r Null) rs.

(** A numeric column as floats: a missing value is NaN; arithmetic on text
    or on a timestamp raises [TypeError]. *)
Definition float_of_cell (c : cell) : result float64 :=
  match c with
  | Null => Ok NaN
  | Num q => Ok (Finite q)
  | Str _ | Date _ => Raise TypeError
  end.

Definition to_floats (cs : list cell) : result (list float64) :=
  mapM float_of_cell cs.

(** ** The pipeline object

    The three tables that the methods read and replace.  The fields
    [data_dir], [processed_data] and [feature_engineering_done] of the class
    are not used by the methods below. *)

Record AadhaarDataPipeline : Type := mkPipeline {
  enrolment_df : option DataFrame;
  demographic_df : option DataFrame;
  biometric_df : option DataFrame
}.

Definition set_enrolment_df (self : AadhaarDataPipeline) (df : DataFrame) :=
  {| enrolment_df := Some df;
     demographic_df := demographic_df self;
     biometric_df := biometric_df self |}.

Definition set_demographic_df (self : AadhaarDataPipeline) (df : DataFrame) :=
  {| enrolment_df := enrolment_df self;
     demographic_df := Some df;
     biometric_df := biometric_df self |}.

Definition set_biometric_df (self : AadhaarDataPipeline) (df : DataFrame) :=
  {| enrolment_df := enrolment_df self;
     demographic_df := demographic_df self;
     biometric_df := Some df |}.

(** ** Cleaner (data_pipeline.py, lines 58-140) *)

(** *** Column names: ['date' in col.lower() or 'month' in col.lower()] *)

Definition lower_ascii (c : ascii) : ascii :=
  let n := nat_of_ascii c in
  if (65 <=? n)%nat && (n <=? 90)%nat then ascii_of_nat (n + 32) else c.

Fixpoint lower (s : string) : string :=
  match s with
  | EmptyString => EmptyString
  | String c s' => String (lower_ascii c) (lower s')
  end.

(** [sub in s] *)
Fixpoint contains (sub s : string) : bool :=
  String.prefix sub s ||
  match s with
  | EmptyString => false
  | String _ s' => contains sub s'
  end.

Definition is_date_col (col : string) : bool :=
  contains "date" (lower col) || contains "month" (lower col).

(** *** [fillna(method='ffill')] and [fillna(method='bfill')] *)

(** A row with its missing cells taken from the row above. *)
Fixpoint fill_row (prev cur : row) : row :=
  match cur with
  | [] => []
  | c :: cs =>
      match prev with
      | [] => cur
      | p :: ps => (if isnull c then p else c) :: fill_row ps cs
      end
  end.

Fixpoint ffill_from (prev : row) (rs : list row) : list row :=
  match rs with
  | [] => []
  | r :: rs' => let r' := fill_row prev r in r' :: ffill_from r' rs'
  end.

Definition ffill (rs : list row) : list row :=
  match rs with
  | [] => []
  | r :: rs' => r :: ffill_from r rs'
  end.

(** Backward fill is forward fill read from the last row up. *)
Definition bfill (rs : list row) : list row := rev (ffill (rev rs)).

(** *** [drop_duplicates()]: the first of equal rows is kept *)

Fixpoint drop_duplicates (rs : list row) : list row :=
  match rs with
  | [] => []
  | r :: rs' => r :: filter (fun x => negb (row_eqb r x)) (drop_duplicates rs')
  end.

(** [f] applied to the cells of the columns selected by [mask]. *)
Fixpoint apply_where (mask : list bool) (f : cell -> cell) (r : row) : row :=
  match r with
  | [] => []
  | c :: cs =>
      match mask with
      | [] => r
      | b :: mask' => (if b then f c else c) :: apply_where mask' f cs
      end
  end.

(** A column has dtype [object] when it holds text. *)
Definition is_object_col (cells : list cell) : bool := existsb is_str cells.

Section Cleaner.

(** The parsers of pandas, which the repository does not contain:
    [strptime] reads a date from text, [epoch] from a number
    ([pd.to_datetime]); [parse_number] reads a number from text
    ([pd.to_numeric]).  Each answers [None] where pandas cannot parse. *)
Variable strptime : string -> option Z.
Variable epoch : Q -> option Z.
Variable parse_number : string -> option Q.

(** [pd.to_datetime(..., errors='coerce')] on one cell. *)
Definition to_datetime (c : cell) : cell :=
  match c with
  | Null => Null
  | Date t => Date t
  | Str s => match strptime s with Some t => Date t | None => Null end
  | Num q => match epoch q with Some t => Date t | None => Null end
  end.

(** [pd.to_numeric(..., errors='coerce')] on one cell of an object column:
    what does not parse becomes NaN. *)
Definition to_numeric (c : cell) : cell :=
  match c with
  | Null => Null
  | Num q => Num q
  | Str s => match parse_number s with Some q => Num q | None => Null end
  | Date _ => Null
  end.

(** [for col in date_cols: df[col] = pd.to_datetime(df[col], errors='coerce')] *)
Definition convert_dates (df : DataFrame) : DataFrame :=
  {| columns := columns df;
     rows := map (apply_where (map is_date_col (columns df)) to_datetime) (rows df) |}.

(** [for col in df.select_dtypes(include=['object']).columns:
       df[col] = pd.to_numeric(df[col], errors='coerce')] *)
Definition convert_numeric (df : DataFrame) : DataFrame :=
  let object_cols :=
    map (fun i => is_object_col (column_at i (rows df)))
        (seq 0 (List.length (columns df))) in
  {| columns := columns df;
     rows := map (apply_where object_cols to_numeric) (rows df) |}.

Definition fill_missing (df : DataFrame) : DataFrame :=
  {| columns := columns df; rows := bfill (ffill (rows df)) |}.

Definition remove_duplicates (df : DataFrame) : DataFrame :=
  {| columns := columns df; rows := drop_duplicates (rows df) |}.

Definition clean_enrolment_data (self : AadhaarDataPipeline)
  : result (DataFrame * AadhaarDataPipeline) :=
  match enrolment_df self with
  | None => Raise (ValueError "Enrolment data not loaded")
  | Some df =>
      (* Handle missing values *)
      let df := fill_missing df in
      (* Convert date columns to datetime *)
      let df := convert_dates df in
      (* Remove duplicates *)
      let df := remove_duplicates df in
      (* Handle numeric columns *)
      let df := convert_numeric df in
      Ok (df, set_enrolment_df self df)
  end.

Definition clean_demographic_data (self : AadhaarDataPipeline)
  : result (DataFrame * AadhaarDataPipeline) :=
  match demographic_df self with
  | None => Raise (ValueError "Demographic data not loaded")
  | Some df =>
      let df := fill_missing df in
      let df := convert_dates df in
      let df := remove_duplicates df in
      Ok (df, set_demographic_df self df)
  end.

Definition clean_biometric_data (self : AadhaarDataPipeline)
  : result (DataFrame * AadhaarDataPipeline) :=
  match biometric_df self with
  | None => Raise (ValueError "Biometric data not loaded")
  | Some df =>
      let df := fill_missing df in
      let df := convert_dates df in
      let df := remove_duplicates df in
      Ok (df, set_biometric_df self df)
  end.

End Cleaner.

(** *** Sample parsers, used to run the cleaner on concrete tables *)

Definition digit_of (c : ascii) : option Z :=
  let n := nat_of_ascii c in
  if (48 <=? n)%nat && (n <=? 57)%nat then Some (Z.of_nat (n - 48)) else None.

(** The value of a string of decimal digits, [None] on any other character. *)
Fixpoint digits_from (acc : Z) (s : string) : option Z :=
  match s with
  | EmptyString => Some acc
  | String c s' =>
      match digit_of c with
      | Some d => digits_from (10 * acc + d) s'
      | None => None
      end
  end.

Definition digits (s : string) : option Z :=
  match s with
  | EmptyString => None
  | _ => digits_from 0 s
  end.

(** The text before and after the first ['.'] (if any). *)
Fixpoint split_dot (s : string) : string * option string :=
  match s with
  | EmptyString => (EmptyString, None)
  | String c s' =>
      if Ascii.eqb c "."%char then (EmptyString, Some s')
      else let '(a, b) := split_dot s' in (String c a, b)
  end.

(** Unsigned decimal literals: [12], [12.5], [12.]. *)
Definition unsigned_decimal (s : string) : option Q :=
  match split_dot s with
  | (ip, None) => option_map inject_Z (digits ip)
  | (ip, Some fp) =>
      match digits ip, digits_from 0 fp with
      | Some i, Some f =>
          let scale := Z.to_pos (10 ^ Z.of_nat (String.length fp)) in
          Some (Qred ((i * Zpos scale + f) # scale))
      | _, _ => None
      end
  end.

(** Decimal literals with an optional sign. *)
Definition decimal_literal (s : string) : option Q :=
  match s with
  | String "-"%char s' => option_map Qopp (unsigned_decimal s')
  | String "+"%char s' => unsigned_decimal s'
  | _ => unsigned_decimal s
  end.

(** Days from 1970-01-01 to a date of the proleptic Gregorian calendar. *)
Definition days_from_civil (y m d : Z) : Z :=
  let y' := (if m <=? 2 then y - 1 else y)%Z in
  let era := (y' / 400)%Z in
  let yoe := (y' - era * 400)%Z in
  let mp := ((m + 9) mod 12)%Z in
  let doy := ((153 * mp + 2) / 5 + d - 1)%Z in
  let doe := (yoe * 365 + yoe / 4 - yoe / 100 + doy)%Z in
  (era * 146097 + doe - 719468)%Z.

Definition days_in_month (y m : Z) : Z :=
  (if m =? 2 then
     if ((y mod 4 =? 0) && negb (y mod 100 =? 0)) || (y mod 400 =? 0)
     then 29 else 28
   else if (m =? 4) || (m =? 6) || (m =? 9) || (m =? 11) then 30 else 31)%Z.

(** Dates written [YYYY-MM-DD], as nanoseconds since the epoch. *)
Definition iso_date (s : string) : option Z :=
  if (String.length s =? 10)%nat
     && String.eqb (substring 4 1 s) "-" && String.eqb (substring 7 1 s) "-"
  then
    match digits (substring 0 4 s), digits (substring 5 2 s),
          digits (substring 8 2 s) with
    | Some y, Some m, Some d =>
        if ((1 <=? m) && (m <=? 12) && (1 <=? d) && (d <=? days_in_month y m))%Z
        then Some (days_from_civil y m d * 86400000000000)%Z
        else None
    | _, _, _ => None
    end
  else None.

(** A whole number of nanoseconds within the range of [datetime64[ns]]. *)
Definition epoch_ns (q : Q) : option Z :=
  let n := Qfloor q in
  if (Z.abs n <? 2 ^ 63)%Z then Some n else None.

(** *** Vocabulary for statements about tables *)

(** Every row has one cell per column, and the cell under column [col]
    satisfies [P col]. *)
Definition rows_satisfy (P : string -> cell -> Prop) (df : DataFrame) : Prop :=
  Forall (fun r => Forall2 P (columns df) r) (rows df).

Definition well_formed (df : DataFrame) : Prop :=
  rows_satisfy (fun _ _ => True) df.

(** No value of a date or month column fails to parse as a date. *)
Definition dates_parse (strptime : string -> option Z) (epoch : Q -> option Z)
  (df : DataFrame) : Prop :=
  rows_satisfy
    (fun col c => is_date_col col = true -> isnull c = false ->
                  isnull (to_datetime strptime epoch c) = false) df.

(** Text occurs in date and month columns only. *)
Definition text_only_in_dates (df : DataFrame) : Prop :=
  rows_satisfy (fun col c => is_date_col col = false -> is_str c = false) df.

(** The three steps that the cleaners share. *)
Definition cleaned (strptime : string -> option Z) (epoch : Q -> option Z)
  (df : DataFrame) : DataFrame :=
  remove_duplicates (convert_dates strptime epoch (fill_missing df)).

(** [nle a b]: row [b] has a value wherever row [a] has one. *)
Definition nle (a b : row) : Prop :=
  Forall2 (fun x y => isnull y = true -> isnull x = true) a b.

(** All rows have the same null pattern. *)
Definition uniform (rs : list row) : Prop :=
  exists pat, Forall (fun r => map isnull r = pat) rs.

(** *** Sample tables *)

(** A demographic table whose second date does not parse. *)
Definition demographic_unparsable : DataFrame :=
  {| columns := ["State"; "Update_Date"];
     rows := [[Str "Kerala"; Str "2024-01-15"];
              [Str "Goa"; Str "not a date"]] |}.

(** A table without text outside its date column, with gaps and a
    repeated row. *)
Definition updates_sample : DataFrame :=
  {| columns := ["Pin Code"; "Update_Date"; "Update_Count"];
     rows := [[Num 685501; Str "2024-01-15"; Num 3];
              [Null; Null; Num 7];
              [Num 403001; Str "2024-02-01"; Null];
              [Num 685501; Str "2024-01-15"; Num 3]] |}.

(** An enrolment table as read from a file: a text column, a column that
    mixes numerals with another code, a count. *)
Definition enrolment_text : DataFrame :=
  {| columns := ["State"; "Ward"; "Aadhaar Generated"];
     rows := [[Str "Kerala"; Str "12"; Num 100];
              [Str "Goa"; Str "7A"; Num 250]] |}.

Definition pipeline_of (df : DataFrame) : AadhaarDataPipeline :=
  {| enrolment_df := Some df; demographic_df := Some df; biometric_df := Some df |}.

(** ** Grouping ([DataFrame.groupby]) *)

(** The cells of a row under the columns at positions [idx]. *)
Definition key_at (idx : list nat) (r : row) : row :=
  map (fun i => nth i r Null) idx.

Definition has_null (k : row) : bool := existsb isnull k.

(** Order of the group keys: numbers by value, text by code point, and
    numbers before timestamps before text. *)
Definition cell_rank (c : cell) : nat :=
  match c with Num _ => 0 | Date _ => 1 | Str _ => 2 | Null => 3 end.

Definition cell_leb (a b : cell) : bool :=
  match a, b with
  | Num p, Num q => Qle_bool p q
  | Str s, Str t => String.leb s t
  | Date s, Date t => Z.leb s t
  | _, _ => (cell_rank a <=? cell_rank b)%nat
  end.

Fixpoint row_leb (a b : row) : bool :=
  match a, b with
  | [], _ => true
  | _ :: _, [] => false
  | x :: a', y :: b' => if cell_eqb x y then row_leb a' b' else cell_leb x y
  end.

Fixpoint insert_sorted (k : row) (ks : list row) : list row :=
  match ks with
  | [] => [k]
  | k' :: ks' => if row_leb k k' then k :: ks else k' :: insert_sorted k ks'
  end.

Definition sort_rows (ks : list row) : list row :=
  fold_right insert_sorted [] ks.

(** The groups: the distinct keys that have no missing cell, sorted
    ([groupby] defaults [dropna=True], [sort=True]). *)
Definition group_keys (keys : list row) : list row :=
  sort_rows (drop_duplicates (filter (fun k => negb (has_null k)) keys)).

(** The values of the rows whose key is [k]. *)
Definition group_values (keys : list row) (values : list cell) (k : row)
  : list cell :=
  map snd (filter (fun kv => row_eqb k (fst kv)) (combine keys values)).

Definition is_num (c : cell) : bool :=
  match c with Num _ => true | _ => false end.

(** Sum of the numbers among the cells. *)
Definition numeric_total (vs : list cell) : Q :=
  fold_right (fun c acc => match c with Num q => q + acc | _ => acc end) 0 vs.

Definition text_total (vs : list cell) : string :=
  fold_right (fun c acc => match c with Str s => s ++ acc | _ => acc end) "" vs.

(** [.sum()] of one group: missing values are skipped; numbers add up (0 when
    there is none), text is concatenated, anything else raises.  The sum of
    numbers is the exact one ([exact_counts] below tells when pandas computes
    it). *)
Definition group_sum (vs : list cell) : result cell :=
  let present := filter (fun c => negb (isnull c)) vs in
  if forallb is_num present then Ok (Num (numeric_total present))
  else if forallb is_str present then Ok (Str (text_total present))
  else Raise TypeError.

(** [.count()] of one group: the cells that are not missing. *)
Definition group_count (vs : list cell) : nat :=
  List.length (filter (fun c => negb (isnull c)) vs).

(** *** Columns whose sums are exact

    [numeric_total] is the sum in exact arithmetic.  pandas adds an int64
    column in 64-bit integers, which wrap around at 2^63, and a float64
    column in binary64, which rounds.  Both give the exact sum for whole
    numbers whose magnitudes add up to 2^53 at most. *)

(** Sum of the magnitudes of the numbers among the cells. *)
Definition magnitude (vs : list cell) : Q :=
  fold_right (fun c acc => match c with Num q => Qabs q + acc | _ => acc end) 0 vs.

(** A whole number or a missing value. *)
Definition is_whole (c : cell) : bool :=
  match c with
  | Null => true
  | Num q => Qeq_bool q (inject_Z (Qfloor q))
  | Str _ | Date _ => false
  end.

Definition exact_counts (vs : list cell) : Prop :=
  forallb is_whole vs = true /\ magnitude vs <= inject_Z (2 ^ 53).

(** Numbers and missing values whose magnitudes add up to 10^290 at most:
    no sum of such cells leaves the binary64 range, nor does a sum divided
    by 1e-6 and taken a hundred times. *)
Definition sum_bound : Q := inject_Z (10 ^ 290).

Definition in_float_range (vs : list cell) : Prop :=
  forallb (fun c => isnull c || is_num c) vs = true /\ magnitude vs <= sum_bound.

(** ** Aggregator: [aggregate_by_state_district]
    (data_pipeline.py, lines 142-150) *)

Definition aggregate_by_state_district (df : DataFrame) (value_col : string)
  : result DataFrame :=
  if negb (has_column df "State") || negb (has_column df "District") then
    (* logger.warning("State or District column not found") *)
    Ok df
  else
    State <- get_column df "State" ;;
    District <- get_column df "District" ;;
    values <- get_column df value_col ;;
    let keys := map (fun sd => [fst sd; snd sd]) (combine State District) in
    sums <- mapM (fun k => v <- group_sum (group_values keys values k) ;;
                           Ok (k ++ [v])%list)
                 (group_keys keys) ;;
    (* reset_index() cannot insert a key column next to a value column of
       the same name *)
    if String.eqb value_col "State" || String.eqb value_col "District" then
      Raise (ValueError "cannot insert column, already exists")
    else
      Ok {| columns := ["State"; "District"; value_col]; rows := sums |}.

(** ** Derived tables

    A table built column by column ([t[name] = ...]): raw cells or computed
    floats under each name.  The empty [pd.DataFrame()] has no column. *)

Inductive series : Type :=
| Cells (cs : list cell)
| Floats (xs : list float64).

Definition Table : Type := list (string * series).

Fixpoint table_column (t : Table) (name : string) : option series :=
  match t with
  | [] => None
  | (n, s) :: t' => if String.eqb name n then Some s else table_column t' name
  end.

Fixpoint map2 {A B C : Type} (f : A -> B -> C) (l : list A) (l' : list B)
  : list C :=
  match l, l' with
  | a :: t, b :: t' => f a b :: map2 f t t'
  | _, _ => []
  end.

(** ** Merger: [pd.merge(left, right, on=..., how='left', suffixes=...)] *)

Definition mem (s : string) (l : list string) : bool := existsb (String.eqb s) l.

(** The cells of [r] under the columns [on] of the header [cols]. *)
Definition key_of (cols on : list string) (r : row) : row :=
  map (fun k => match index_of k cols with
                | Some i => nth i r Null
                | None => Null
                end) on.

(** The cells of [r] outside the columns [on]. *)
Definition non_key (cols on : list string) (r : row) : row :=
  map snd (filter (fun nc => negb (mem (fst nc) on)) (combine cols r)).

(** The columns of the right table that are not join keys. *)
Definition right_columns (right : DataFrame) (on : list string) : list string :=
  filter (fun c => negb (mem c on)) (columns right).

(** Header of the merged table: the columns of the left table, then the
    remaining columns of the right one; a name carried by both sides outside
    the keys takes the suffix of its side. *)
Definition merged_columns (left right : DataFrame) (on : list string)
  (lsuffix rsuffix : string) : list string :=
  (map (fun c => if mem c on then c
                 else if mem c (right_columns right on) then (c ++ lsuffix)%string
                 else c)
       (columns left)
   ++ map (fun c => if mem c (columns left) then (c ++ rsuffix)%string else c)
          (right_columns right on))%list.

(** The rows of the right table with the key of the left row [l]. *)
Definition matches (left right : DataFrame) (on : list string) (l : row)
  : list row :=
  filter (fun r => row_eqb (key_of (columns left) on l)
                           (key_of (columns right) on r))
         (rows right).

(** [how='left']: one merged row per match, and one row with missing values
    on the right when there is no match. *)
Definition join_row (left right : DataFrame) (on : list string) (l : row)
  : list row :=
  match matches left right on l with
  | [] => [(l ++ repeat Null (List.length (right_columns right on)))%list]
  | ms => map (fun r => (l ++ non_key (columns right) on r)%list) ms
  end.

(** *** Kinds of join keys

    [pd.merge] compares the dtypes of the two columns of each join key and
    raises ValueError for numbers against text and for timestamps against
    anything else. *)

Inductive kind : Type := Numeric | Text | Timestamp.

Definition kind_eqb (a b : kind) : bool :=
  match a, b with
  | Numeric, Numeric | Text, Text | Timestamp, Timestamp => true
  | _, _ => false
  end.

Definition is_date (c : cell) : bool :=
  match c with Date _ => true | _ => false end.

(** The kind of a column with rows: numbers (dtype int64 or float64; a
    column of missing values is one), text, or timestamps, each with missing
    values; nothing for a mixed column. *)
Definition column_kind (cells : list cell) : option kind :=
  match cells with
  | [] => None
  | _ =>
      if forallb (fun c => isnull c || is_num c) cells then Some Numeric
      else if forallb (fun c => isnull c || is_str c) cells then Some Text
      else if forallb (fun c => isnull c || is_date c) cells then Some Timestamp
      else None
  end.

(** The join key [k] has two different kinds in the two tables. *)
Definition kinds_clash (left right : DataFrame) (k : string) : bool :=
  match get_column left k, get_column right k with
  | Ok l, Ok r =>
      match column_kind l, column_kind r with
      | Some a, Some b => negb (kind_eqb a b)
      | _, _ => false
      end
  | _, _ => false
  end.

(** Every join key has one kind on both sides. *)
Definition keys_comparable (left right : DataFrame) (on : list string) : bool :=
  forallb (fun k =>
             match get_column left k, get_column right k with
             | Ok l, Ok r =>
                 match column_kind l, column_kind r with
                 | Some a, Some b => kind_eqb a b
                 | _, _ => false
                 end
             | _, _ => false
             end) on.

Definition merge (left right : DataFrame) (on : list string)
  (lsuffix rsuffix : string) : result DataFrame :=
  match find (fun k => negb (mem k (columns left) && mem k (columns right))) on with
  | Some k => Raise (KeyError k)
  | None =>
      if existsb (kinds_clash left right) on then
        Raise (ValueError "You are trying to merge on columns of two kinds")
      else
        Ok {| columns := merged_columns left right on lsuffix rsuffix;
              rows := flat_map (join_row left right on) (rows left) |}
  end.

(** ** Migration indicators: [calculate_migration_indicators]
    (data_pipeline.py, lines 152-178) *)

Definition calculate_migration_indicators (self : AadhaarDataPipeline)
  : result Table :=
  match enrolment_df self, demographic_df self with
  | Some enrolment, Some demographic =>
      (* Merge enrolment and demographic updates *)
      merged <- merge enrolment demographic ["State"; "District"; "Pin Code"]
                      "_enrol" "_demo" ;;
      (* Calculate migration indicators *)
      if has_column merged "Aadhaar Generated_enrol"
         && has_column merged "Update_count" then
        State <- get_column merged "State" ;;
        District <- get_column merged "District" ;;
        Enrolment <- get_column merged "Aadhaar Generated_enrol" ;;
        Updates <- get_column merged "Update_count" ;;
        updates <- to_floats Updates ;;
        enrolment <- to_floats Enrolment ;;
        let Update_Rate :=
          map2 (fun u e => (u / (e + Finite 1) * Finite 100)%fl)
               updates enrolment in
        let Migration_Risk := _calculate_migration_risk Update_Rate in
        Ok [("State", Cells State); ("District", Cells District);
            ("Enrolment", Cells Enrolment); ("Updates", Cells Updates);
            ("Update_Rate", Floats Update_Rate);
            ("Migration_Risk", Floats Migration_Risk)]
      else
        Ok []
  | _, _ => Raise (ValueError "Required datasets not loaded")
  end.

(** ** Biometric quality: [calculate_biometric_quality]
    (data_pipeline.py, lines 188-213) *)

(** The binary64 sum of the numbers of one group, as the group sum of
    pandas computes it: the numbers are added in row order to a running sum
    with a running compensation for the rounding of the sum (a compensation
    that is NaN is set back to 0); missing values are skipped.  In exact
    arithmetic the compensation is 0 until a sum leaves the range. *)
Definition kahan_step (state : float64 * float64) (c : cell) : float64 * float64 :=
  match c with
  | Num q =>
      let '(sumx, compensation) := state in
      let y := (overflow (Finite q) - compensation)%fl in
      let t := overflow (sumx + y)%fl in
      let compensation' := (t - sumx - y)%fl in
      (t, if isnan compensation' then Finite 0 else compensation')
  | _ => state
  end.

Definition float_sum (vs : list cell) : float64 :=
  fst (fold_left kahan_step vs (Finite 0, Finite 0)).

(** [.mean()] of one group of numbers: NaN when the group has no value. *)
Definition group_mean (vs : list cell) : float64 :=
  let present := filter (fun c => negb (isnull c)) vs in
  overflow (float_sum present
            / Finite (inject_Z (Z.of_nat (List.length present))))%fl.

(** The sum and mean needed together: only numbers can be averaged. *)
Definition numeric_sum (vs : list cell) : result float64 :=
  if forallb (fun c => isnull c || is_num c) vs
  then Ok (float_sum vs)
  else Raise TypeError.

Definition calculate_biometric_quality (self : AadhaarDataPipeline)
  : result Table :=
  match biometric_df self with
  | None => Raise (ValueError "Biometric data not loaded")
  | Some df =>
      (* Group by state and calculate quality metrics *)
      if has_column df "State" then
        State <- get_column df "State" ;;
        Update_Count <- get_column df "Update_Count" ;;
        Age_Group <- get_column df "Age_Group" ;;
        let keys := map (fun s => [s]) State in
        let groups := group_keys keys in
        Total_Updates <-
          mapM (fun k => numeric_sum (group_values keys Update_Count k)) groups ;;
        let Avg_Updates :=
          map (fun k => group_mean (group_values keys Update_Count k)) groups in
        let Individuals_Updated :=
          map (fun k => group_count (group_values keys Age_Group k)) groups in
        (* Calculate update rate *)
        let Biometric_Coverage :=
          map2 (fun total n =>
                  overflow
                    (overflow (total / (Finite (inject_Z (Z.of_nat n)) + Finite eps))
                     * Finite 100)%fl)
               Total_Updates Individuals_Updated in
        Ok [("State", Cells (map (fun k => nth 0 k Null) groups));
            ("Total_Updates", Floats Total_Updates);
            ("Avg_Updates", Floats Avg_Updates);
            ("Individuals_Updated",
             Cells (map (fun n => Num (inject_Z (Z.of_nat n))) Individuals_Updated));
            ("Biometric_Coverage", Floats Biometric_Coverage)]
      else
        Ok []
  end.

(** *** Sample tables *)

Definition enrolment_sample : DataFrame :=
  {| columns := ["State"; "District"; "Pin Code"; "Aadhaar Generated"];
     rows := [[Str "Kerala"; Str "Idukki"; Num 685501; Num 100];
              [Str "Goa"; Str "North Goa"; Num 403001; Num 250];
              [Str "Kerala"; Str "Idukki"; Num 685502; Num 40]] |}.

(** Demographic updates in the schema of the interface ([Update_Count]). *)
Definition demographic_sample : DataFrame :=
  {| columns := ["State"; "District"; "Pin Code"; "Update_Count"];
     rows := [[Str "Kerala"; Str "Idukki"; Num 685501; Num 30]] |}.

(** Demographic updates with the two columns that
    [calculate_migration_indicators] looks for after the merge. *)
Definition demographic_counts : DataFrame :=
  {| columns := ["State"; "District"; "Pin Code"; "Aadhaar Generated";
                 "Update_count"];
     rows := [[Str "Kerala"; Str "Idukki"; Num 685501; Num 100; Num 30];
              [Str "Kerala"; Str "Idukki"; Num 685501; Num 100; Num 12]] |}.

(** The same updates with the Pin Code typed as text. *)
Definition demographic_text_pin : DataFrame :=
  {| columns := ["State"; "District"; "Pin Code"; "Aadhaar Generated";
                 "Update_count"];
     rows := [[Str "Kerala"; Str "Idukki"; Str "685501"; Num 100; Num 30];
              [Str "Kerala"; Str "Idukki"; Str "PIN-2"; Num 100; Num 12]] |}.

(** Two updates in Kerala without an age group (50 updates, 0 individuals). *)
Definition biometric_sample : DataFrame :=
  {| columns := ["State"; "Update_Count"; "Age_Group"];
     rows := [[Str "Kerala"; Num 20; Null];
              [Str "Goa"; Num 7; Str "Adult (26-40)"];
              [Str "Kerala"; Num 30; Null];
              [Str "Goa"; Null; Str "Child (0-5)"]] |}.

(** Updates in two States, with an Age_Group column that is empty
    throughout (50 updates and 0 individuals in Kerala). *)
Definition biometric_unaged : DataFrame :=
  {| columns := ["State"; "Update_Count"; "Age_Group"];
     rows := [[Str "Kerala"; Num 20; Null];
              [Str "Goa"; Num 7; Null];
              [Str "Kerala"; Num 30; Null]] |}.

(** Two update counts of 1e308 in one State. *)
Definition huge_updates : DataFrame :=
  {| columns := ["State"; "Update_Count"; "Age_Group"];
     rows := [[Str "Kerala"; Num (inject_Z (10 ^ 308)); Str "Adult (26-40)"];
              [Str "Kerala"; Num (inject_Z (10 ^ 308)); Str "Child (0-5)"]] |}.

(** A table without the State column. *)
Definition pincode_sample : DataFrame :=
  {| columns := ["Pin Code"; "Aadhaar Generated"];
     rows := [[Num 685501; Num 100]; [Num 403001; Num 250]] |}.

Definition migration_pipeline : AadhaarDataPipeline :=
  {| enrolment_df := Some enrolment_sample;
     demographic_df := Some demographic_counts;
     biometric_df := None |}.

(** ** Vulnerability score: [VulnerabilityAnalyzer]
    (ml_models.py, lines 96-163) *)

Definition vulnerability_map : list (string * Q) :=
  [("Child (0-5)", 1);      (* Highest - No legal identity *)
   ("Child (6-17)", 9 # 10); (* Very high - Limited documentation *)
   ("Youth (18-25)", 3 # 10);
   ("Adult (26-40)", 2 # 10);
   ("Senior (41-60)", 3 # 10);
   ("Elderly (60+)", 8 # 10)]. (* Very high - Digital exclusion *)

(** [d.get(k, default)] *)
Fixpoint dict_get (d : list (string * Q)) (k : string) (default : Q) : Q :=
  match d with
  | [] => default
  | (k', v) :: d' => if String.eqb k k' then v else dict_get d' k default
  end.

Definition _age_vulnerability_score (age_group : cell) : Q :=
  match age_group with
  | Str s => dict_get vulnerability_map s (1 # 2)
  | _ => 1 # 2
  end.

(** Lower enrolment = higher vulnerability *)
Definition _geographic_vulnerability (enrolment : list float64) : list float64 :=
  let normalized :=
    map (fun e => ((series_max enrolment - e)
                   / (series_max enrolment - series_min enrolment + Finite eps))%fl)
        enrolment in
  fillna (Finite (1 # 2)) normalized.

(** Lower updates = higher vulnerability *)
Definition _biometric_vulnerability (biometric_updates : list float64)
  : list float64 :=
  let normalized :=
    map (fun b => (Finite 1 - b / (series_max biometric_updates + Finite eps))%fl)
        biometric_updates in
  fillna (Finite (1 # 2)) normalized.

(** Higher updates = higher migration risk *)
Definition _migration_vulnerability (demographic_updates : list float64)
  : list float64 :=
  let normalized :=
    map (fun d => (d / (series_max demographic_updates + Finite eps))%fl)
        demographic_updates in
  fillna (Finite (1 # 2)) normalized.

(** [scores += sub * w], row by row. *)
Definition add_weighted (scores : list float64) (sub : list float64) (w : Q)
  : list float64 :=
  map2 fadd scores (map (fun x => (x * Finite w)%fl) sub).

Definition calculate_vulnerability_score (df : DataFrame) : result (list float64) :=
  let vulnerability_scores := repeat (Finite 0) (List.length (rows df)) in
  (* Age vulnerability (0-40 points) *)
  vulnerability_scores <-
    (if has_column df "Age_Group" then
       Age_Group <- get_column df "Age_Group" ;;
       let age_vuln := map (fun g => Finite (_age_vulnerability_score g)) Age_Group in
       Ok (add_weighted vulnerability_scores age_vuln (4 # 10))
     else Ok vulnerability_scores) ;;
  (* Geographic vulnerability (0-30 points) *)
  vulnerability_scores <-
    (if has_column df "State" && has_column df "Enrolment_Count" then
       Enrolment_Count <- get_column df "Enrolment_Count" ;;
       enrolment <- to_floats Enrolment_Count ;;
       let geo_vuln := _geographic_vulnerability enrolment in
       Ok (add_weighted vulnerability_scores geo_vuln (3 # 10))
     else Ok vulnerability_scores) ;;
  (* Biometric vulnerability (0-20 points) *)
  vulnerability_scores <-
    (if has_column df "Biometric_Updates" then
       Biometric_Updates <- get_column df "Biometric_Updates" ;;
       biometric_updates <- to_floats Biometric_Updates ;;
       let bio_vuln := _biometric_vulnerability biometric_updates in
       Ok (add_weighted vulnerability_scores bio_vuln (2 # 10))
     else Ok vulnerability_scores) ;;
  (* Migration vulnerability (0-10 points) *)
  vulnerability_scores <-
    (if has_column df "Demographic_Updates" then
       Demographic_Updates <- get_column df "Demographic_Updates" ;;
       demographic_updates <- to_floats Demographic_Updates ;;
       let mig_vuln := _migration_vulnerability demographic_updates in
       Ok (add_weighted vulnerability_scores mig_vuln (1 # 10))
     else Ok vulnerability_scores) ;;
  Ok vulnerability_scores.

(** *** The weighted sum of the sub-scores *)







(** A float read from a table: a rational or NaN, never an infinity. *)
Definition finite_or_nan (x : float64) : Prop :=
  match x with Finite _ | NaN => True | _ => False end.



(** *** Sample tables *)


Definition regions_sample : DataFrame :=
  {| columns := ["State"; "Age_Group"; "Enrolment_Count"; "Biometric_Updates";
                 "Demographic_Updates"];
     rows := [[Str "Kerala"; Str "Elderly (60+)"; Num 120; Num 30; Num 4];
              [Str "Goa"; Str "Adult (26-40)"; Num 300; Null; Num 0];
              [Str "Assam"; Null; Null; Num 0; Num 9]] |}.



(** ** Z-score anomalies: [identify_anomalies]
    (data_pipeline.py, lines 239-248)

    The column is handed to [scipy.stats.zscore] as binary64 numbers; this
    part computes on the kernel's binary64 numbers. *)

Module Binary64.

Import PrimFloat.
Local Open Scope float_scope.

(** The binary64 number nearest to an integer (ties to even, an infinity
    beyond the range). *)
Definition of_Z (z : Z) : float := SF2Prim (binary_normalize prec emax z 0 false).

(** The binary64 number nearest to a rational: the quotient is taken to 66
    bits or more, a last bit records whether a remainder is left, and the
    result is rounded once. *)
Definition of_Q (q : Q) : float :=
  let n := Qnum q in
  let d := Zpos (Qden q) in
  let k := Z.max 0 (Z.log2 d + 66 - Z.log2 (Z.abs n)) in
  let scaled := (Z.abs n * 2 ^ k)%Z in
  let m := (2 * (scaled / d) + (if (scaled mod d =? 0)%Z then 0 else 1))%Z in
  SF2Prim (binary_normalize prec emax (if (n <? 0)%Z then (- m)%Z else m)
                            (- k - 1) false).

Definition of_cell (c : cell) : result float :=
  match c with
  | Null => Ok nan
  | Num q => Ok (of_Q q)
  | Str _ | Date _ => Raise TypeError
  end.

(** [Series.fillna(0)] *)
Definition fillna0 (xs : list float) : list float :=
  map (fun x => if is_nan x then 0 else x) xs.

(** [np.add.reduce] on a float64 column, as numpy computes it: fewer than 8
    entries are added in sequence; up to 128 entries are added into eight
    running sums, entry [i] into sum [i mod 8], which are then added in
    pairs, and the entries after the last full block of 8 are added in
    sequence; a longer column is split in two near its middle. *)

(** [r[j] += a[i + j]], block after block. *)
Fixpoint add_blocks (r xs : list float) (blocks : nat) : list float * list float :=
  match blocks with
  | O => (r, xs)
  | S b => add_blocks (map2 add r (firstn 8 xs)) (skipn 8 xs) b
  end.

Definition block_sum (xs : list float) : float :=
  let '(rs, rest) :=
    add_blocks (firstn 8 xs) (skipn 8 xs) (List.length xs / 8 - 1) in
  let r := fun j => nth j rs 0 in
  fold_left add rest
            (((r 0%nat + r 1%nat) + (r 2%nat + r 3%nat))
             + ((r 4%nat + r 5%nat) + (r 6%nat + r 7%nat))).

Fixpoint pairwise_sum (depth : nat) (xs : list float) : float :=
  let n := List.length xs in
  if (n <? 8)%nat then fold_left add xs (-0)
  else if (n <=? 128)%nat then block_sum xs
  else match depth with
       | O => block_sum xs
       | S depth' =>
           let n2 := (n / 2 - (n / 2) mod 8)%nat in
           pairwise_sum depth' (firstn n2 xs) + pairwise_sum depth' (skipn n2 xs)
       end.

(** The halves shrink, so a depth of the length of the column is never used
    up. *)
Definition sum (xs : list float) : float :=
  0 + pairwise_sum (List.length xs) xs.

(** [a.mean()] *)
Definition mean (xs : list float) : float :=
  sum xs / of_Z (Z.of_nat (List.length xs)).

(** [a.std(ddof=0)]: the root of the mean squared deviation (divisor n). *)
Definition std (xs : list float) : float :=
  let mn := mean xs in
  sqrt (mean (map (fun x => (x - mn) * (x - mn)) xs)).

(** [scipy.stats.zscore(a)] with its default [ddof=0], computed as scipy
    does: (x - mean) / std with the population mean and standard deviation,
    and NaN throughout for a column whose entries all equal the first. *)
Definition zscore (xs : list float) : list float :=
  match xs with
  | [] => []
  | first :: _ =>
      let mn := mean xs in
      let sd := std xs in
      if forallb (eqb first) xs then map (fun _ => nan) xs
      else map (fun x => (x - mn) / sd) xs
  end.

End Binary64.

(** The rows with their index labels, counted from [i]. *)
Fixpoint enumerate_from {A : Type} (i : nat) (l : list A) : list (nat * A) :=
  match l with
  | [] => []
  | x :: l' => (i, x) :: enumerate_from (S i) l'
  end.

(** [df[mask]]: the rows at which the mask holds. *)
Fixpoint select {A : Type} (mask : list bool) (l : list A) : list A :=
  match mask, l with
  | b :: mask', x :: l' => if b then x :: select mask' l' else select mask' l'
  | _, _ => []
  end.

(** A number of magnitude below 2^63, which pandas holds as an int64 or a
    float64 however it is spelled. *)
Definition within_int64 (c : cell) : Prop :=
  match c with
  | Num q => Qabs q < inject_Z (2 ^ 63)
  | _ => True
  end.

(** A column of dtype int64 or float64: such numbers and missing values. *)
Definition is_numeric_dtype (cells : list cell) : Prop :=
  Forall (fun c => match c with
                   | Null | Num _ => within_int64 c
                   | Str _ | Date _ => False
                   end) cells.

Section Anomalies.

(** [scipy.stats.zscore], the library function that the pipeline calls: one
    score per entry of the column. *)
Variable zscore : list float -> list float.

Definition identify_anomalies (df : DataFrame) (column : string)
  (threshold : float) : result (list (nat * row)) :=
  cells <- get_column df column ;;
  values <- mapM Binary64.of_cell cells ;;
  let z_scores := map PrimFloat.abs (zscore (Binary64.fillna0 values)) in
  let anomalies :=
    select (map (fun z => PrimFloat.ltb threshold z) z_scores)
           (enumerate_from 0 (rows df)) in
  Ok anomalies.

End Anomalies.

(** *** Sample tables: the values 1, 1, 1, 1, 100, and a constant column *)

Definition spike_sample : DataFrame :=
  {| columns := ["District"; "Update_Count"];
     rows := [[Str "A"; Num 1]; [Str "B"; Num 1]; [Str "C"; Num 1];
              [Str "D"; Num 1]; [Str "E"; Num 100]] |}.

Definition constant_sample : DataFrame :=
  {| columns := ["District"; "Update_Rate"];
     rows := [[Str "A"; Num (1 # 10)]; [Str "B"; Num (1 # 10)];
              [Str "C"; Num (1 # 10)]] |}.

(** ** Anomaly and cluster adapters
    ([AnomalyDetector.detect_isolation_forest], ml_models.py lines 30-56;
     [PopulationClusterer.cluster_regions], lines 256-281) *)

(** [X.fillna(0)] *)
Definition fillna_zero (df : DataFrame) : DataFrame :=
  {| columns := columns df;
     rows := map (map (fun c => if isnull c then Num 0 else c)) (rows df) |}.

(** [df[features]]: the listed columns, [KeyError] for a missing one. *)
Definition select_columns (df : DataFrame) (features : list string)
  : result DataFrame :=
  idx <- mapM (fun f => match index_of f (columns df) with
                        | Some i => Ok i
                        | None => Raise (KeyError f)
                        end) features ;;
  Ok {| columns := features; rows := map (key_at idx) (rows df) |}.

(** [df[name] = values] on a copy: the column is replaced when it exists and
    appended otherwise; a column of another length raises. *)
Fixpoint set_at (i : nat) (v : cell) (r : row) : row :=
  match r, i with
  | [], _ => []
  | _ :: r', O => v :: r'
  | c :: r', S i' => c :: set_at i' v r'
  end.

Definition assign_column (df : DataFrame) (name : string) (values : list cell)
  : result DataFrame :=
  if negb (List.length values =? List.length (rows df))%nat then
    Raise (ValueError "Length of values does not match length of index")
  else
    match index_of name (columns df) with
    | Some i =>
        Ok {| columns := columns df;
              rows := map2 (fun r v => set_at i v r) (rows df) values |}
    | None =>
        Ok {| columns := (columns df ++ [name])%list;
              rows := map2 (fun r v => (r ++ [v])%list) (rows df) values |}
    end.

Section Adapters.

(** scikit-learn, which the repository calls and does not contain.  A fit
    returns the fitted object with its output, or raises. *)
Variables scaler forest kmeans matrix : Type.

(** [StandardScaler().fit_transform(X)] *)
Variable StandardScaler_fit_transform : DataFrame -> result (scaler * matrix).

(** [IsolationForest(contamination=c, random_state=42,
    n_estimators=100).fit_predict(X_scaled)]: -1 = anomaly, 1 = normal *)
Variable IsolationForest_fit_predict : Q -> matrix -> result (forest * list Z).

(** [KMeans(n_clusters=k, random_state=42, n_init=10).fit_predict(X_scaled)] *)
Variable KMeans_fit_predict : nat -> matrix -> result (kmeans * list Z).

Record AnomalyDetector : Type := mkDetector {
  isolation_forest : option forest;
  detector_scaler : option scaler
}.

(** The body of the [try] of [detect_isolation_forest]. *)
Definition isolation_forest_attempt (self : AnomalyDetector) (X : DataFrame)
  (contamination : Q) : result (list Z * AnomalyDetector) :=
  (* Scale features *)
  scaled <- StandardScaler_fit_transform (fillna_zero X) ;;
  (* Train model *)
  fitted <- IsolationForest_fit_predict contamination (snd scaled) ;;
  Ok (snd fitted,
      {| isolation_forest := Some (fst fitted);
         detector_scaler := Some (fst scaled) |}).

Definition detect_isolation_forest (self : AnomalyDetector) (X : DataFrame)
  (contamination : Q) : list Z * AnomalyDetector :=
  match isolation_forest_attempt self X contamination with
  | Ok r => r
  | Raise e =>
      (* logger.error(f"Error in Isolation Forest: {e}") *)
      (repeat 1%Z (List.length (rows X)), self)
  end.

Record PopulationClusterer : Type := mkClusterer {
  n_clusters : nat;
  kmeans_model : option kmeans;
  clusterer_scaler : option scaler
}.

(** The calls of [cluster_regions] that can raise before the model is
    stored on the object. *)
Definition cluster_attempt (self : PopulationClusterer) (df : DataFrame)
  (features : list string) : result (scaler * (kmeans * list Z)) :=
  (* Prepare features *)
  X <- select_columns df features ;;
  scaled <- StandardScaler_fit_transform (fillna_zero X) ;;
  (* Fit K-means *)
  fitted <- KMeans_fit_predict (n_clusters self) (snd scaled) ;;
  Ok (fst scaled, fitted).

Definition cluster_regions (self : PopulationClusterer) (df : DataFrame)
  (features : list string) : DataFrame * PopulationClusterer :=
  match cluster_attempt self df features with
  | Ok (fitted_scaler, (model, clusters)) =>
      let self' := {| n_clusters := n_clusters self;
                      kmeans_model := Some model;
                      clusterer_scaler := Some fitted_scaler |} in
      match assign_column df "Cluster" (map (fun c => Num (inject_Z c)) clusters) with
      | Ok df_result => (df_result, self')
      | Raise e => (df, self')
      end
  | Raise e =>
      (* logger.error(f"Error in clustering: {e}") *)
      (df, self)
  end.

End Adapters.

(** *** Sample library: a scaler that works, models that raise *)

Definition identity_scaler (X : DataFrame) : result (unit * DataFrame) :=
  Ok (tt, X).

Definition failing_forest (contamination : Q) (X : DataFrame)
  : result (unit * list Z) :=
  Raise (LibraryError "contamination must be in (0, 0.5]").

Definition failing_kmeans (k : nat) (X : DataFrame) : result (unit * list Z) :=
  Raise (LibraryError "n_samples should be >= n_clusters").

(** A clusterer that puts every row in cluster 0. *)
Definition constant_kmeans (k : nat) (X : DataFrame) : result (unit * list Z) :=
  Ok (tt, repeat 0%Z (List.length (rows X))).

(* ================================================================== *)
(** * Further code of the two modules *)
(* ================================================================== *)

(** ** Vocabulary *)

(** [keeps r r']: row [r'] has the cells of [r] wherever [r] has a value. *)
Definition keeps (r r' : row) : Prop :=
  Forall2 (fun c c' => isnull c = false -> c' = c) r r'.

(** No two rows are equal. *)
Definition distinct_rows (rs : list row) : Prop :=
  ForallOrdPairs (fun a b => row_eqb a b = false) rs.

(** The values of the rows whose key has no missing cell: the rows that a
    [groupby] keeps. *)
Definition keyed_values (keys : list row) (values : list cell) : list cell :=
  map snd (filter (fun kv => negb (has_null (fst kv))) (combine keys values)).

Definition Qsum (l : list Q) : Q := fold_right Qplus 0 l.

(** Enrolments, one of them without a State. *)
Definition enrolment_unlocated : DataFrame :=
  {| columns := ["State"; "District"; "Aadhaar Generated"];
     rows := [[Str "Kerala"; Str "Idukki"; Num 100];
              [Null; Str "Idukki"; Num 7];
              [Str "Kerala"; Str "Idukki"; Num 40]] |}.

(** ** Vulnerable populations: [identify_vulnerable_populations]
    (ml_models.py, lines 165-172) *)

(** [x >= y] on floats; false as soon as one side is NaN. *)
Definition fgeb (x y : float64) : bool :=
  negb (isnan x) && negb (isnan y) && negb (fltb x y).

(** A row of the scored table: its index label, the cells of the input row
    and its [Vulnerability_Score] (which takes the place of a column of that
    name when the input has one). *)
Definition scored_row : Type := (nat * row * float64)%type.

Definition score_of (x : scored_row) : float64 := snd x.

(** [sort_values(by, ascending=False)] on rows without a missing value in
    the sorted column, [key] reading that column: highest first, equal
    values in the order of the input. *)
Fixpoint insert_descending {A : Type} (key : A -> float64) (x : A) (l : list A)
  : list A :=
  match l with
  | [] => [x]
  | y :: l' =>
      if fltb (key x) (key y) then y :: insert_descending key x l'
      else x :: l
  end.

Definition sort_descending {A : Type} (key : A -> float64) (l : list A) : list A :=
  fold_right (insert_descending key) [] l.

Definition identify_vulnerable_populations (df : DataFrame) (threshold : float64)
  : result (list scored_row) :=
  Vulnerability_Score <- calculate_vulnerability_score df ;;
  let df := combine (combine (seq 0 (List.length (rows df))) (rows df))
                    Vulnerability_Score in
  let vulnerable := filter (fun x => fgeb (score_of x) threshold) df in
  Ok (sort_descending score_of vulnerable).

(** ** Validator: [DataValidator.check_missing_values]
    (data_pipeline.py, lines 309-313) *)

(** [d[k] = v]: a key that is present keeps its place and takes the value. *)
Fixpoint dict_set {V : Type} (d : list (string * V)) (k : string) (v : V)
  : list (string * V) :=
  match d with
  | [] => [(k, v)]
  | (k', v') :: d' =>
      if String.eqb k k' then (k, v) :: d' else (k', v') :: dict_set d' k v
  end.

(** [Series.to_dict()] *)
Definition to_dict {V : Type} (items : list (string * V)) : list (string * V) :=
  fold_left (fun d kv => dict_set d (fst kv) (snd kv)) items [].

(** [df.isnull().sum()] at the column in position [i]. *)
Definition null_count (i : nat) (rs : list row) : nat :=
  List.length (filter isnull (column_at i rs)).

Definition float_of_nat (n : nat) : float64 := Finite (inject_Z (Z.of_nat n)).

Definition check_missing_values (df : DataFrame) : list (string * float64) :=
  let missing :=
    to_dict (map (fun ic => (snd ic,
                             (float_of_nat (null_count (fst ic) (rows df))
                              / float_of_nat (List.length (rows df))
                              * Finite 100)%fl))
                 (enumerate_from 0 (columns df))) in
  filter (fun kv => fltb (Finite 0) (snd kv)) missing.

(** A table without rows. *)
Definition no_rows : DataFrame :=
  {| columns := ["State"; "Update_Count"]; rows := [] |}.

(** ** Insights: [generate_insights] (data_pipeline.py, lines 250-287) *)

(** [Series.nunique()]: the distinct values, missing ones left out. *)
Definition nunique (cs : list cell) : nat :=
  List.length
    (drop_duplicates (map (fun c => [c]) (filter (fun c => negb (isnull c)) cs))).

(** [df[name].nunique() if name in df.columns else 0] *)
Definition nunique_or_zero (df : DataFrame) (name : string) : result nat :=
  if has_column df name then cs <- get_column df name ;; Ok (nunique cs)
  else Ok 0%nat.

Definition is_loaded (df : option DataFrame) : bool :=
  match df with Some _ => true | None => false end.

Record Insights : Type := mkInsights {
  timestamp : Z;
  datasets_loaded : list (string * bool);
  summary_stats : list (string * list (string * nat));
  anomalies : list (string * nat);
  key_metrics : list (string * nat)
}.

(** [now] is the reading of [datetime.now()]. *)
Definition generate_insights (now : Z) (self : AadhaarDataPipeline)
  : result Insights :=
  let stats : list (string * list (string * nat)) := [] in
  (* Enrolment insights *)
  stats <-
    match enrolment_df self with
    | Some df =>
        states <- nunique_or_zero df "State" ;;
        districts <- nunique_or_zero df "District" ;;
        Ok (dict_set stats "enrolment"
              [("total_records", List.length (rows df));
               ("states", states);
               ("districts", districts)])
    | None => Ok stats
    end ;;
  (* Demographic insights *)
  stats <-
    match demographic_df self with
    | Some df =>
        states <- nunique_or_zero df "State" ;;
        update_types <- nunique_or_zero df "Update_Type" ;;
        Ok (dict_set stats "demographic"
              [("total_records", List.length (rows df));
               ("states", states);
               ("update_types", update_types)])
    | None => Ok stats
    end ;;
  (* Biometric insights *)
  stats <-
    match biometric_df self with
    | Some df =>
        states <- nunique_or_zero df "State" ;;
        Ok (dict_set stats "biometric"
              [("total_records", List.length (rows df));
               ("states", states)])
    | None => Ok stats
    end ;;
  Ok {| timestamp := now;
        datasets_loaded :=
          [("enrolment", is_loaded (enrolment_df self));
           ("demographic", is_loaded (demographic_df self));
           ("biometric", is_loaded (biometric_df self))];
        summary_stats := stats;
        anomalies := [];
        key_metrics := [] |}.

(** ** Anomaly scores: [AnomalyDetector.get_anomaly_scores]
    (ml_models.py, lines 76-93) *)

(** [ndarray.min()] / [ndarray.max()]: a NaN entry makes the result NaN; an
    empty array raises. *)
Definition array_min (a : list float64) : result float64 :=
  match a with
  | [] => Raise (ValueError "zero-size array to reduction operation minimum which has no identity")
  | _ => Ok (if existsb isnan a then NaN else series_min a)
  end.

Definition array_max (a : list float64) : result float64 :=
  match a with
  | [] => Raise (ValueError "zero-size array to reduction operation maximum which has no identity")
  | _ => Ok (if existsb isnan a then NaN else series_max a)
  end.

(** [np.zeros(n)] *)
Definition zeros (n : nat) : list float64 := repeat (Finite 0) n.

Section Scores.

Variables scaler forest matrix : Type.

(** [StandardScaler().fit_transform(X)] *)
Variable StandardScaler_fit_transform : DataFrame -> result (scaler * matrix).

(** [model.score_samples(X_scaled)] *)
Variable IsolationForest_score_samples : forest -> matrix -> result (list float64).

(** The body of the [try] of [get_anomaly_scores]. *)
Definition anomaly_scores_attempt (self : AnomalyDetector scaler forest)
  (X : DataFrame) : result (list float64) :=
  scaled <- StandardScaler_fit_transform (fillna_zero X) ;;
  match isolation_forest self with
  | Some model =>
      raw <- IsolationForest_score_samples model (snd scaled) ;;
      let scores := map fneg raw in
      (* Normalize to 0-1 *)
      lo <- array_min scores ;;
      hi <- array_max scores ;;
      Ok (map (fun s => ((s - lo) / (hi - lo + Finite eps))%fl) scores)
  | None => Ok (zeros (List.length (rows X)))
  end.

Definition get_anomaly_scores (self : AnomalyDetector scaler forest)
  (X : DataFrame) : list float64 :=
  match anomaly_scores_attempt self X with
  | Ok scores => scores
  | Raise e =>
      (* logger.error(f"Error getting anomaly scores: {e}") *)
      zeros (List.length (rows X))
  end.

End Scores.

(** A fitted model that scores a row by the negated total of its numbers. *)
Definition total_scores (model : unit) (X : DataFrame) : result (list float64) :=
  Ok (map (fun r => Finite (- numeric_total r)) (rows X)).

Definition failing_scores (model : unit) (X : DataFrame)
  : result (list float64) :=
  Raise (LibraryError "X has 2 features, but IsolationForest is expecting 3").

(** ** Insight generator: [InsightGenerator] (ml_models.py, lines 306-344) *)

(** A value of a derived table. *)
Inductive field : Type :=
| FCell (c : cell)
| FFloat (x : float64).

Definition series_fields (s : series) : list field :=
  match s with
  | Cells cs => map FCell cs
  | Floats xs => map FFloat xs
  end.

(** [t[name]] as floats, for a comparison with a number: an absent column
    raises [KeyError], a column with text [TypeError]. *)
Definition table_floats (t : Table) (name : string) : result (list float64) :=
  match table_column t name with
  | None => Raise (KeyError name)
  | Some (Floats xs) => Ok xs
  | Some (Cells cs) => to_floats cs
  end.

(** [t[names].to_dict('records')] of the rows with the labels [idx]. *)
Definition records (t : Table) (names : list string) (idx : list nat)
  : result (list (list (string * field))) :=
  cols <- mapM (fun c => match table_column t c with
                         | Some s => Ok (c, series_fields s)
                         | None => Raise (KeyError c)
                         end) names ;;
  Ok (map (fun i => map (fun cf => (fst cf, nth i (snd cf) (FCell Null))) cols)
          idx).

Record Insight : Type := mkInsight {
  category : string;
  severity : string;
  finding : string;
  details : list (list (string * field));
  recommendation : string
}.

(** [str(n)] *)
Definition str (n : nat) : string := NilEmpty.string_of_uint (Nat.to_uint n).

Definition generate_biometric_insights (biometric_df : Table)
  : result (list Insight) :=
  let insights : list Insight := [] in
  (* Low coverage states *)
  coverage <- table_floats biometric_df "Biometric_Coverage" ;;
  let low_coverage :=
    map fst (filter (fun ix => fltb (snd ix) (Finite 30))
                    (enumerate_from 0 coverage)) in
  if (0 <? List.length low_coverage)%nat then
    details <- records biometric_df ["State"; "Biometric_Coverage"] low_coverage ;;
    Ok (insights ++
        [{| category := "Biometric Coverage";
            severity := "CRITICAL";
            finding := str (List.length low_coverage)
                       ++ " states have <30% biometric coverage";
            details := details;
            recommendation :=
              "Increase biometric enrollment facilities and mobile camps" |}])%list
  else Ok insights.

(** [t.nlargest(n, column)], as the labels of the selected rows: the highest
    values first, equal values in the order of the table, rows without a value
    after all others. *)
Definition nlargest (n : nat) (values : list float64) : list nat :=
  let labelled := enumerate_from 0 values in
  let present := filter (fun ix => negb (isnan (snd ix))) labelled in
  let missing := filter (fun ix => isnan (snd ix)) labelled in
  map fst (firstn n (sort_descending snd present ++ missing)%list).

Definition generate_migration_insights (migration_df : Table)
  : result (list Insight) :=
  let insights : list Insight := [] in
  (* High migration risk regions *)
  risk <- table_floats migration_df "Migration_Risk" ;;
  let high_risk := nlargest 10 risk in
  if (0 <? List.length high_risk)%nat then
    details <- records migration_df ["State"; "District"; "Migration_Risk"]
                       high_risk ;;
    Ok (insights ++
        [{| category := "Migration Patterns";
            severity := "HIGH";
            finding := str (List.length high_risk)
                       ++ " districts show high migration risk";
            details := details;
            recommendation :=
              "Strengthen digital accessibility and address update mechanisms" |}])%list
  else Ok insights.

(** Biometric updates: none in Goa, five in Kerala. *)
Definition biometric_low : DataFrame :=
  {| columns := ["State"; "Update_Count"; "Age_Group"];
     rows := [[Str "Goa"; Num 0; Str "Adult (26-40)"];
              [Str "Kerala"; Num 5; Str "Child (0-5)"]] |}.

(** ** Age groups: [calculate_age_group_analysis]
    (data_pipeline.py, lines 215-237) *)

(** [df.groupby('Age_Group').agg({value: 'sum'}).reset_index()], for a
    column [value] other than the key. *)
Definition age_group_sum (df : DataFrame) (value : string) : result DataFrame :=
  Age_Group <- get_column df "Age_Group" ;;
  values <- get_column df value ;;
  let keys := map (fun g => [g]) Age_Group in
  sums <- mapM (fun k => v <- group_sum (group_values keys values k) ;;
                         Ok (k ++ [v])%list)
               (group_keys keys) ;;
  Ok {| columns := ["Age_Group"; value]; rows := sums |}.

(** One entry of the analysis: made when the table is loaded and has an
    Age_Group column. *)
Definition age_entry (analysis : list (string * DataFrame)) (name : string)
  (df : option DataFrame) (value : string)
  : result (list (string * DataFrame)) :=
  match df with
  | Some df =>
      if has_column df "Age_Group" then
        t <- age_group_sum df value ;;
        Ok (dict_set analysis name t)
      else Ok analysis
  | None => Ok analysis
  end.

Definition calculate_age_group_analysis (self : AadhaarDataPipeline)
  : result (list (string * DataFrame)) :=
  let analysis : list (string * DataFrame) := [] in
  (* Enrolment by age group *)
  analysis <- age_entry analysis "enrolment_age" (enrolment_df self)
                        "Aadhaar Generated" ;;
  (* Demographic updates by age group *)
  analysis <- age_entry analysis "demographic_age" (demographic_df self)
                        "Update_Count" ;;
  (* Biometric updates by age group *)
  analysis <- age_entry analysis "biometric_age" (biometric_df self)
                        "Update_Count" ;;
  Ok analysis.

(** The datasets that [calculate_age_group_analysis] reads, with the name of
    their entry and the column that is summed. *)
Definition age_sources (self : AadhaarDataPipeline)
  : list (string * option DataFrame * string) :=
  [("enrolment_age", enrolment_df self, "Aadhaar Generated");
   ("demographic_age", demographic_df self, "Update_Count");
   ("biometric_age", biometric_df self, "Update_Count")].

(** A pipeline with the biometric table only. *)
Definition biometric_only : AadhaarDataPipeline :=
  {| enrolment_df := None; demographic_df := None;
     biometric_df := Some biometric_sample |}.

(** ** Time series: [TimeSeriesForecaster.prepare_time_series]
    (ml_models.py, lines 182-191) *)




Section TimeSeries.

Variable strptime : string -> option Z.
Variable epoch : Q -> option Z.


End TimeSeries.


(** ** Validator: [DataValidator.check_outliers]
    (data_pipeline.py, lines 320-333) *)

(** [df[col].dtype in [np.int64, np.float64]]: the column holds numbers and
    missing values only. *)
Definition is_numeric_col (cells : list cell) : bool :=
  forallb (fun c => isnull c || is_num c) cells.

Section Outliers.

(** [scipy.stats.zscore], as in [identify_anomalies]. *)
Variable zscore : list float -> list float.

(** One turn of the loop over [numeric_cols]. *)
Definition check_outliers_step (df : DataFrame)
  (acc : result (list (string * nat))) (col : string)
  : result (list (string * nat)) :=
  outliers <- acc ;;
  if has_column df col then
    cells <- get_column df col ;;
    if is_numeric_col cells then
      values <- mapM Binary64.of_cell cells ;;
      let z_scores :=
        map PrimFloat.abs (zscore (Binary64.fillna0 values)) in
      let outlier_count :=
        List.length (filter (fun z => PrimFloat.ltb 3%float z) z_scores) in
      if (0 <? outlier_count)%nat then Ok (dict_set outliers col outlier_count)
      else Ok outliers
    else Ok outliers
  else Ok outliers.

Definition check_outliers (df : DataFrame) (numeric_cols : list string)
  : result (list (string * nat)) :=
  fold_left (check_outliers_step df) numeric_cols (Ok []).

(** The rows that [identify_anomalies] flags at the threshold 3 in a numeric
    column [col], counted. *)
Definition flagged (df : DataFrame) (col : string) (n : nat) : Prop :=
  exists cells anomalies,
    get_column df col = Ok cells /\ is_numeric_col cells = true /\
    identify_anomalies zscore df col 3%float = Ok anomalies /\
    List.length anomalies = n /\ (0 < n)%nat.

End Outliers.

(** The values 1 (twelve times) and 100. *)
Definition outlier_sample : DataFrame :=
  {| columns := ["District"; "Update_Count"];
     rows := map (fun q => [Str "D"; Num q])
                 [1; 1; 1; 1; 1; 1; 1; 1; 1; 1; 1; 1; 100] |}.



(** Biometric updates with a count typed as text. *)
Definition biometric_text : DataFrame :=
  {| columns := ["State"; "Update_Count"; "Age_Group"];
     rows := [[Str "Goa"; Str "seven"; Str "Adult (26-40)"];
              [Str "Kerala"; Num 5; Str "Child (0-5)"]] |}.

(* ================================================================== *)
(** * Part II: properties *)
(* ================================================================== *)


(** ** Facts on [float64] *)

Lemma Qltb_true (a b : Q) : Qltb a b = true <-> a < b.
Proof.
  unfold Qltb. rewrite negb_true_iff. split.
  - intros H. apply Qnot_le_lt. intros Hle.
    apply Qle_bool_iff in Hle. congruence.
  - intros H. destruct (Qle_bool b a) eqn:E; [|reflexivity].
    apply Qle_bool_iff in E. exfalso. apply (Qlt_not_le _ _ H E).
Qed.

Lemma Qltb_false (a b : Q) : Qltb a b = false <-> b <= a.
Proof.
  unfold Qltb. rewrite negb_false_iff. apply Qle_bool_iff.
Qed.

Lemma Qeq_bool_false (a b : Q) : Qeq_bool a b = false <-> ~ a == b.
Proof.
  split.
  - intros H E. apply Qeq_bool_iff in E. congruence.
  - intros H. destruct (Qeq_bool a b) eqn:E; [|reflexivity].
    apply Qeq_bool_iff in E. contradiction.
Qed.

(** Turns the boolean tests of the float operations into facts on [Q]. *)
Ltac qbool :=
  repeat match goal with
  | H : Qltb _ _ = true |- _ => apply Qltb_true in H
  | H : Qltb _ _ = false |- _ => apply Qltb_false in H
  | H : Qeq_bool _ _ = true |- _ => apply Qeq_bool_iff in H
  | H : Qeq_bool _ _ = false |- _ => apply Qeq_bool_false in H
  end.

Ltac qcase :=
  repeat match goal with
  | |- context [Qeq_bool ?a ?b] => destruct (Qeq_bool a b) eqn:?
  | |- context [Qltb ?a ?b] => destruct (Qltb a b) eqn:?
  end; qbool.

Ltac fl_cases :=
  simpl; intros; try congruence; try reflexivity; qbool;
  try (apply Qltb_false; lra); try (apply Qltb_true; lra).

Lemma fltb_trans_le (u x acc : float64) :
  isnan u = false -> isnan x = false -> isnan acc = false ->
  fltb x acc = true -> fltb u acc = false -> fltb u x = false.
Proof. destruct u, x, acc; fl_cases. Qed.

Lemma fltb_le_trans (u x acc : float64) :
  isnan u = false -> isnan x = false -> isnan acc = false ->
  fltb acc x = true -> fltb acc u = false -> fltb x u = false.
Proof. destruct u, x, acc; fl_cases. Qed.

Lemma fltb_asym (x y : float64) : fltb x y = true -> fltb y x = false.
Proof.
  destruct x, y; simpl; try congruence. intros H; qbool.
  apply Qltb_false. lra.
Qed.

Lemma fltb_irrefl (x : float64) : fltb x x = false.
Proof. destruct x; simpl; trivial. apply Qltb_false. lra. Qed.

Lemma fillna_nonnan (v : float64) (s : list float64) :
  isnan v = false -> Forall (fun x => isnan x = false) (fillna v s).
Proof.
  intros Hv. unfold fillna. apply Forall_map, Forall_forall.
  intros x _. destruct (isnan x) eqn:E; assumption.
Qed.

Lemma fillna_id (v : float64) (s : list float64) :
  Forall (fun x => isnan x = false) s -> fillna v s = s.
Proof.
  induction 1 as [|x s Hx _ IH]; simpl; [reflexivity|].
  rewrite Hx. f_equal. exact IH.
Qed.

Lemma fillna_idem (v : float64) (s : list float64) :
  isnan v = false -> fillna v (fillna v s) = fillna v s.
Proof. intros Hv. apply fillna_id, fillna_nonnan, Hv. Qed.

Lemma series_min_nonnan (s : list float64) :
  Forall (fun x => isnan x = false) s -> s <> [] ->
  isnan (series_min s) = false.
Proof.
  induction 1 as [|x s Hx Hs IH]; [congruence|]. intros _. simpl. rewrite Hx.
  fold (series_min s).
  destruct (isnan (series_min s)) eqn:E; [assumption|].
  destruct (fltb x (series_min s)); assumption.
Qed.

Lemma series_max_nonnan (s : list float64) :
  Forall (fun x => isnan x = false) s -> s <> [] ->
  isnan (series_max s) = false.
Proof.
  induction 1 as [|x s Hx Hs IH]; [congruence|]. intros _. simpl. rewrite Hx.
  fold (series_max s).
  destruct (isnan (series_max s)) eqn:E; [assumption|].
  destruct (fltb (series_max s) x); assumption.
Qed.

(** On a column without NaN, [Series.min] is below and [Series.max] above
    every entry. *)
Lemma series_min_le (s : list float64) (u : float64) :
  Forall (fun x => isnan x = false) s -> In u s -> fle (series_min s) u.
Proof.
  unfold fle. induction 1 as [|x s Hx Hs IH]; simpl; [tauto|].
  intros Hin. rewrite Hx. fold (series_min s).
  destruct (isnan (series_min s)) eqn:Hacc.
  - destruct Hin as [<-|Hin]; [apply fltb_irrefl|].
    rewrite series_min_nonnan in Hacc; [discriminate|assumption|].
    intros ->. destruct Hin.
  - destruct (fltb x (series_min s)) eqn:E.
    + destruct Hin as [<-|Hin]; [apply fltb_irrefl|].
      eapply fltb_trans_le; eauto.
      eapply Forall_forall in Hs; eauto.
    + destruct Hin as [<-|Hin]; [assumption|]. apply IH, Hin.
Qed.

Lemma series_max_ge (s : list float64) (u : float64) :
  Forall (fun x => isnan x = false) s -> In u s -> fle u (series_max s).
Proof.
  unfold fle. induction 1 as [|x s Hx Hs IH]; simpl; [tauto|].
  intros Hin. rewrite Hx. fold (series_max s).
  destruct (isnan (series_max s)) eqn:Hacc.
  - destruct Hin as [<-|Hin]; [apply fltb_irrefl|].
    rewrite series_max_nonnan in Hacc; [discriminate|assumption|].
    intros ->. destruct Hin.
  - destruct (fltb (series_max s) x) eqn:E.
    + destruct Hin as [<-|Hin]; [apply fltb_irrefl|].
      eapply fltb_le_trans; eauto.
      eapply Forall_forall in Hs; eauto.
    + destruct Hin as [<-|Hin]; [assumption|]. apply IH, Hin.
Qed.

(** ** Migration risk *)

Lemma Qdiv_unit (n d : Q) :
  0 <= n -> n <= d -> 0 < d -> 0 <= n / d /\ n / d <= 1.
Proof.
  intros Hn Hnd Hd. split.
  - apply Qle_shift_div_l; [assumption|]. lra.
  - apply Qle_shift_div_r; [assumption|]. lra.
Qed.

(** One row of the normalisation, between the batch minimum and maximum. *)
Lemma risk_row_range (lo u hi : float64) :
  isnan lo = false -> isnan u = false -> isnan hi = false ->
  fle lo u -> fle u hi ->
  in_range 0 100
    (let r := ((u - lo) / (hi - lo + Finite eps) * Finite 100)%fl in
     if isnan r then Finite 50 else r).
Proof.
  unfold fle, eps.
  destruct lo as [lo| | |], u as [u| | |], hi as [hi| | |]; simpl;
    intros; try congruence; qbool; qcase; simpl; try lra.
  destruct (@Qdiv_unit (u + - lo) (hi + - lo + (1 # 1000000))) as [A B];
    try lra.
Qed.

Lemma risk_row_constant (lo hi : Q) (u : float64) :
  isnan u = false -> fle (Finite lo) u -> fle u (Finite hi) -> lo == hi ->
  feq (let r := ((u - Finite lo) / (Finite hi - Finite lo + Finite eps)
                 * Finite 100)%fl in
       if isnan r then Finite 50 else r) (Finite 0).
Proof.
  unfold fle, eps. destruct u as [u| | |]; simpl; intros; try congruence.
  qbool; qcase; simpl; try lra.
  assert (E : u + - lo == 0) by lra.
  rewrite E. unfold Qdiv. ring.
Qed.

Lemma migration_risk_rows (Update_Rate : list float64) :
  _calculate_migration_risk Update_Rate =
  let update_rate := fillna (Finite 0) Update_Rate in
  map (fun u =>
         let r := ((u - series_min update_rate)
                   / (series_max update_rate - series_min update_rate + Finite eps)
                   * Finite 100)%fl in
         if isnan r then Finite 50 else r) update_rate.
Proof.
  unfold _calculate_migration_risk, fillna. cbv zeta.
  rewrite map_map. reflexivity.
Qed.

Lemma risk_row_infinite (lo hi u : float64) :
  isnan u = false -> fle lo u -> fle u hi -> feq hi lo ->
  match lo with Finite _ => False | _ => True end ->
  feq (let r := ((u - lo) / (hi - lo + Finite eps) * Finite 100)%fl in
       if isnan r then Finite 50 else r) (Finite 50).
Proof.
  unfold fle.
  destruct lo as [lo| | |], hi as [hi| | |], u as [u| | |]; simpl;
    intros; try congruence; try tauto; reflexivity.
Qed.

(** C1, as the code has it.  Every Migration_Risk lies in [0,100], for every
    batch (null, infinite and equal rates included).  The risk of a row is
    its quotient (rate - min) / (max - min + 1e-6) * 100 over the null-filled
    batch, and 50 exactly when that quotient is NaN.  When the null-filled
    batch has max == min, every row receives exactly 0 if the common rate is
    a number (the numerator is 0 over the guarded denominator 1e-6), and
    exactly 50 if it is an infinity (the quotient is then NaN). *)
Theorem migration_risk_range_and_constant_batch (Update_Rate : list float64) :
  Forall (in_range 0 100) (_calculate_migration_risk Update_Rate) /\
  (forall i u,
      nth_error (fillna (Finite 0) Update_Rate) i = Some u ->
      exists quotient,
        quotient
        = ((u - series_min (fillna (Finite 0) Update_Rate))
           / (series_max (fillna (Finite 0) Update_Rate)
              - series_min (fillna (Finite 0) Update_Rate) + Finite eps)
           * Finite 100)%fl /\
        nth_error (_calculate_migration_risk Update_Rate) i
        = Some (if isnan quotient then Finite 50 else quotient)) /\
  (feq (series_max (fillna (Finite 0) Update_Rate))
       (series_min (fillna (Finite 0) Update_Rate)) ->
   Forall (fun r => feq r (match series_min (fillna (Finite 0) Update_Rate) with
                           | Finite _ => Finite 0
                           | _ => Finite 50
                           end))
          (_calculate_migration_risk Update_Rate)).
Proof.
  rewrite migration_risk_rows. cbv zeta.
  set (ur := fillna (Finite 0) Update_Rate).
  assert (Hnn : Forall (fun x => isnan x = false) ur)
    by (apply fillna_nonnan; reflexivity).
  split; [|split].
  - apply Forall_map, Forall_forall. intros u Hu.
    assert (Hne : ur <> []) by (intros E; rewrite E in Hu; destruct Hu).
    apply risk_row_range.
    + apply series_min_nonnan; assumption.
    + eapply Forall_forall in Hnn; eauto.
    + apply series_max_nonnan; assumption.
    + apply series_min_le; assumption.
    + apply series_max_ge; assumption.
  - intros i u Hu. eexists. split; [reflexivity|].
    rewrite nth_error_map, Hu. reflexivity.
  - intros E. apply Forall_map, Forall_forall. intros u Hu.
    assert (Hu' : isnan u = false) by (eapply Forall_forall in Hnn; eauto).
    pose proof (@series_min_le ur u Hnn Hu) as Hlo.
    pose proof (@series_max_ge ur u Hnn Hu) as Hhi.
    destruct (series_min ur) as [lo| | |] eqn:Elo.
    + destruct (series_max ur) as [hi| | |] eqn:Ehi; try contradiction.
      apply risk_row_constant; trivial. simpl in E. lra.
    + apply risk_row_infinite; simpl; trivial.
    + apply risk_row_infinite; simpl; trivial.
    + destruct (series_max ur); contradiction.
Qed.

Lemma migration_risk_witness :
  Forall (in_range 0 100) (_calculate_migration_risk [Finite 5; NaN; Finite 12]) /\
  Forall (fun r => feq r (Finite 0)) (_calculate_migration_risk [Finite 5; Finite 5]) /\
  Forall (fun r => feq r (Finite 50)) (_calculate_migration_risk [PosInf; PosInf]).
Proof.
  split; [|split].
  - exact (proj1 (migration_risk_range_and_constant_batch [Finite 5; NaN; Finite 12])).
  - apply (proj2 (proj2 (migration_risk_range_and_constant_batch [Finite 5; Finite 5]))).
    simpl. reflexivity.
  - apply (proj2 (proj2 (migration_risk_range_and_constant_batch [PosInf; PosInf]))).
    simpl. exact I.
Defined.

(** C1, counterexample to the stated value: the batch [5, 5] has max == min
    and its rows receive 0, not 50. *)
Lemma migration_risk_constant_batch_not_50 :
  series_max (fillna (Finite 0) [Finite 5; Finite 5])
  = series_min (fillna (Finite 0) [Finite 5; Finite 5]) /\
  Forall (fun r => feq r (Finite 0) /\ ~ feq r (Finite 50))
         (_calculate_migration_risk [Finite 5; Finite 5]).
Proof.
  split; [reflexivity|].
  repeat constructor; simpl; try reflexivity; intros H; discriminate H.
Qed.


(** ** Cleaner: forward and backward fill *)

Lemma isnull_true (c : cell) : isnull c = true -> c = Null.
Proof. destruct c; simpl; congruence. Qed.

Lemma fill_row_length (p r : row) : List.length (fill_row p r) = List.length r.
Proof.
  revert p. induction r as [|c r IH]; intros [|x p]; simpl; auto.
Qed.

Lemma nle_refl (a : row) : nle a a.
Proof. induction a; constructor; auto. Qed.

Lemma nle_trans (a b c : row) : nle a b -> nle b c -> nle a c.
Proof.
  intros H. revert c. induction H as [|x y a b Hxy _ IH]; intros c Hc;
    inversion Hc as [|? z ? c' Hyz Hbc]; subst; constructor.
  - intros Hz. apply Hxy, Hyz, Hz.
  - apply IH, Hbc.
Qed.

Lemma nle_fill_l (p r : row) :
  List.length r = List.length p -> nle p (fill_row p r).
Proof.
  revert p. induction r as [|c r IH]; intros [|x p]; simpl; try discriminate.
  - constructor.
  - intros H. constructor; [|apply IH; congruence].
    destruct (isnull c) eqn:E; [trivial|congruence].
Qed.

Lemma nle_fill_r (p r : row) :
  List.length r = List.length p -> nle r (fill_row p r).
Proof.
  revert p. induction r as [|c r IH]; intros [|x p]; simpl; try discriminate.
  - constructor.
  - intros H. constructor; [|apply IH; congruence].
    destruct (isnull c) eqn:E; [trivial|congruence].
Qed.

Lemma last_cons_default (A : Type) (a d : A) (l : list A) :
  last (a :: l) d = last l a.
Proof.
  revert a d. induction l as [|b l IH]; intros; [reflexivity|].
  change (last (a :: b :: l) d) with (last (b :: l) d).
  rewrite (IH b d), (IH b a). reflexivity.
Qed.

(** After a forward fill, the last row has a value wherever some row has. *)
Lemma ffill_from_below_last (p : row) (rs : list row) :
  Forall (fun r => List.length r = List.length p) rs ->
  Forall (fun x => nle x (last (ffill_from p rs) p)) (p :: ffill_from p rs).
Proof.
  revert p. induction rs as [|r rs IH]; intros p Hlen; simpl.
  - repeat constructor. apply nle_refl.
  - inversion Hlen as [|? ? Hr Hrs]; subst.
    set (r' := fill_row p r).
    assert (IH' : Forall (fun x => nle x (last (ffill_from r' rs) r'))
                         (r' :: ffill_from r' rs)).
    { apply IH. unfold r'. rewrite fill_row_length.
      eapply Forall_impl; [|exact Hrs]. simpl. intros; congruence. }
    assert (E : match ffill_from r' rs with
                | [] => r'
                | _ :: _ => last (ffill_from r' rs) p
                end = last (ffill_from r' rs) r').
    { destruct (ffill_from r' rs) as [|a l]; [reflexivity|].
      rewrite !last_cons_default. reflexivity. }
    rewrite E. constructor; [|exact IH'].
    inversion IH'; subst. eapply nle_trans; [|eassumption].
    apply nle_fill_l. assumption.
Qed.

Lemma nle_nulls_eq (r p q : row) :
  nle r p -> map isnull p = map isnull q -> nle r q.
Proof.
  intros H. revert q. induction H as [|x y a b Hxy _ IH]; intros [|z q] E;
    simpl in E; try discriminate; constructor.
  - injection E as E1 _. rewrite <- E1. exact Hxy.
  - injection E as _ E2. apply IH, E2.
Qed.

Lemma fill_row_dominated (p r : row) :
  nle r p -> map isnull (fill_row p r) = map isnull p.
Proof.
  induction 1 as [|c x r p Hcx _ IH]; simpl; [reflexivity|].
  f_equal; [|exact IH].
  destruct (isnull c) eqn:E; [reflexivity|]. rewrite E.
  destruct (isnull x) eqn:E'; [|reflexivity].
  specialize (Hcx eq_refl). congruence.
Qed.

(** Filling from a row that dominates all others gives every row the null
    pattern of that row. *)
Lemma ffill_from_dominated (p : row) (l : list row) :
  Forall (fun r => nle r p) l ->
  Forall (fun r' => map isnull r' = map isnull p) (ffill_from p l).
Proof.
  revert p. induction l as [|r l IH]; intros p H; simpl; [constructor|].
  inversion H as [|? ? Hr Hl]; subst.
  pose proof (@fill_row_dominated p r Hr) as E.
  constructor; [exact E|].
  eapply Forall_impl; [|apply IH].
  - simpl. intros a Ha. congruence.
  - eapply Forall_impl; [|exact Hl]. simpl. intros a Ha.
    eapply nle_nulls_eq; [exact Ha|]. symmetry. exact E.
Qed.

Lemma fill_row_same_nulls (p r : row) :
  map isnull r = map isnull p -> fill_row p r = r.
Proof.
  revert p. induction r as [|c r IH]; intros [|x p]; simpl; try reflexivity;
    try discriminate.
  intros E. injection E as E1 E2. rewrite (IH _ E2).
  destruct (isnull c) eqn:Ec; [|reflexivity].
  rewrite (@isnull_true c Ec). rewrite (@isnull_true x); congruence.
Qed.

Lemma ffill_from_same_nulls (p : row) (rs : list row) :
  Forall (fun r => map isnull r = map isnull p) rs -> ffill_from p rs = rs.
Proof.
  revert p. induction rs as [|r rs IH]; intros p H; simpl; [reflexivity|].
  inversion H as [|? ? Hr Hrs]; subst.
  rewrite (@fill_row_same_nulls p r Hr). f_equal. apply IH.
  eapply Forall_impl; [|exact Hrs]. simpl. intros; congruence.
Qed.

Lemma ffill_uniform (rs : list row) : uniform rs -> ffill rs = rs.
Proof.
  intros [pat H]. destruct rs as [|r rs]; simpl; [reflexivity|].
  inversion H as [|? ? Hr Hrs]; subst. f_equal.
  apply ffill_from_same_nulls. exact Hrs.
Qed.

Lemma uniform_rev (rs : list row) : uniform rs -> uniform (rev rs).
Proof. intros [pat H]. exists pat. apply Forall_rev, H. Qed.

Lemma bfill_uniform (rs : list row) : uniform rs -> bfill rs = rs.
Proof.
  intros H. unfold bfill. rewrite ffill_uniform by (apply uniform_rev, H).
  apply rev_involutive.
Qed.

Lemma ffill_from_length (n : nat) (p : row) (rs : list row) :
  Forall (fun r => List.length r = n) rs ->
  Forall (fun r => List.length r = n) (ffill_from p rs).
Proof.
  revert p. induction rs as [|x rs IH]; intros p Hrs; simpl; [constructor|].
  inversion Hrs; subst. constructor.
  - apply fill_row_length.
  - apply IH. assumption.
Qed.

Lemma ffill_length (n : nat) (rs : list row) :
  Forall (fun r => List.length r = n) rs ->
  Forall (fun r => List.length r = n) (ffill rs).
Proof.
  intros H. destruct rs as [|r rs]; simpl; [constructor|].
  inversion H as [|? ? Hr Hrs]; subst. constructor; [reflexivity|].
  apply ffill_from_length. exact Hrs.
Qed.

(** Forward then backward fill leaves each column full or wholly empty. *)
Lemma bfill_ffill_uniform (n : nat) (rs : list row) :
  Forall (fun r => List.length r = n) rs -> uniform (bfill (ffill rs)).
Proof.
  intros Hlen. unfold bfill. apply uniform_rev.
  assert (Hdom : forall d, Forall (fun x => nle x (last (ffill rs) d)) (ffill rs)).
  { intros d. destruct rs as [|r rs]; simpl; [constructor|].
    inversion Hlen as [|? ? Hr Hrs]; subst.
    pose proof (@ffill_from_below_last r rs Hrs) as H.
    change (match ffill_from r rs with
            | [] => r
            | _ :: _ => last (ffill_from r rs) d
            end) with (last (r :: ffill_from r rs) d).
    rewrite last_cons_default. exact H. }
  destruct (rev (ffill rs)) as [|x l] eqn:E.
  - exists []. constructor.
  - assert (EA : ffill rs = (rev l ++ [x])%list).
    { rewrite <- (rev_involutive (ffill rs)), E. reflexivity. }
    specialize (Hdom x). rewrite EA, last_last in Hdom.
    exists (map isnull x). simpl. constructor; [reflexivity|].
    apply ffill_from_dominated.
    apply Forall_app in Hdom. destruct Hdom as [Hl _].
    apply Forall_rev in Hl. rewrite rev_involutive in Hl. exact Hl.
Qed.

(** Filling copies cells within their column, so a property of the cells of
    each column survives it. *)
Section FillPreserves.

Variable P : string -> cell -> Prop.
Variable cols : list string.

Lemma fill_row_satisfies (p r : row) :
  Forall2 P cols p -> Forall2 P cols r -> Forall2 P cols (fill_row p r).
Proof.
  intros Hp. revert r. induction Hp as [|c x cols' p Hx _ IH]; intros r Hr;
    inversion Hr as [|? y ? r' Hy Hr']; subst; simpl; constructor.
  - destruct (isnull y); assumption.
  - apply IH, Hr'.
Qed.

Lemma ffill_from_satisfies (p : row) (rs : list row) :
  Forall2 P cols p -> Forall (Forall2 P cols) rs ->
  Forall (Forall2 P cols) (ffill_from p rs).
Proof.
  revert p. induction rs as [|r rs IH]; intros p Hp Hrs; simpl; [constructor|].
  inversion Hrs; subst.
  assert (Forall2 P cols (fill_row p r)) by (apply fill_row_satisfies; assumption).
  constructor; [assumption|]. apply IH; assumption.
Qed.

Lemma ffill_satisfies (rs : list row) :
  Forall (Forall2 P cols) rs -> Forall (Forall2 P cols) (ffill rs).
Proof.
  intros H. destruct rs as [|r rs]; simpl; [constructor|].
  inversion H; subst. constructor; [assumption|].
  apply ffill_from_satisfies; assumption.
Qed.

Lemma bfill_satisfies (rs : list row) :
  Forall (Forall2 P cols) rs -> Forall (Forall2 P cols) (bfill rs).
Proof.
  intros H. unfold bfill. apply Forall_rev, ffill_satisfies, Forall_rev, H.
Qed.

End FillPreserves.

(** ** Cleaner: duplicate removal *)

Lemma cell_eqb_refl (a : cell) : cell_eqb a a = true.
Proof.
  destruct a; simpl; trivial.
  - apply Qeq_bool_iff. reflexivity.
  - apply String.eqb_refl.
  - apply Z.eqb_refl.
Qed.

Lemma cell_eqb_sym (a b : cell) : cell_eqb a b = cell_eqb b a.
Proof.
  destruct a, b; simpl; trivial.
  - destruct (Qeq_bool q q0) eqn:E, (Qeq_bool q0 q) eqn:E'; trivial; qbool.
    + exfalso. apply E'. symmetry. exact E.
    + exfalso. apply E. symmetry. exact E'.
  - apply String.eqb_sym.
  - apply Z.eqb_sym.
Qed.

Lemma cell_eqb_trans (a b c : cell) :
  cell_eqb a b = true -> cell_eqb b c = true -> cell_eqb a c = true.
Proof.
  destruct a, b, c; simpl; try congruence.
  - intros H1 H2. qbool. apply Qeq_bool_iff. rewrite H1. exact H2.
  - intros H1 H2. apply String.eqb_eq in H1, H2. apply String.eqb_eq. congruence.
  - intros H1 H2. apply Z.eqb_eq in H1, H2. apply Z.eqb_eq. congruence.
Qed.

Lemma row_eqb_refl (a : row) : row_eqb a a = true.
Proof. induction a; simpl; [reflexivity|]. rewrite cell_eqb_refl. assumption. Qed.

Lemma row_eqb_sym (a b : row) : row_eqb a b = row_eqb b a.
Proof.
  revert b. induction a as [|x a IH]; intros [|y b]; simpl; trivial.
  rewrite cell_eqb_sym, IH. reflexivity.
Qed.

Lemma row_eqb_trans (a b c : row) :
  row_eqb a b = true -> row_eqb b c = true -> row_eqb a c = true.
Proof.
  revert b c. induction a as [|x a IH]; intros [|y b] [|z c]; simpl;
    try congruence.
  rewrite !andb_true_iff. intros [H1 H2] [H3 H4]. split.
  - eapply cell_eqb_trans; eassumption.
  - eapply IH; eassumption.
Qed.

(** Equal rows are not told apart by a comparison with a third row. *)
Lemma row_eqb_compat (r a b : row) :
  row_eqb a b = true -> row_eqb r a = row_eqb r b.
Proof.
  intros H. destruct (row_eqb r a) eqn:E1, (row_eqb r b) eqn:E2; trivial.
  - rewrite (row_eqb_trans _ _ _ E1 H) in E2. discriminate.
  - rewrite row_eqb_sym in H. rewrite (row_eqb_trans _ _ _ E2 H) in E1.
    discriminate.
Qed.

Lemma filter_comm (A : Type) (f g : A -> bool) (l : list A) :
  filter f (filter g l) = filter g (filter f l).
Proof.
  induction l as [|a l IH]; simpl; [reflexivity|].
  destruct (f a) eqn:Ef, (g a) eqn:Eg; simpl; rewrite ?Ef, ?Eg, IH; reflexivity.
Qed.

Lemma filter_idem (A : Type) (f : A -> bool) (l : list A) :
  filter f (filter f l) = filter f l.
Proof.
  induction l as [|a l IH]; simpl; [reflexivity|].
  destruct (f a) eqn:Ef; simpl; rewrite ?Ef, IH; reflexivity.
Qed.

Lemma filter_all (A : Type) (g : A -> bool) (l : list A) :
  (forall a, In a l -> g a = true) -> filter g l = l.
Proof.
  induction l as [|a l IH]; simpl; intros H; [reflexivity|].
  rewrite (H a (or_introl eq_refl)). f_equal. apply IH. auto.
Qed.

Lemma drop_duplicates_incl (rs : list row) (r : row) :
  In r (drop_duplicates rs) -> In r rs.
Proof.
  induction rs as [|x rs IH]; simpl; [tauto|].
  intros [H|H]; [left; exact H|]. right. apply IH.
  apply filter_In in H. tauto.
Qed.

Lemma drop_duplicates_Forall (Q : row -> Prop) (rs : list row) :
  Forall Q rs -> Forall Q (drop_duplicates rs).
Proof.
  intros H. apply Forall_forall. intros r Hr.
  eapply Forall_forall in H; [exact H|]. apply drop_duplicates_incl, Hr.
Qed.

Lemma drop_duplicates_filter (f : row -> bool) (rs : list row) :
  (forall a b, row_eqb a b = true -> f a = f b) ->
  drop_duplicates (filter f rs) = filter f (drop_duplicates rs).
Proof.
  intros Hf. induction rs as [|r rs IH]; simpl; [reflexivity|].
  destruct (f r) eqn:Er; simpl.
  - rewrite IH. f_equal. apply filter_comm.
  - rewrite IH. rewrite filter_comm. symmetry. apply filter_all.
    intros a Ha. apply filter_In in Ha. destruct Ha as [_ Ha].
    destruct (row_eqb r a) eqn:E; [|reflexivity].
    rewrite (Hf _ _ E) in Er. congruence.
Qed.

(** Removing duplicates twice removes nothing more. *)
Lemma drop_duplicates_idem (rs : list row) :
  drop_duplicates (drop_duplicates rs) = drop_duplicates rs.
Proof.
  induction rs as [|r rs IH]; simpl; [reflexivity|]. f_equal.
  rewrite drop_duplicates_filter.
  - rewrite IH. apply filter_idem.
  - intros a b H. f_equal. apply row_eqb_compat, H.
Qed.

(** ** Cleaner: conversions *)

Lemma apply_where_idem (mask : list bool) (f : cell -> cell) (r : row) :
  (forall c, f (f c) = f c) ->
  apply_where mask f (apply_where mask f r) = apply_where mask f r.
Proof.
  intros Hf. revert mask. induction r as [|c r IH]; intros [|b mask]; simpl;
    try reflexivity.
  rewrite IH. destruct b; [rewrite Hf|]; reflexivity.
Qed.

Lemma apply_where_off (mask : list bool) (f : cell -> cell) (r : row) :
  Forall (fun b => b = false) mask -> apply_where mask f r = r.
Proof.
  intros H. revert r. induction H as [|b mask Hb _ IH]; intros [|c r]; simpl;
    try reflexivity.
  rewrite Hb, IH. reflexivity.
Qed.

Lemma map_fixed (A : Type) (g : A -> A) (l : list A) :
  Forall (fun a => g a = a) l -> map g l = l.
Proof. induction 1; simpl; congruence. Qed.

Section Conversions.

Variable strptime : string -> option Z.
Variable epoch : Q -> option Z.
Variable parse_number : string -> option Q.

Lemma to_datetime_idem (c : cell) :
  to_datetime strptime epoch (to_datetime strptime epoch c)
  = to_datetime strptime epoch c.
Proof.
  destruct c as [|q|s|t]; simpl; trivial.
  - destruct (epoch q); reflexivity.
  - destruct (strptime s); reflexivity.
Qed.

Lemma to_datetime_not_text (c : cell) :
  is_str (to_datetime strptime epoch c) = false.
Proof.
  destruct c as [|q|s|t]; simpl; trivial.
  - destruct (epoch q); reflexivity.
  - destruct (strptime s); reflexivity.
Qed.

(** Where every date parses, the conversion keeps the null pattern of a row. *)
Lemma convert_dates_row_nulls (cols : list string) (r : row) :
  Forall2 (fun col c => is_date_col col = true -> isnull c = false ->
                        isnull (to_datetime strptime epoch c) = false) cols r ->
  map isnull (apply_where (map is_date_col cols) (to_datetime strptime epoch) r)
  = map isnull r.
Proof.
  induction 1 as [|col c cols r H _ IH]; simpl; [reflexivity|].
  f_equal; [|exact IH].
  destruct (is_date_col col) eqn:E; [|reflexivity].
  destruct (isnull c) eqn:Ec.
  - rewrite (@isnull_true c Ec). reflexivity.
  - apply H; trivial.
Qed.

(** After the date conversion no text is left, if there was none outside the
    date columns. *)
Lemma convert_dates_row_no_text (cols : list string) (r : row) :
  Forall2 (fun col c => is_date_col col = false -> is_str c = false) cols r ->
  Forall (fun c => is_str c = false)
         (apply_where (map is_date_col cols) (to_datetime strptime epoch) r).
Proof.
  induction 1 as [|col c cols r H _ IH]; simpl; constructor; [|exact IH].
  destruct (is_date_col col) eqn:E; [apply to_datetime_not_text|auto].
Qed.

Lemma no_text_no_object_col (rs : list row) (i : nat) :
  Forall (Forall (fun c => is_str c = false)) rs ->
  is_object_col (column_at i rs) = false.
Proof.
  intros H. unfold is_object_col, column_at.
  induction H as [|r rs Hr _ IH]; simpl; [reflexivity|].
  rewrite IH, orb_false_r.
  destruct (nth_in_or_default i r Null) as [Hin|E].
  - eapply Forall_forall in Hr; eauto.
  - rewrite E. reflexivity.
Qed.

Lemma convert_numeric_no_text (df : DataFrame) :
  Forall (Forall (fun c => is_str c = false)) (rows df) ->
  convert_numeric parse_number df = df.
Proof.
  intros H. unfold convert_numeric. destruct df as [cols rs]; simpl in *.
  f_equal. apply map_fixed. apply Forall_forall. intros r _.
  apply apply_where_off. apply Forall_map, Forall_forall. intros i _.
  apply no_text_no_object_col, H.
Qed.

Lemma cleaned_rows (df : DataFrame) :
  dates_parse strptime epoch df ->
  uniform (rows (cleaned strptime epoch df)) /\
  Forall (fun r => apply_where (map is_date_col (columns df))
                               (to_datetime strptime epoch) r = r)
         (rows (cleaned strptime epoch df)).
Proof.
  intros Hd. unfold cleaned, remove_duplicates, convert_dates, fill_missing.
  simpl. unfold dates_parse, rows_satisfy in Hd.
  set (X := bfill (ffill (rows df))).
  assert (HX : Forall (Forall2 (fun col c =>
              is_date_col col = true -> isnull c = false ->
              isnull (to_datetime strptime epoch c) = false) (columns df)) X).
  { apply bfill_satisfies, ffill_satisfies, Hd. }
  assert (HU : uniform X).
  { apply bfill_ffill_uniform with (n := List.length (columns df)).
    eapply Forall_impl; [|exact Hd]. simpl. intros r Hr.
    symmetry. eapply Forall2_length, Hr. }
  split.
  - destruct HU as [pat HU]. exists pat. apply drop_duplicates_Forall.
    apply Forall_map. apply Forall_forall. intros r Hr.
    rewrite convert_dates_row_nulls.
    + eapply Forall_forall in HU; eauto.
    + eapply Forall_forall in HX; eauto.
  - apply drop_duplicates_Forall, Forall_map, Forall_forall. intros r _.
    apply apply_where_idem, to_datetime_idem.
Qed.

Lemma steps_fixed (df : DataFrame) :
  uniform (rows df) ->
  Forall (fun r => apply_where (map is_date_col (columns df))
                               (to_datetime strptime epoch) r = r) (rows df) ->
  drop_duplicates (rows df) = rows df ->
  cleaned strptime epoch df = df.
Proof.
  destruct df as [cols rs]. unfold cleaned, remove_duplicates, convert_dates,
    fill_missing. simpl. intros HU Hfix Hdd.
  rewrite (ffill_uniform HU), (bfill_uniform HU), (map_fixed _ Hfix), Hdd.
  reflexivity.
Qed.

(** Cleaning a table whose dates all parse gives a fixed point of the
    three steps. *)
Lemma cleaned_fixed (df : DataFrame) :
  dates_parse strptime epoch df ->
  cleaned strptime epoch (cleaned strptime epoch df) = cleaned strptime epoch df.
Proof.
  intros Hd. destruct (cleaned_rows Hd) as [HU Hfix].
  apply steps_fixed; trivial.
  unfold cleaned, remove_duplicates. simpl. apply drop_duplicates_idem.
Qed.

Lemma cleaned_no_text (df : DataFrame) :
  text_only_in_dates df ->
  Forall (Forall (fun c => is_str c = false)) (rows (cleaned strptime epoch df)).
Proof.
  intros Ht. unfold cleaned, remove_duplicates, convert_dates, fill_missing.
  simpl. apply drop_duplicates_Forall, Forall_map, Forall_forall. intros r Hr.
  apply convert_dates_row_no_text.
  assert (HX : Forall (Forall2 (fun col c =>
              is_date_col col = false -> is_str c = false) (columns df))
              (bfill (ffill (rows df)))).
  { apply bfill_satisfies, ffill_satisfies, Ht. }
  eapply Forall_forall in HX; eauto.
Qed.

End Conversions.

(** ** Cleaner: statements *)

(** The test on column names is a substring test: a name with "update" in
    it holds "date" and is converted like a date column. *)
Example update_count_is_a_date_column :
  is_date_col "Update_Count" = true /\ is_date_col "State" = false.
Proof. split; reflexivity. Qed.

(** C4, as the code has it.  Cleaning is a fixed point on every table whose
    date and month columns hold no value that fails to parse: a second run of
    [clean_demographic_data] or of [clean_biometric_data] returns the table of
    the first run and leaves the pipeline as the first run left it.  The same
    holds for [clean_enrolment_data] on tables that keep text to their date
    columns. *)
Theorem cleaner_idempotent_when_dates_parse
  (strptime : string -> option Z) (epoch : Q -> option Z)
  (parse_number : string -> option Q)
  (self : AadhaarDataPipeline) (df : DataFrame) :
  dates_parse strptime epoch df ->
  (demographic_df self = Some df ->
   exists out self',
     clean_demographic_data strptime epoch self = Ok (out, self') /\
     clean_demographic_data strptime epoch self' = Ok (out, self')) /\
  (biometric_df self = Some df ->
   exists out self',
     clean_biometric_data strptime epoch self = Ok (out, self') /\
     clean_biometric_data strptime epoch self' = Ok (out, self')) /\
  (enrolment_df self = Some df -> text_only_in_dates df ->
   exists out self',
     clean_enrolment_data strptime epoch parse_number self = Ok (out, self') /\
     clean_enrolment_data strptime epoch parse_number self' = Ok (out, self')).
Proof.
  intros Hd.
  pose proof (cleaned_fixed Hd) as Hfix. unfold cleaned in Hfix.
  split; [|split].
  - intros E. unfold clean_demographic_data. rewrite E.
    eexists. eexists. split; [reflexivity|].
    simpl. rewrite Hfix. reflexivity.
  - intros E. unfold clean_biometric_data. rewrite E.
    eexists. eexists. split; [reflexivity|].
    simpl. rewrite Hfix. reflexivity.
  - intros E Ht. unfold clean_enrolment_data. rewrite E.
    pose proof (@cleaned_no_text strptime epoch df Ht) as Hn.
    unfold cleaned in Hn.
    eexists. eexists. split; [reflexivity|].
    cbv zeta. rewrite (convert_numeric_no_text parse_number _ Hn).
    simpl. rewrite Hfix.
    rewrite (convert_numeric_no_text parse_number _ Hn). reflexivity.
Qed.

Lemma cleaner_idempotent_witness :
  dates_parse iso_date epoch_ns updates_sample /\
  text_only_in_dates updates_sample /\
  exists out self',
    clean_enrolment_data iso_date epoch_ns decimal_literal
      (pipeline_of updates_sample) = Ok (out, self') /\
    clean_enrolment_data iso_date epoch_ns decimal_literal self'
      = Ok (out, self').
Proof.
  assert (Hd : dates_parse iso_date epoch_ns updates_sample).
  { repeat constructor; simpl; intros; try discriminate; reflexivity. }
  assert (Ht : text_only_in_dates updates_sample).
  { repeat constructor; simpl; intros; try discriminate; reflexivity. }
  split; [exact Hd|]. split; [exact Ht|].
  exact (proj2 (proj2 (@cleaner_idempotent_when_dates_parse iso_date epoch_ns
                         decimal_literal (pipeline_of updates_sample)
                         updates_sample Hd)) eq_refl Ht).
Defined.

(** C4, counterexample to idempotence for every table: the unparsable date
    becomes a missing value in the first run, after the fill, and the second
    run fills it from the row above. *)
Lemma cleaner_not_idempotent_unparsable_date :
  exists out1 self1 out2 self2,
    clean_demographic_data iso_date epoch_ns (pipeline_of demographic_unparsable)
      = Ok (out1, self1) /\
    clean_demographic_data iso_date epoch_ns self1 = Ok (out2, self2) /\
    rows out1 = [[Str "Kerala"; Date 1705276800000000000]; [Str "Goa"; Null]] /\
    rows out2 = [[Str "Kerala"; Date 1705276800000000000];
                 [Str "Goa"; Date 1705276800000000000]] /\
    out1 <> out2.
Proof.
  do 4 eexists. split; [reflexivity|]. split; [reflexivity|].
  split; [vm_compute; reflexivity|]. split; [vm_compute; reflexivity|].
  vm_compute. intros H. discriminate H.
Qed.

(** C5, the code at a table with text: [pd.to_numeric(errors='coerce')] never
    raises, so the text column State is wiped and the single code "7A" of the
    column Ward becomes a missing value while "12" becomes a number. *)
Lemma clean_enrolment_coerces_text_to_null :
  let cleaned_table :=
    {| columns := ["State"; "Ward"; "Aadhaar Generated"];
       rows := [[Null; Num 12; Num 100]; [Null; Null; Num 250]] |} in
  clean_enrolment_data iso_date epoch_ns decimal_literal (pipeline_of enrolment_text)
  = Ok (cleaned_table, set_enrolment_df (pipeline_of enrolment_text) cleaned_table).
Proof. vm_compute. reflexivity. Qed.

(** The defect of the enrolment cleaner also breaks the fixed point: the
    missing value that the coercion leaves in Ward is filled by a second run. *)
Lemma clean_enrolment_second_run_fills_coerced_nulls :
  exists out1 self1 out2 self2,
    clean_enrolment_data iso_date epoch_ns decimal_literal
      (pipeline_of enrolment_text) = Ok (out1, self1) /\
    clean_enrolment_data iso_date epoch_ns decimal_literal self1
      = Ok (out2, self2) /\
    rows out1 = [[Null; Num 12; Num 100]; [Null; Null; Num 250]] /\
    rows out2 = [[Null; Num 12; Num 100]; [Null; Num 12; Num 250]].
Proof.
  do 4 eexists. split; [reflexivity|]. split; [reflexivity|].
  split; vm_compute; reflexivity.
Qed.


(** ** Exceptions *)

Lemma mapM_Ok (A B : Type) (f : A -> result B) (l : list A) (ys : list B) :
  mapM f l = Ok ys -> Forall2 (fun x y => f x = Ok y) l ys.
Proof.
  revert ys. induction l as [|a l IH]; simpl; intros ys H.
  - injection H as <-. constructor.
  - destruct (f a) as [b|e] eqn:Ea; simpl in H; [|discriminate].
    destruct (mapM f l) as [bs|e] eqn:El; simpl in H; [|discriminate].
    injection H as <-. constructor; [exact Ea|]. apply IH. reflexivity.
Qed.

Lemma mapM_total (A B : Type) (f : A -> result B) (g : A -> B) (l : list A) :
  Forall (fun x => f x = Ok (g x)) l -> mapM f l = Ok (map g l).
Proof.
  induction 1 as [|a l Ha _ IH]; simpl; [reflexivity|].
  rewrite Ha, IH. reflexivity.
Qed.

Lemma index_of_mem (name : string) (cols : list string) :
  existsb (String.eqb name) cols = true <-> exists i, index_of name cols = Some i.
Proof.
  induction cols as [|c cols IH]; simpl.
  - split; [discriminate|intros [i H]; discriminate].
  - destruct (String.eqb name c); simpl.
    + split; eauto.
    + rewrite IH. split; intros [i H].
      * rewrite H. simpl. eauto.
      * destruct (index_of name cols); [eauto|discriminate].
Qed.

Lemma get_column_Ok (df : DataFrame) (name : string) (cs : list cell) :
  get_column df name = Ok cs -> has_column df name = true.
Proof.
  unfold get_column, has_column. intros H. apply index_of_mem.
  destruct (index_of name (columns df)); [eauto|discriminate].
Qed.

Lemma has_column_get (df : DataFrame) (name : string) :
  has_column df name = true -> exists cs, get_column df name = Ok cs.
Proof.
  unfold get_column, has_column. intros H. apply index_of_mem in H.
  destruct H as [i ->]. eauto.
Qed.

Lemma get_column_KeyError (df : DataFrame) (name : string) :
  has_column df name = false -> get_column df name = Raise (KeyError name).
Proof.
  unfold get_column, has_column. intros H.
  destruct (index_of name (columns df)) as [i|] eqn:E; [|reflexivity].
  assert (existsb (String.eqb name) (columns df) = true)
    by (apply index_of_mem; eauto).
  congruence.
Qed.

(** ** Grouping *)

Lemma insert_sorted_count (f : row -> bool) (k : row) (ks : list row) :
  List.length (filter f (insert_sorted k ks)) = List.length (filter f (k :: ks)).
Proof.
  induction ks as [|k' ks IH]; [reflexivity|].
  simpl insert_sorted. destruct (row_leb k k'); [reflexivity|].
  simpl in *. destruct (f k'), (f k); simpl in *; lia.
Qed.

Lemma sort_rows_count (f : row -> bool) (ks : list row) :
  List.length (filter f (sort_rows ks)) = List.length (filter f ks).
Proof.
  induction ks as [|k ks IH]; [reflexivity|].
  simpl sort_rows. rewrite insert_sorted_count. simpl.
  destruct (f k); simpl; lia.
Qed.

Lemma insert_sorted_In (x k : row) (ks : list row) :
  In x (insert_sorted k ks) <-> x = k \/ In x ks.
Proof.
  induction ks as [|k' ks IH]; simpl.
  - intuition congruence.
  - destruct (row_leb k k'); simpl; [intuition congruence|].
    rewrite IH. intuition congruence.
Qed.

Lemma sort_rows_In (x : row) (ks : list row) : In x (sort_rows ks) <-> In x ks.
Proof.
  induction ks as [|k ks IH]; simpl; [tauto|].
  rewrite insert_sorted_In, IH. intuition congruence.
Qed.

Lemma filter_none (A : Type) (g : A -> bool) (l : list A) :
  (forall a, In a l -> g a = false) -> filter g l = [].
Proof.
  induction l as [|a l IH]; simpl; intros H; [reflexivity|].
  rewrite (H a (or_introl eq_refl)). apply IH. auto.
Qed.

(** After duplicate removal a key occurs once if it occurred, else never. *)
Lemma drop_duplicates_count (k : row) (rs : list row) :
  List.length (filter (row_eqb k) (drop_duplicates rs))
  = if existsb (row_eqb k) rs then 1%nat else 0%nat.
Proof.
  induction rs as [|r rs IH]; [reflexivity|].
  simpl. destruct (row_eqb k r) eqn:E; simpl.
  - rewrite filter_none; [reflexivity|].
    intros a Ha. apply filter_In in Ha. destruct Ha as [_ Ha].
    apply negb_true_iff in Ha.
    rewrite row_eqb_sym, (@row_eqb_compat a k r E), row_eqb_sym. exact Ha.
  - rewrite <- IH. rewrite filter_comm. f_equal. apply filter_all.
    intros a Ha. apply filter_In in Ha. destruct Ha as [_ Ha].
    apply negb_true_iff. destruct (row_eqb r a) eqn:E'; [|reflexivity].
    rewrite (@row_eqb_compat k r a E') in E. congruence.
Qed.

Lemma cell_eqb_isnull (a b : cell) : cell_eqb a b = true -> isnull a = isnull b.
Proof. destruct a, b; simpl; congruence. Qed.

Lemma row_eqb_has_null (a b : row) : row_eqb a b = true -> has_null a = has_null b.
Proof.
  revert b. induction a as [|x a IH]; intros [|y b]; simpl; try congruence.
  rewrite andb_true_iff. intros [H1 H2].
  rewrite (cell_eqb_isnull _ _ H1), (IH _ H2). reflexivity.
Qed.

Lemma existsb_filter_compat (k : row) (keys : list row) :
  has_null k = false ->
  existsb (row_eqb k) (filter (fun x => negb (has_null x)) keys)
  = existsb (row_eqb k) keys.
Proof.
  intros Hk. induction keys as [|x keys IH]; simpl; [reflexivity|].
  destruct (has_null x) eqn:Hx; simpl; rewrite IH; [|reflexivity].
  destruct (row_eqb k x) eqn:E; [|reflexivity].
  apply row_eqb_has_null in E. congruence.
Qed.

(** Each key that occurs without a missing cell gives exactly one group,
    and no other key gives any. *)
Lemma group_keys_count (k : row) (keys : list row) :
  has_null k = false ->
  List.length (filter (row_eqb k) (group_keys keys))
  = if existsb (row_eqb k) keys then 1%nat else 0%nat.
Proof.
  intros Hk. unfold group_keys.
  rewrite sort_rows_count, drop_duplicates_count.
  rewrite existsb_filter_compat by exact Hk. reflexivity.
Qed.

Lemma group_keys_In (x : row) (keys : list row) :
  In x (group_keys keys) -> In x keys /\ has_null x = false.
Proof.
  unfold group_keys. rewrite sort_rows_In. intros H.
  apply drop_duplicates_incl in H. apply filter_In in H.
  destruct H as [H1 H2]. apply negb_true_iff in H2. tauto.
Qed.

Lemma numeric_total_present (vs : list cell) :
  numeric_total (filter (fun c => negb (isnull c)) vs) = numeric_total vs.
Proof.
  induction vs as [|c vs IH]; simpl; [reflexivity|].
  destruct c; simpl; rewrite IH; reflexivity.
Qed.

Lemma group_sum_numeric (vs : list cell) :
  Forall (fun c => isnull c = true \/ is_num c = true) vs ->
  group_sum vs = Ok (Num (numeric_total vs)).
Proof.
  intros H. unfold group_sum.
  replace (forallb is_num (filter (fun c => negb (isnull c)) vs)) with true.
  - rewrite numeric_total_present. reflexivity.
  - symmetry. apply forallb_forall. intros c Hc. apply filter_In in Hc.
    destruct Hc as [Hin Hc]. eapply Forall_forall in H; [|exact Hin].
    destruct H as [H|H]; [|exact H]. rewrite H in Hc. discriminate.
Qed.

Lemma group_values_Forall (P : cell -> Prop) (keys : list row)
  (values : list cell) (k : row) :
  Forall P values -> Forall P (group_values keys values k).
Proof.
  intros H. unfold group_values. apply Forall_map, Forall_forall.
  intros [k' v] Hin. apply filter_In in Hin. destruct Hin as [Hin _].
  apply in_combine_r in Hin. eapply Forall_forall in H; eauto.
Qed.

Lemma filter_map_length (A B : Type) (p : B -> bool) (g : A -> B) (l : list A) :
  List.length (filter p (map g l)) = List.length (filter (fun a => p (g a)) l).
Proof.
  induction l as [|a l IH]; simpl; [reflexivity|].
  destruct (p (g a)); simpl; rewrite IH; reflexivity.
Qed.

Lemma exact_counts_numeric (vs : list cell) :
  forallb is_whole vs = true ->
  Forall (fun c => isnull c = true \/ is_num c = true) vs.
Proof.
  intros H. apply Forall_forall. intros c Hc.
  eapply forallb_forall in H; [|exact Hc].
  destruct c; simpl in *; auto; discriminate.
Qed.

(** ** Aggregator *)

(** C8, as the code has it.  Without a State or a District column the table
    is returned as it is and nothing is raised.  With both, distinct column
    names and a [value_col] other than the two keys whose numbers have exact
    sums, the result has the columns State, District, [value_col]; it has
    exactly one row for each (State, District) pair that occurs in the input
    without a missing cell and no row for a pair with a missing State or
    District, nor for any other pair; each row carries the sum of
    [value_col] over the input rows of its pair. *)
Theorem aggregate_passthrough_or_one_row_per_key
  (df : DataFrame) (value_col : string) :
  (has_column df "State" = false \/ has_column df "District" = false ->
   aggregate_by_state_district df value_col = Ok df) /\
  (forall State District values,
      NoDup (columns df) ->
      get_column df "State" = Ok State ->
      get_column df "District" = Ok District ->
      get_column df value_col = Ok values ->
      value_col <> "State" -> value_col <> "District" ->
      exact_counts values ->
      let keys := map (fun sd => [fst sd; snd sd]) (combine State District) in
      exists out,
        aggregate_by_state_district df value_col = Ok out /\
        columns out = ["State"; "District"; value_col] /\
        (forall s d,
           List.length (filter (fun r => row_eqb [s; d] (firstn 2 r)) (rows out))
           = if has_null [s; d] then 0%nat
             else if existsb (row_eqb [s; d]) keys then 1%nat else 0%nat) /\
        Forall (fun r => exists s d,
                    In [s; d] keys /\ isnull s = false /\ isnull d = false /\
                    r = [s; d; Num (numeric_total (group_values keys values [s; d]))])
               (rows out)).
Proof.
  split.
  - unfold aggregate_by_state_district.
    intros [H|H]; rewrite H; simpl; [reflexivity|].
    rewrite orb_true_r. reflexivity.
  - intros State District values _ HS HD HV Hv1 Hv2 [Hwhole _] keys.
    pose proof (exact_counts_numeric _ Hwhole) as Hnum.
    assert (E : aggregate_by_state_district df value_col
                = Ok {| columns := ["State"; "District"; value_col];
                        rows := map (fun k => (k ++ [Num (numeric_total
                                        (group_values keys values k))])%list)
                                    (group_keys keys) |}).
    { unfold aggregate_by_state_district.
      rewrite (get_column_Ok _ _ HS), (get_column_Ok _ _ HD). simpl.
      rewrite HS, HD, HV. simpl. fold keys.
      apply String.eqb_neq in Hv1, Hv2. rewrite Hv1, Hv2. simpl.
      rewrite (@mapM_total _ _ _
                 (fun k => (k ++ [Num (numeric_total (group_values keys values k))])%list)).
      - reflexivity.
      - apply Forall_forall. intros k _.
        rewrite group_sum_numeric; [reflexivity|].
        apply group_values_Forall, Hnum. }
    eexists. split; [exact E|]. cbn [columns rows].
    assert (Hshape : forall k, In k (group_keys keys) ->
              exists s d, k = [s; d] /\ In [s; d] keys /\
                          isnull s = false /\ isnull d = false).
    { intros k Hk. apply group_keys_In in Hk. destruct Hk as [Hin Hn].
      unfold keys in Hin. apply in_map_iff in Hin.
      destruct Hin as [[s d] [<- Hin]]. simpl in *.
      apply orb_false_iff in Hn. destruct Hn as [Hs Hn].
      apply orb_false_iff in Hn. destruct Hn as [Hd _].
      exists s, d. repeat split; trivial.
      apply in_map_iff. exists (s, d). auto. }
    split; [reflexivity|]. split.
    + intros s d. rewrite filter_map_length.
      destruct (has_null [s; d]) eqn:Hnull.
      * rewrite filter_none; [reflexivity|].
        intros k Hk. destruct (Hshape k Hk) as (a & b & -> & _ & Ha & Hb).
        cbn [app firstn].
        destruct (row_eqb [s; d] [a; b]) eqn:Eq; [|reflexivity].
        apply row_eqb_has_null in Eq. rewrite Hnull in Eq. simpl in Eq.
        rewrite Ha, Hb in Eq. discriminate.
      * rewrite <- (@group_keys_count [s; d] keys) by exact Hnull.
        apply (f_equal (@List.length row)). apply filter_ext_in. intros k Hk.
        destruct (Hshape k Hk) as (a & b & -> & _). reflexivity.
    + apply Forall_map, Forall_forall. intros k Hk.
      destruct (Hshape k Hk) as (a & b & -> & Hin & Ha & Hb).
      exists a, b. auto.
Qed.

Lemma aggregate_witness :
  aggregate_by_state_district pincode_sample "Aadhaar Generated"
  = Ok pincode_sample /\
  exists out,
    aggregate_by_state_district enrolment_sample "Aadhaar Generated" = Ok out /\
    columns out = ["State"; "District"; "Aadhaar Generated"] /\
    rows out = [[Str "Goa"; Str "North Goa"; Num 250];
                [Str "Kerala"; Str "Idukki"; Num 140]].
Proof.
  pose proof (@aggregate_passthrough_or_one_row_per_key
                pincode_sample "Aadhaar Generated") as [Hpass _].
  split; [apply Hpass; left; reflexivity|].
  pose proof (@aggregate_passthrough_or_one_row_per_key
                enrolment_sample "Aadhaar Generated") as [_ Hagg].
  assert (N0 : NoDup (columns enrolment_sample))
    by (repeat constructor; simpl; intuition discriminate).
  assert (N1 : "Aadhaar Generated" <> "State") by (intros H; discriminate H).
  assert (N2 : "Aadhaar Generated" <> "District") by (intros H; discriminate H).
  assert (Hnum : exact_counts [Num 100; Num 250; Num 40])
    by (split; [reflexivity|vm_compute; discriminate]).
  destruct (Hagg _ _ _ N0 eq_refl eq_refl eq_refl N1 N2 Hnum) as (out & E & Hc & _).
  exists out. split; [exact E|]. split; [exact Hc|].
  revert E. vm_compute. intros E. injection E as <-. reflexivity.
Defined.

(** C8, counterexample to one row for each distinct pair: the table has the
    two distinct pairs (Kerala, Idukki) and (missing, Idukki); the result has
    the single row of the first, and the 7 enrolments of the second are in
    no row. *)
Lemma aggregate_drops_pair_with_missing_state :
  drop_duplicates (map (fun r => firstn 2 r) (rows enrolment_unlocated))
  = [[Str "Kerala"; Str "Idukki"]; [Null; Str "Idukki"]] /\
  aggregate_by_state_district enrolment_unlocated "Aadhaar Generated"
  = Ok {| columns := ["State"; "District"; "Aadhaar Generated"];
          rows := [[Str "Kerala"; Str "Idukki"; Num 140]] |} /\
  forall out,
    aggregate_by_state_district enrolment_unlocated "Aadhaar Generated" = Ok out ->
    List.length (rows out) = 1%nat /\
    ~ exists r, In r (rows out) /\ firstn 2 r = [Null; Str "Idukki"].
Proof.
  split; [vm_compute; reflexivity|]. split; [vm_compute; reflexivity|].
  intros out H. vm_compute in H. injection H as <-.
  split; [reflexivity|].
  intros (r & [<-|[]] & Hr). discriminate Hr.
Qed.

(** ** Biometric coverage *)

Lemma Forall2_map_eq (A B : Type) (f : A -> B) (l : list A) (ys : list B) :
  Forall2 (fun x y => y = f x) l ys -> ys = map f l.
Proof. induction 1; simpl; congruence. Qed.

Lemma count_plus_eps_pos (n : nat) : 0 < inject_Z (Z.of_nat n) + eps.
Proof.
  assert (0 <= inject_Z (Z.of_nat n)).
  { change 0 with (inject_Z 0). rewrite <- Zle_Qle. lia. }
  unfold eps. lra.
Qed.

(** A number below the bound is kept by [overflow]. *)
Lemma overflow_small (q : Q) :
  Qabs q < overflow_bound -> overflow (Finite q) = Finite q.
Proof.
  intros H. unfold overflow.
  destruct (Qle_bool overflow_bound (Qabs q)) eqn:E; [|reflexivity].
  apply Qle_bool_iff in E. destruct (Qlt_not_le _ _ H E).
Qed.

Lemma magnitude_nonneg (vs : list cell) : 0 <= magnitude vs.
Proof.
  induction vs as [|c vs IH]; simpl; [lra|].
  destruct c; trivial. pose proof (Qabs_nonneg q). lra.
Qed.

Lemma magnitude_total (vs : list cell) : Qabs (numeric_total vs) <= magnitude vs.
Proof.
  induction vs as [|c vs IH]; [vm_compute; discriminate|].
  cbn [numeric_total magnitude fold_right].
  fold (numeric_total vs). fold (magnitude vs).
  destruct c; trivial.
  pose proof (Qabs_triangle q (numeric_total vs)). lra.
Qed.

(** The magnitudes of a group are among those of the column. *)
Lemma magnitude_group (keys : list row) (values : list cell) (k : row) :
  magnitude (group_values keys values k) <= magnitude values.
Proof.
  unfold group_values. revert values.
  induction keys as [|k' keys IH]; intros values.
  - apply magnitude_nonneg.
  - destruct values as [|v values]; [apply Qle_refl|].
    specialize (IH values). cbn [combine filter fst].
    pose proof (magnitude_nonneg values) as Hm.
    destruct (row_eqb k k'); cbn [map snd magnitude fold_right];
      fold (magnitude values);
      fold (magnitude (map snd (filter (fun kv : row * cell => row_eqb k (fst kv))
                                       (combine keys values)))).
    + destruct v; trivial. lra.
    + destruct v; trivial. pose proof (Qabs_nonneg q). lra.
Qed.

Lemma Qabs_bounds (x : Q) : - Qabs x <= x /\ x <= Qabs x.
Proof.
  split; [|apply Qle_Qabs].
  pose proof (Qle_Qabs (- x)) as H. rewrite Qabs_opp in H. lra.
Qed.

Lemma Qabs_bound (x b : Q) : - b <= x -> x <= b -> Qabs x <= b.
Proof. intros H1 H2. apply Qabs_Qle_condition. split; assumption. Qed.

(** Below the bound the binary64 sum is the exact sum, and the compensation
    stays 0. *)
Lemma float_sum_from (vs : list cell) (a c : Q) :
  forallb (fun c => isnull c || is_num c) vs = true ->
  c == 0 ->
  Qabs a + magnitude vs < overflow_bound ->
  exists q c',
    fold_left kahan_step vs (Finite a, Finite c) = (Finite q, Finite c') /\
    q == a + numeric_total vs.
Proof.
  revert a c. induction vs as [|v vs IH]; intros a c Hnum Hc Hb.
  - exists a, c. split; [reflexivity|]. simpl. lra.
  - simpl in Hnum. apply andb_true_iff in Hnum. destruct Hnum as [Hv Hnum].
    pose proof (magnitude_nonneg vs) as Hm.
    pose proof (Qabs_bounds a) as [Ha1 Ha2].
    cbn [magnitude fold_right] in Hb. fold (magnitude vs) in Hb.
    cbn [fold_left numeric_total fold_right]. fold (numeric_total vs).
    destruct v as [|x|s|d]; try discriminate.
    + destruct (IH a c Hnum Hc Hb) as (q & c' & Hq & E).
      exists q, c'. split; [exact Hq|]. exact E.
    + pose proof (Qabs_bounds x) as [Hx1 Hx2].
      cbn [kahan_step].
      rewrite (@overflow_small x) by lra. cbn [fsub fneg fadd].
      rewrite (@overflow_small (a + (x + - c))).
      2:{ eapply Qle_lt_trans; [|exact Hb]. apply Qabs_bound; lra. }
      cbn [fsub fneg fadd isnan].
      destruct (IH (a + (x + - c)) (a + (x + - c) + - a + - (x + - c)) Hnum)
        as (q & c' & Hq & E).
      * lra.
      * eapply Qle_lt_trans; [|exact Hb].
        assert (Qabs (a + (x + - c)) <= Qabs a + Qabs x)
          by (apply Qabs_bound; lra).
        lra.
      * exists q, c'. split; [exact Hq|]. lra.
Qed.

Lemma sum_bound_scaled : sum_bound * 100000000 < overflow_bound.
Proof. vm_compute. reflexivity. Qed.

Lemma sum_bound_nonneg : 0 <= sum_bound.
Proof. vm_compute. discriminate. Qed.

Lemma exact_counts_in_range (vs : list cell) :
  exact_counts vs -> in_float_range vs.
Proof.
  intros [Hw Hm]. split.
  - apply forallb_forall. intros c Hc.
    pose proof (exact_counts_numeric _ Hw) as H.
    eapply Forall_forall in H; [|exact Hc]. apply orb_true_iff. exact H.
  - eapply Qle_trans; [exact Hm|]. vm_compute. discriminate.
Qed.

Lemma group_numeric (keys : list row) (values : list cell) (k : row) :
  forallb (fun c => isnull c || is_num c) values = true ->
  forallb (fun c => isnull c || is_num c) (group_values keys values k) = true.
Proof.
  intros H. apply forallb_forall. intros c Hc.
  unfold group_values in Hc. apply in_map_iff in Hc.
  destruct Hc as ([k' v] & <- & Hin). apply filter_In in Hin.
  destruct Hin as [Hin _]. apply in_combine_r in Hin.
  eapply forallb_forall in H; [|exact Hin]. exact H.
Qed.

(** The total of a group of a column within the range: the binary64 sum
    does not overflow and is the exact sum of the model. *)
Lemma numeric_sum_in_range (keys : list row) (values : list cell) (k : row) :
  in_float_range values ->
  exists q,
    numeric_sum (group_values keys values k) = Ok (Finite q) /\
    q == numeric_total (group_values keys values k) /\
    Qabs q <= sum_bound.
Proof.
  intros [Hw Hm]. unfold numeric_sum.
  rewrite group_numeric by exact Hw.
  pose proof (magnitude_group keys values k) as Hg.
  pose proof sum_bound_scaled as Hb.
  pose proof sum_bound_nonneg as H0.
  destruct (@float_sum_from (group_values keys values k) 0 0)
    as (q & c' & Hq & E).
  - apply group_numeric, Hw.
  - reflexivity.
  - change (Qabs 0) with 0. lra.
  - exists q. unfold float_sum. rewrite Hq. split; [reflexivity|].
    split; [lra|].
    pose proof (magnitude_total (group_values keys values k)) as Ht.
    assert (E' : q == numeric_total (group_values keys values k)) by lra.
    rewrite E'. lra.
Qed.

(** The coverage of a total within the range does not overflow. *)
Lemma coverage_finite (total : Q) (n : nat) :
  Qabs total <= sum_bound ->
  overflow
    (overflow (Finite total / (Finite (inject_Z (Z.of_nat n)) + Finite eps))
     * Finite 100)%fl
  = Finite (total / (inject_Z (Z.of_nat n) + eps) * 100).
Proof.
  intros Ht. cbn [fadd fdiv].
  pose proof (count_plus_eps_pos n) as Hd.
  assert (Hn : 0 <= inject_Z (Z.of_nat n)).
  { change 0 with (inject_Z 0). rewrite <- Zle_Qle. lia. }
  pose proof sum_bound_scaled as Hb.
  pose proof sum_bound_nonneg as HB.
  set (d := inject_Z (Z.of_nat n) + eps) in *.
  assert (Hde : eps <= d) by (unfold d; lra).
  destruct (Qeq_bool d 0) eqn:E; [qbool; lra|].
  apply Qabs_Qle_condition in Ht. destruct Ht as [Hlo Hhi].
  assert (Hq : - (sum_bound * 1000000) <= total / d /\
               total / d <= sum_bound * 1000000).
  { split.
    - apply Qle_shift_div_l; [exact Hd|]. unfold eps in Hde. nra.
    - apply Qle_shift_div_r; [exact Hd|]. unfold eps in Hde. nra. }
  destruct Hq as [Hq1 Hq2].
  rewrite (@overflow_small (total / d)).
  - cbn [fmul]. rewrite (@overflow_small (total / d * 100)); [reflexivity|].
    eapply Qle_lt_trans; [|exact Hb].
    apply Qabs_bound; lra.
  - eapply Qle_lt_trans; [|exact Hb].
    apply Qabs_bound; lra.
Qed.

Lemma map2_map_l (A A' B C : Type) (f : A' -> B -> C) (g : A -> A')
  (l : list A) (l' : list B) :
  map2 f (map g l) l' = map2 (fun a b => f (g a) b) l l'.
Proof.
  revert l'. induction l as [|a l IH]; intros [|b l']; simpl; trivial.
  rewrite IH. reflexivity.
Qed.

Lemma map2_ext (A B C : Type) (f g : A -> B -> C) (l : list A) (l' : list B) :
  (forall a b, f a b = g a b) -> map2 f l l' = map2 g l l'.
Proof.
  intros H. revert l'. induction l as [|a l IH]; intros [|b l']; simpl; trivial.
  rewrite H, IH. reflexivity.
Qed.

Lemma map2_diag (A B C D : Type) (f : B -> C -> D) (g : A -> B) (h : A -> C)
  (l : list A) :
  map2 f (map g l) (map h l) = map (fun k => f (g k) (h k)) l.
Proof. induction l as [|k l IH]; simpl; [reflexivity|]. rewrite IH. reflexivity. Qed.

(** C7, as the code has it.  On a biometric table with rows and with State,
    Update_Count and Age_Group columns (no name repeated) whose update counts
    are numbers and missing values with magnitudes adding up to 10^290 at
    most, [calculate_biometric_quality] returns one row for each State of the
    input; Individuals_Updated is the number of rows of the State with an
    Age_Group, and Biometric_Coverage is the finite number
    Total_Updates / (Individuals_Updated + 1e-6) * 100: the guarded
    denominator is positive, and for a count of 0 the coverage is
    Total_Updates * 10^8.  When the update counts have exact sums,
    Total_Updates is the sum of Update_Count over the rows of the State. *)
Theorem biometric_coverage_finite (self : AadhaarDataPipeline) (df : DataFrame)
  (State Update_Count Age_Group : list cell) :
  biometric_df self = Some df ->
  NoDup (columns df) ->
  rows df <> [] ->
  get_column df "State" = Ok State ->
  get_column df "Update_Count" = Ok Update_Count ->
  get_column df "Age_Group" = Ok Age_Group ->
  in_float_range Update_Count ->
  let keys := map (fun s => [s]) State in
  let individuals := fun k => group_count (group_values keys Age_Group k) in
  exists (t : Table) (total coverage : row -> Q),
    calculate_biometric_quality self = Ok t /\
    table_column t "State"
    = Some (Cells (map (fun k => nth 0 k Null) (group_keys keys))) /\
    table_column t "Total_Updates"
    = Some (Floats (map (fun k => Finite (total k)) (group_keys keys))) /\
    table_column t "Individuals_Updated"
    = Some (Cells (map (fun k => Num (inject_Z (Z.of_nat (individuals k))))
                       (group_keys keys))) /\
    table_column t "Biometric_Coverage"
    = Some (Floats (map (fun k => Finite (coverage k)) (group_keys keys))) /\
    forall k, In k (group_keys keys) ->
      0 < inject_Z (Z.of_nat (individuals k)) + eps /\
      coverage k == total k / (inject_Z (Z.of_nat (individuals k)) + eps) * 100 /\
      (individuals k = 0%nat -> coverage k == total k * 100000000) /\
      (exact_counts Update_Count ->
       total k == numeric_total (group_values keys Update_Count k)).
Proof.
  intros Hdf _ _ HS HU HA Hex keys individuals.
  set (total := fun k => match float_sum (group_values keys Update_Count k) with
                         | Finite q => q
                         | _ => 0
                         end).
  set (coverage := fun k =>
         total k / (inject_Z (Z.of_nat (individuals k)) + eps) * 100).
  assert (Htot : forall k,
             numeric_sum (group_values keys Update_Count k) = Ok (Finite (total k)) /\
             total k == numeric_total (group_values keys Update_Count k) /\
             Qabs (total k) <= sum_bound).
  { intros k. destruct (@numeric_sum_in_range keys Update_Count k Hex)
      as (q & Hq & E & Hb).
    assert (Hfs : float_sum (group_values keys Update_Count k) = Finite q).
    { unfold numeric_sum in Hq. destruct (forallb _ _); [|discriminate].
      injection Hq as Hq. exact Hq. }
    unfold total. rewrite Hfs. auto. }
  exists [("State", Cells (map (fun k => nth 0 k Null) (group_keys keys)));
          ("Total_Updates", Floats (map (fun k => Finite (total k)) (group_keys keys)));
          ("Avg_Updates",
           Floats (map (fun k => group_mean (group_values keys Update_Count k))
                       (group_keys keys)));
          ("Individuals_Updated",
           Cells (map (fun n => Num (inject_Z (Z.of_nat n)))
                      (map individuals (group_keys keys))));
          ("Biometric_Coverage",
           Floats (map (fun k => Finite (coverage k)) (group_keys keys)))],
         total, coverage.
  split; [|split; [reflexivity|split; [reflexivity|split; [|split; [reflexivity|]]]]].
  - unfold calculate_biometric_quality. rewrite Hdf.
    rewrite (get_column_Ok _ _ HS), HS, HU, HA. cbn [bind]. fold keys.
    rewrite (@mapM_total _ _ _ (fun k => Finite (total k))).
    2:{ apply Forall_forall. intros k _. apply Htot. }
    cbn [bind]. rewrite map2_diag. apply f_equal.
    do 4 (apply f_equal2; [reflexivity|]).
    apply f_equal2; [|reflexivity]. do 2 apply f_equal.
    apply map_ext. intros k. apply coverage_finite. apply Htot.
  - simpl. rewrite map_map. reflexivity.
  - intros k _. destruct (Htot k) as (_ & E & _).
    split; [apply count_plus_eps_pos|].
    split; [reflexivity|]. split; [|intros _; exact E].
    intros H0. unfold coverage. rewrite H0. unfold eps. simpl. field.
Qed.

Lemma biometric_coverage_witness :
  exists (t : Table) (total coverage : row -> Q),
    calculate_biometric_quality (pipeline_of biometric_unaged) = Ok t /\
    table_column t "State" = Some (Cells [Str "Goa"; Str "Kerala"]) /\
    table_column t "Total_Updates"
    = Some (Floats [Finite (total [Str "Goa"]); Finite (total [Str "Kerala"])]) /\
    table_column t "Individuals_Updated" = Some (Cells [Num 0; Num 0]) /\
    table_column t "Biometric_Coverage"
    = Some (Floats [Finite (coverage [Str "Goa"]);
                    Finite (coverage [Str "Kerala"])]) /\
    total [Str "Kerala"] == 50 /\
    coverage [Str "Kerala"] == 5000000000.
Proof.
  destruct (@biometric_coverage_finite (pipeline_of biometric_unaged)
              biometric_unaged
              [Str "Kerala"; Str "Goa"; Str "Kerala"]
              [Num 20; Num 7; Num 30] [Null; Null; Null])
    as (t & total & coverage & Ht & HS & HT & HI & HC & Hk).
  - reflexivity.
  - repeat constructor; simpl; intuition discriminate.
  - discriminate.
  - reflexivity.
  - reflexivity.
  - reflexivity.
  - split; [reflexivity|]. vm_compute. discriminate.
  - exists t, total, coverage.
    split; [exact Ht|]. split; [exact HS|]. split; [exact HT|].
    split; [exact HI|]. split; [exact HC|].
    destruct (Hk [Str "Kerala"]) as (_ & _ & H0 & E); [vm_compute; auto|].
    assert (E' : total [Str "Kerala"] == 50).
    { rewrite E; [vm_compute; reflexivity|].
      split; [reflexivity|vm_compute; discriminate]. }
    split; [exact E'|].
    rewrite (H0 eq_refl), E'. vm_compute. reflexivity.
Defined.

(** C7, counterexample to finiteness for every input: two update counts of
    1e308 in one State add up to an infinite Total_Updates, and the coverage
    is infinite. *)
Lemma biometric_coverage_infinite_on_overflow :
  exists t,
    calculate_biometric_quality (pipeline_of huge_updates) = Ok t /\
    table_column t "Individuals_Updated" = Some (Cells [Num 2]) /\
    table_column t "Total_Updates" = Some (Floats [PosInf]) /\
    table_column t "Biometric_Coverage" = Some (Floats [PosInf]).
Proof.
  eexists. split; [vm_compute; reflexivity|].
  split; [reflexivity|]. split; reflexivity.
Qed.


(** ** Migration indicators *)

(** C10.  When the merged table lacks the column 'Aadhaar Generated_enrol'
    or the column 'Update_count', [calculate_migration_indicators] returns
    the empty table (no column, hence no row, no Update_Rate and no
    Migration_Risk) and raises nothing. *)
Theorem migration_indicators_empty_without_columns
  (self : AadhaarDataPipeline) (enrolment demographic merged : DataFrame) :
  enrolment_df self = Some enrolment ->
  demographic_df self = Some demographic ->
  merge enrolment demographic ["State"; "District"; "Pin Code"] "_enrol" "_demo"
  = Ok merged ->
  has_column merged "Aadhaar Generated_enrol" = false
  \/ has_column merged "Update_count" = false ->
  calculate_migration_indicators self = Ok [].
Proof.
  intros He Hd Hm Hcols. unfold calculate_migration_indicators.
  rewrite He, Hd, Hm. cbn [bind].
  destruct Hcols as [H|H]; rewrite H; simpl; [|rewrite andb_false_r]; reflexivity.
Qed.

Lemma migration_indicators_empty_witness :
  exists merged,
    merge enrolment_sample demographic_sample ["State"; "District"; "Pin Code"]
          "_enrol" "_demo" = Ok merged /\
    columns merged
    = ["State"; "District"; "Pin Code"; "Aadhaar Generated"; "Update_Count"] /\
    calculate_migration_indicators
      {| enrolment_df := Some enrolment_sample;
         demographic_df := Some demographic_sample;
         biometric_df := None |} = Ok [].
Proof.
  eexists. split; [reflexivity|]. split; [reflexivity|].
  eapply (@migration_indicators_empty_without_columns
            {| enrolment_df := Some enrolment_sample;
               demographic_df := Some demographic_sample;
               biometric_df := None |}
            enrolment_sample demographic_sample _ eq_refl eq_refl eq_refl).
  left. reflexivity.
Defined.

Lemma nth_error_Forall2 (A B : Type) (R : A -> B -> Prop) (l : list A)
  (l' : list B) (i : nat) (a : A) :
  Forall2 R l l' -> nth_error l i = Some a ->
  exists b, nth_error l' i = Some b /\ R a b.
Proof.
  intros H. revert i. induction H as [|x y l l' Hxy _ IH]; intros [|i]; simpl;
    try discriminate.
  - intros E. injection E as <-. eauto.
  - apply IH.
Qed.

Lemma nth_error_map2 (A B C : Type) (f : A -> B -> C) (l : list A)
  (l' : list B) (i : nat) (a : A) (b : B) :
  nth_error l i = Some a -> nth_error l' i = Some b ->
  nth_error (map2 f l l') i = Some (f a b).
Proof.
  revert l' i. induction l as [|x l IH]; intros [|y l'] [|i]; simpl;
    try discriminate.
  - intros E1 E2. injection E1 as <-. injection E2 as <-. reflexivity.
  - apply IH.
Qed.

Lemma nth_past_left (l : row) (n j : nat) :
  (List.length l <= j)%nat -> nth j (l ++ repeat Null n) Null = Null.
Proof.
  intros H. rewrite app_nth2 by exact H.
  destruct (Nat.lt_ge_cases (j - List.length l) n) as [Hlt|Hge].
  - apply nth_repeat_lt. exact Hlt.
  - apply nth_overflow. rewrite repeat_length. exact Hge.
Qed.

Lemma index_of_app_right (name : string) (a b : list string) (j : nat) :
  existsb (String.eqb name) a = false ->
  index_of name (a ++ b) = Some j -> (List.length a <= j)%nat.
Proof.
  revert j. induction a as [|c a IH]; intros j; simpl; [lia|].
  destruct (String.eqb name c); simpl; [discriminate|].
  intros Ha H. destruct (index_of name (a ++ b)) as [j'|] eqn:E; [|discriminate].
  injection H as <-. specialize (IH j' Ha eq_refl). lia.
Qed.

(** No name with the suffix of the enrolment side is 'Update_count'. *)
Lemma enrol_suffix_not_update_count (c : string) :
  c ++ "_enrol" <> "Update_count".
Proof.
  intros H.
  do 13 (destruct c as [|? c]; [discriminate H|];
         simpl in H; try discriminate H; injection H as _ H).
Qed.

Lemma update_count_from_right (enrolment demographic : DataFrame) :
  mem "Update_count" (columns demographic) = true ->
  existsb (String.eqb "Update_count")
    (map (fun c => if mem c ["State"; "District"; "Pin Code"] then c
                   else if mem c (right_columns demographic
                                    ["State"; "District"; "Pin Code"])
                        then c ++ "_enrol" else c)
         (columns enrolment)) = false.
Proof.
  intros Hd.
  assert (Hr : mem "Update_count"
                 (right_columns demographic ["State"; "District"; "Pin Code"]) = true).
  { unfold mem, right_columns in *. apply existsb_exists in Hd.
    destruct Hd as [c [Hin Hc]]. apply String.eqb_eq in Hc. subst c.
    apply existsb_exists. exists "Update_count". split; [|reflexivity].
    apply filter_In. split; [exact Hin|reflexivity]. }
  induction (columns enrolment) as [|c cols IH]; [reflexivity|].
  cbn [map existsb]. rewrite IH, orb_false_r.
  destruct (mem c ["State"; "District"; "Pin Code"]) eqn:Ek.
  - destruct (String.eqb "Update_count" c) eqn:E; [|reflexivity].
    apply String.eqb_eq in E. subst c. discriminate Ek.
  - destruct (mem c (right_columns demographic ["State"; "District"; "Pin Code"])) eqn:Ec.
    + apply String.eqb_neq. intros E. symmetry in E.
      exact (@enrol_suffix_not_update_count c E).
    + destruct (String.eqb "Update_count" c) eqn:E; [|reflexivity].
      apply String.eqb_eq in E. subst c. congruence.
Qed.

Lemma float_of_cell_Null (y : float64) : float_of_cell Null = Ok y -> y = NaN.
Proof. simpl. congruence. Qed.

Lemma migration_risk_fills_nulls (Update_Rate : list float64) :
  _calculate_migration_risk Update_Rate
  = _calculate_migration_risk (fillna (Finite 0) Update_Rate).
Proof.
  unfold _calculate_migration_risk. rewrite fillna_idem by reflexivity.
  reflexivity.
Qed.

(** C3, as the code has it.  An enrolment row whose (State, District,
    Pin Code) has no match in the demographic table yields one merged row; its
    update count is missing, and so is its Update_Rate (NaN, not 0).  The
    missing rate counts as 0 only inside the Migration_Risk normalisation,
    which replaces missing rates by 0 before it scales the batch.  The row is
    found at position [i], the number of merged rows given by the enrolment
    rows above it. *)
Theorem unmatched_enrolment_row_has_null_rate
  (self : AadhaarDataPipeline) (enrolment demographic : DataFrame)
  (above below : list row) (l : row) (t : Table) :
  enrolment_df self = Some enrolment ->
  demographic_df self = Some demographic ->
  well_formed enrolment ->
  rows enrolment = (above ++ l :: below)%list ->
  matches enrolment demographic ["State"; "District"; "Pin Code"] l = [] ->
  mem "Update_count" (columns demographic) = true ->
  calculate_migration_indicators self = Ok t ->
  t <> [] ->
  exists Updates Update_Rate,
    table_column t "Updates" = Some (Cells Updates) /\
    table_column t "Update_Rate" = Some (Floats Update_Rate) /\
    table_column t "Migration_Risk"
    = Some (Floats (_calculate_migration_risk (fillna (Finite 0) Update_Rate))) /\
    let i := List.length (flat_map (join_row enrolment demographic
                                      ["State"; "District"; "Pin Code"]) above) in
    nth_error Updates i = Some Null /\ nth_error Update_Rate i = Some NaN.
Proof.
  intros He Hd Hwf Hrows Hmatch Hcount Hcalc Hne.
  unfold calculate_migration_indicators in Hcalc. rewrite He, Hd in Hcalc.
  unfold merge in Hcalc.
  destruct (find _ ["State"; "District"; "Pin Code"]); [discriminate|].
  destruct (existsb _ ["State"; "District"; "Pin Code"]); [discriminate|].
  cbn [bind] in Hcalc.
  set (K := ["State"; "District"; "Pin Code"]) in *.
  set (merged := {| columns := merged_columns enrolment demographic K "_enrol" "_demo";
                    rows := flat_map (join_row enrolment demographic K)
                                     (rows enrolment) |}) in *.
  destruct (has_column merged "Aadhaar Generated_enrol"
            && has_column merged "Update_count");
    [|injection Hcalc as <-; contradiction].
  destruct (get_column merged "State") as [State|]; [|discriminate].
  destruct (get_column merged "District") as [District|]; [|discriminate].
  destruct (get_column merged "Aadhaar Generated_enrol") as [Enrolment|] eqn:EE;
    [|discriminate].
  destruct (get_column merged "Update_count") as [Updates|] eqn:EU; [|discriminate].
  cbn [bind] in Hcalc.
  destruct (to_floats Updates) as [us|] eqn:Eus; [|discriminate].
  destruct (to_floats Enrolment) as [es|] eqn:Ees; [|discriminate].
  cbn [bind] in Hcalc. injection Hcalc as <-.
  exists Updates. eexists. split; [reflexivity|]. split; [reflexivity|].
  split; [simpl; do 2 f_equal; apply migration_risk_fills_nulls|].
  cbv zeta. set (R1 := flat_map (join_row enrolment demographic K) above).
  (* the merged rows around the row of [l] *)
  assert (Hm : rows merged
               = (R1 ++ (l ++ repeat Null (List.length (right_columns demographic K)))
                     :: flat_map (join_row enrolment demographic K) below)%list).
  { unfold merged. cbn [rows]. rewrite Hrows, flat_map_app. cbn [flat_map].
    unfold join_row at 2. rewrite Hmatch. reflexivity. }
  (* the update count of that row *)
  unfold get_column in EU, EE.
  destruct (index_of "Update_count" (columns merged)) as [j|] eqn:Ej; [|discriminate].
  destruct (index_of "Aadhaar Generated_enrol" (columns merged)) as [j'|];
    [|discriminate].
  injection EU as <-. injection EE as <-.
  assert (Hj : (List.length l <= j)%nat).
  { unfold merged, merged_columns in Ej. cbn [columns] in Ej.
    apply index_of_app_right in Ej.
    - rewrite length_map in Ej.
      unfold well_formed, rows_satisfy in Hwf. rewrite Hrows in Hwf.
      apply Forall_app in Hwf. destruct Hwf as [_ Hwf].
      inversion Hwf as [|? ? Hl _]; subst.
      apply Forall2_length in Hl. lia.
    - apply update_count_from_right, Hcount. }
  assert (HU : nth_error (map (fun r => nth j r Null) (rows merged))
                         (List.length R1) = Some Null).
  { rewrite Hm, map_app, nth_error_app2 by (rewrite length_map; lia).
    rewrite length_map, Nat.sub_diag. cbn [map nth_error].
    rewrite nth_past_left by exact Hj. reflexivity. }
  split; [exact HU|].
  apply mapM_Ok in Eus. apply mapM_Ok in Ees.
  destruct (@nth_error_Forall2 _ _ _ _ _ _ _ Eus HU) as (u & Hu & Hu').
  apply float_of_cell_Null in Hu'. subst u.
  assert (He' : exists e, nth_error es (List.length R1) = Some e).
  { destruct (nth_error es (List.length R1)) as [e|] eqn:E; [eauto|].
    apply nth_error_None in E.
    apply Forall2_length in Eus, Ees. rewrite length_map in Eus, Ees.
    assert (nth_error us (List.length R1) <> None) by congruence.
    apply nth_error_Some in H. lia. }
  destruct He' as [e He'].
  rewrite (@nth_error_map2 _ _ _ _ _ _ _ _ _ Hu He'). reflexivity.
Qed.

Lemma unmatched_enrolment_row_witness :
  matches enrolment_sample demographic_counts ["State"; "District"; "Pin Code"]
    [Str "Goa"; Str "North Goa"; Num 403001; Num 250] = [] /\
  exists t Updates Update_Rate,
    calculate_migration_indicators migration_pipeline = Ok t /\
    table_column t "Updates" = Some (Cells Updates) /\
    table_column t "Update_Rate" = Some (Floats Update_Rate) /\
    table_column t "Migration_Risk"
    = Some (Floats (_calculate_migration_risk (fillna (Finite 0) Update_Rate))) /\
    nth_error Updates 2 = Some Null /\ nth_error Update_Rate 2 = Some NaN.
Proof.
  split; [reflexivity|].
  destruct (calculate_migration_indicators migration_pipeline) as [t|e] eqn:E;
    [|vm_compute in E; discriminate E].
  assert (Hne : t <> []).
  { pose proof E as E'. vm_compute in E'. injection E' as <-.
    intros H; discriminate H. }
  assert (Hwf : well_formed enrolment_sample) by (repeat constructor).
  destruct (@unmatched_enrolment_row_has_null_rate
              migration_pipeline enrolment_sample demographic_counts
              [[Str "Kerala"; Str "Idukki"; Num 685501; Num 100]]
              [[Str "Kerala"; Str "Idukki"; Num 685502; Num 40]]
              [Str "Goa"; Str "North Goa"; Num 403001; Num 250] t
              eq_refl eq_refl Hwf eq_refl eq_refl eq_refl E Hne)
    as (Updates & Update_Rate & H1 & H2 & H3 & H4 & H5).
  exists t, Updates, Update_Rate. repeat split; assumption.
Defined.

(** C3, counterexample to the stated rate: the Goa row has no demographic
    match and its Update_Rate is NaN, not 0. *)
Lemma unmatched_update_rate_is_not_zero :
  matches enrolment_sample demographic_counts ["State"; "District"; "Pin Code"]
    [Str "Goa"; Str "North Goa"; Num 403001; Num 250] = [] /\
  exists t Update_Rate,
    calculate_migration_indicators migration_pipeline = Ok t /\
    table_column t "State" = Some (Cells [Str "Kerala"; Str "Kerala"; Str "Goa";
                                          Str "Kerala"]) /\
    table_column t "Update_Rate" = Some (Floats Update_Rate) /\
    nth_error Update_Rate 2 = Some NaN /\
    ~ feq NaN (Finite 0).
Proof.
  split; [reflexivity|].
  eexists. eexists. split; [vm_compute; reflexivity|].
  split; [reflexivity|]. split; [reflexivity|]. split; [reflexivity|].
  simpl. tauto.
Qed.


(** ** Vulnerability score *)

Lemma series_min_skip (s : list float64) :
  series_min s = series_min (filter (fun x => negb (isnan x)) s).
Proof.
  induction s as [|x s IH]; simpl; [reflexivity|].
  destruct (isnan x) eqn:E; simpl; [exact IH|].
  rewrite E. fold (series_min s).
  fold (series_min (filter (fun x => negb (isnan x)) s)).
  rewrite IH. reflexivity.
Qed.

Lemma series_max_skip (s : list float64) :
  series_max s = series_max (filter (fun x => negb (isnan x)) s).
Proof.
  induction s as [|x s IH]; simpl; [reflexivity|].
  destruct (isnan x) eqn:E; simpl; [exact IH|].
  rewrite E. fold (series_max s).
  fold (series_max (filter (fun x => negb (isnan x)) s)).
  rewrite IH. reflexivity.
Qed.

Lemma series_min_In (s : list float64) :
  Forall (fun x => isnan x = false) s -> s <> [] -> In (series_min s) s.
Proof.
  induction 1 as [|x s Hx Hs IH]; [congruence|]. intros _. simpl. rewrite Hx.
  fold (series_min s). destruct s as [|y s'].
  - simpl. left. reflexivity.
  - assert (Hne : y :: s' <> []) by discriminate.
    rewrite (@series_min_nonnan (y :: s') Hs Hne).
    destruct (fltb x (series_min (y :: s'))); [left; reflexivity|].
    right. apply IH, Hne.
Qed.

Lemma series_max_In (s : list float64) :
  Forall (fun x => isnan x = false) s -> s <> [] -> In (series_max s) s.
Proof.
  induction 1 as [|x s Hx Hs IH]; [congruence|]. intros _. simpl. rewrite Hx.
  fold (series_max s). destruct s as [|y s'].
  - simpl. left. reflexivity.
  - assert (Hne : y :: s' <> []) by discriminate.
    rewrite (@series_max_nonnan (y :: s') Hs Hne).
    destruct (fltb (series_max (y :: s')) x); [left; reflexivity|].
    right. apply IH, Hne.
Qed.

(** In a column read from a table, an entry that is a number lies between
    the minimum and the maximum, which are numbers too. *)
Lemma series_bounds (P : float64 -> Prop) (s : list float64) (q : Q) :
  Forall P s -> In (Finite q) s ->
  (forall x, P x -> finite_or_nan x) ->
  exists lo hi, series_min s = Finite lo /\ series_max s = Finite hi /\
                lo <= q /\ q <= hi /\ P (Finite lo) /\ P (Finite hi).
Proof.
  intros HP Hin Hfin.
  set (s' := filter (fun x => negb (isnan x)) s).
  assert (Hnn : Forall (fun x => isnan x = false) s').
  { apply Forall_forall. intros x Hx. apply filter_In in Hx.
    destruct Hx as [_ Hx]. apply negb_true_iff in Hx. exact Hx. }
  assert (Hin' : In (Finite q) s') by (apply filter_In; split; trivial).
  assert (Hne : s' <> []) by (intros E; rewrite E in Hin'; destruct Hin').
  assert (HP' : Forall P s').
  { apply Forall_forall. intros x Hx. apply filter_In in Hx.
    destruct Hx as [Hx _]. eapply Forall_forall in HP; eauto. }
  pose proof (@series_min_In s' Hnn Hne) as Hmin.
  pose proof (@series_max_In s' Hnn Hne) as Hmax.
  pose proof (@series_min_le s' (Finite q) Hnn Hin') as Hle.
  pose proof (@series_max_ge s' (Finite q) Hnn Hin') as Hge.
  pose proof (@series_min_nonnan s' Hnn Hne) as Hn1.
  pose proof (@series_max_nonnan s' Hnn Hne) as Hn2.
  rewrite (series_min_skip s), (series_max_skip s). fold s'.
  assert (P1 : P (series_min s')) by (eapply Forall_forall in HP'; eauto).
  assert (P2 : P (series_max s')) by (eapply Forall_forall in HP'; eauto).
  pose proof (Hfin _ P1) as F1. pose proof (Hfin _ P2) as F2.
  unfold fle in *.
  destruct (series_min s') as [lo| | |]; simpl in *; try contradiction;
    try discriminate.
  destruct (series_max s') as [hi| | |]; simpl in *; try contradiction;
    try discriminate.
  qbool. exists lo, hi. repeat split; assumption.
Qed.



Lemma to_floats_length (cs : list cell) (xs : list float64) :
  to_floats cs = Ok xs -> List.length xs = List.length cs.
Proof. intros H. apply mapM_Ok in H. symmetry. eapply Forall2_length, H. Qed.







Lemma map2_length (A B C : Type) (f : A -> B -> C) (l : list A) (l' : list B) :
  List.length l' = List.length l -> List.length (map2 f l l') = List.length l.
Proof.
  revert l'. induction l as [|x l IH]; intros [|y l']; simpl; try discriminate;
    auto.
Qed.



Lemma get_column_length (df : DataFrame) (name : string) (cs : list cell) :
  get_column df name = Ok cs -> List.length cs = List.length (rows df).
Proof.
  unfold get_column. destruct (index_of name (columns df)); [|discriminate].
  intros H. injection H as <-. apply length_map.
Qed.















(** ** Z-score anomalies *)

Lemma enumerate_from_nth (A : Type) (l : list A) (a k : nat) :
  nth_error (enumerate_from a l) k
  = option_map (fun x => ((a + k)%nat, x)) (nth_error l k).
Proof.
  revert a k. induction l as [|x l IH]; intros a [|k]; simpl; trivial.
  - rewrite Nat.add_0_r. reflexivity.
  - rewrite IH. rewrite Nat.add_succ_r. reflexivity.
Qed.

Lemma select_In (A : Type) (mask : list bool) (l : list A) (x : A) :
  In x (select mask l) <->
  exists k, nth_error mask k = Some true /\ nth_error l k = Some x.
Proof.
  revert l. induction mask as [|b mask IH]; intros [|y l]; simpl.
  - split; [tauto|]. intros [[|k] [H _]]; discriminate.
  - split; [tauto|]. intros [[|k] [H _]]; discriminate.
  - split; [tauto|]. intros [[|k] [_ H]]; discriminate.
  - destruct b; simpl; rewrite IH.
    + split.
      * intros [<-|[k Hk]]; [exists 0%nat; auto|exists (S k); exact Hk].
      * intros [[|k] [H1 H2]]; simpl in *; [left; congruence|right; eauto].
    + split.
      * intros [k Hk]. exists (S k). exact Hk.
      * intros [[|k] [H1 H2]]; simpl in *; [discriminate|eauto].
Qed.

(** Nothing exceeds NaN. *)
Lemma ltb_nan (t : float) : PrimFloat.ltb t PrimFloat.nan = false.
Proof.
  rewrite ltb_spec.
  replace (Prim2SF PrimFloat.nan) with S754_nan by (vm_compute; reflexivity).
  unfold SFltb, SFcompare. destruct (Prim2SF t); reflexivity.
Qed.

Lemma select_none (A : Type) (mask : list bool) (l : list A) :
  Forall (fun b => b = false) mask -> select mask l = [].
Proof.
  intros H. revert l. induction H as [|b mask -> _ IH]; intros [|x l];
    simpl; auto.
Qed.

(** C6, as the code has it.  On a column of numbers of a table with rows
    [identify_anomalies] returns exactly the rows (with their index labels) whose |z-score|
    exceeds the threshold of the caller, the z-scores being those that
    scipy.stats.zscore returns for the column after missing values are
    replaced by 0: (x - mean) / std with the population mean and standard
    deviation (divisor n), and NaN throughout for a constant column, in
    which nothing is flagged whatever the threshold.  On the values
    1, 1, 1, 1, 100 the z-scores
    are -0.5, -0.5, -0.5, -0.5, 2: with the threshold 2.5 no row is flagged,
    and with the threshold 1.5 exactly the row with the value 100 is. *)
Theorem anomalies_are_rows_above_threshold :
  (forall (zscore : list float -> list float) (df : DataFrame)
          (column : string) (threshold : float) (cells : list cell),
      NoDup (columns df) ->
      rows df <> [] ->
      get_column df column = Ok cells ->
      is_numeric_dtype cells ->
      exists values out,
        mapM Binary64.of_cell cells = Ok values /\
        identify_anomalies zscore df column threshold = Ok out /\
        forall i r,
          In (i, r) out <->
          nth_error (rows df) i = Some r /\
          exists z,
            nth_error (zscore (Binary64.fillna0 values)) i = Some z /\
            PrimFloat.ltb threshold (PrimFloat.abs z) = true) /\
  (forall (zscore : list float -> list float) (df : DataFrame)
          (column : string) (threshold : float) (cells : list cell)
          (values : list float),
      get_column df column = Ok cells ->
      mapM Binary64.of_cell cells = Ok values ->
      Forall (fun z => z = PrimFloat.nan) (zscore (Binary64.fillna0 values)) ->
      identify_anomalies zscore df column threshold = Ok []) /\
  Binary64.zscore [1; 1; 1; 1; 100]%float
  = [(-0.5)%float; (-0.5)%float; (-0.5)%float; (-0.5)%float; 2%float] /\
  identify_anomalies Binary64.zscore spike_sample "Update_Count" 2.5%float
  = Ok [] /\
  identify_anomalies Binary64.zscore spike_sample "Update_Count" 1.5%float
  = Ok [(4%nat, [Str "E"; Num 100])] /\
  Binary64.zscore [Binary64.of_Q (1 # 10); Binary64.of_Q (1 # 10);
                   Binary64.of_Q (1 # 10)]
  = [PrimFloat.nan; PrimFloat.nan; PrimFloat.nan] /\
  identify_anomalies Binary64.zscore constant_sample "Update_Rate" 0%float
  = Ok [].
Proof.
  split; [|split; [|repeat split; vm_compute; reflexivity]].
  2:{ intros zscore df column threshold cells values Hc Hv Hnan.
      unfold identify_anomalies. rewrite Hc. cbn [bind]. rewrite Hv. cbn [bind].
      rewrite select_none; [reflexivity|].
      rewrite map_map. apply Forall_map.
      eapply Forall_impl; [|exact Hnan].
      intros z ->. change (PrimFloat.abs PrimFloat.nan) with PrimFloat.nan.
      apply ltb_nan. }
  intros zscore df column threshold cells _ _ Hc Hnum.
  assert (Hv : exists values, mapM Binary64.of_cell cells = Ok values).
  { clear Hc. induction Hnum as [|c cells Hcell _ [values IH]].
    - exists []. reflexivity.
    - destruct c as [|q|s|t]; try contradiction; simpl; rewrite IH;
        eexists; reflexivity. }
  destruct Hv as [values Hv]. exists values.
  unfold identify_anomalies. rewrite Hc. cbn [bind]. rewrite Hv. cbn [bind].
  eexists. split; [reflexivity|]. split; [reflexivity|]. intros i r.
  rewrite select_In. split.
  - intros (k & Hm & He). rewrite enumerate_from_nth in He.
    destruct (nth_error (rows df) k) as [r'|] eqn:Er; [|discriminate].
    simpl in He. injection He as <- <-. split; [exact Er|].
    rewrite !nth_error_map in Hm.
    destruct (nth_error (zscore (Binary64.fillna0 values)) k) as [z|];
      [|discriminate].
    simpl in Hm. injection Hm as Hm. eauto.
  - intros (Hr & z & Hz & Hlt). exists i. split.
    + rewrite !nth_error_map, Hz. simpl. rewrite Hlt. reflexivity.
    + rewrite enumerate_from_nth, Hr. reflexivity.
Qed.

(** C6, counterexample to the stated scenario: with the threshold 2.5 the
    row with the value 100 is not flagged, its z-score being 2. *)
Lemma spike_not_flagged_at_threshold_2_5 :
  identify_anomalies Binary64.zscore spike_sample "Update_Count" 2.5%float
  = Ok [] /\
  nth_error (Binary64.zscore [1; 1; 1; 1; 100]%float) 4 = Some 2%float /\
  PrimFloat.ltb 2.5%float (PrimFloat.abs 2%float) = false /\
  identify_anomalies Binary64.zscore spike_sample "Update_Count" 2.5%float
  <> Ok [(4%nat, [Str "E"; Num 100])].
Proof.
  split; [vm_compute; reflexivity|]. split; [vm_compute; reflexivity|].
  split; [vm_compute; reflexivity|]. vm_compute. intros H. discriminate H.
Qed.

Lemma anomalies_witness :
  (exists values out,
      mapM Binary64.of_cell [Num 1; Num 1; Num 1; Num 1; Num 100] = Ok values /\
      identify_anomalies Binary64.zscore spike_sample "Update_Count" 1.5%float
      = Ok out /\
      forall i r,
        In (i, r) out <->
        nth_error (rows spike_sample) i = Some r /\
        exists z,
          nth_error (Binary64.zscore (Binary64.fillna0 values)) i = Some z /\
          PrimFloat.ltb 1.5%float (PrimFloat.abs z) = true) /\
  identify_anomalies Binary64.zscore constant_sample "Update_Rate" 0.25%float
  = Ok [].
Proof.
  split.
  - apply (proj1 anomalies_are_rows_above_threshold Binary64.zscore spike_sample
                 "Update_Count" 1.5%float).
    + repeat constructor; simpl; intuition discriminate.
    + discriminate.
    + reflexivity.
    + repeat constructor; simpl; reflexivity.
  - apply (proj1 (proj2 anomalies_are_rows_above_threshold) Binary64.zscore
                 constant_sample "Update_Rate" 0.25%float
                 [Num (1 # 10); Num (1 # 10); Num (1 # 10)]
                 [Binary64.of_Q (1 # 10); Binary64.of_Q (1 # 10);
                  Binary64.of_Q (1 # 10)]).
    + reflexivity.
    + reflexivity.
    + vm_compute. repeat constructor.
Defined.


(** ** Anomaly and cluster adapters *)

Section AdapterFacts.

Variables scaler forest kmeans matrix : Type.
Variable StandardScaler_fit_transform : DataFrame -> result (scaler * matrix).
Variable IsolationForest_fit_predict : Q -> matrix -> result (forest * list Z).
Variable KMeans_fit_predict : nat -> matrix -> result (kmeans * list Z).

(** C9, as the code has it.  When a call into the external library raises
    (the scaler, the model, or for clustering the selection of the feature
    columns), no exception leaves the adapter and the object keeps its state.
    [detect_isolation_forest] then answers the label 1 (normal) for every
    row.  [cluster_regions] answers the table it was given, unchanged: no
    Cluster column is added and no cluster is assigned. *)
Theorem adapters_degrade_on_failure :
  (forall (self : AnomalyDetector scaler forest) (X : DataFrame)
          (contamination : Q) (e : exn),
      StandardScaler_fit_transform (fillna_zero X) = Raise e \/
      (exists s m, StandardScaler_fit_transform (fillna_zero X) = Ok (s, m) /\
                   IsolationForest_fit_predict contamination m = Raise e) ->
      detect_isolation_forest StandardScaler_fit_transform
        IsolationForest_fit_predict self X contamination
      = (repeat 1%Z (List.length (rows X)), self)) /\
  (forall (self : PopulationClusterer scaler kmeans) (df : DataFrame)
          (features : list string) (e : exn),
      select_columns df features = Raise e \/
      (exists X, select_columns df features = Ok X /\
         (StandardScaler_fit_transform (fillna_zero X) = Raise e \/
          exists s m, StandardScaler_fit_transform (fillna_zero X) = Ok (s, m) /\
                      KMeans_fit_predict (n_clusters self) m = Raise e)) ->
      cluster_regions StandardScaler_fit_transform KMeans_fit_predict
        self df features = (df, self)).
Proof.
  split.
  - intros self X contamination e H.
    unfold detect_isolation_forest, isolation_forest_attempt.
    destruct H as [H|(s & m & H1 & H2)].
    + rewrite H. reflexivity.
    + rewrite H1. cbn [bind snd]. rewrite H2. reflexivity.
  - intros self df features e H.
    unfold cluster_regions, cluster_attempt.
    destruct H as [H|(X & HX & [H|(s & m & H1 & H2)])].
    + rewrite H. reflexivity.
    + rewrite HX. cbn [bind]. rewrite H. reflexivity.
    + rewrite HX. cbn [bind]. rewrite H1. cbn [bind snd]. rewrite H2.
      reflexivity.
Qed.

End AdapterFacts.

Lemma adapters_degrade_witness :
  detect_isolation_forest identity_scaler failing_forest
    {| isolation_forest := None; detector_scaler := None |}
    regions_sample (1 # 20)
  = ([1; 1; 1]%Z, {| isolation_forest := None; detector_scaler := None |}) /\
  cluster_regions identity_scaler failing_kmeans
    {| n_clusters := 5; kmeans_model := None; clusterer_scaler := None |}
    regions_sample ["Enrolment_Count"; "Biometric_Updates"]
  = (regions_sample,
     {| n_clusters := 5; kmeans_model := None; clusterer_scaler := None |}).
Proof.
  pose proof (@adapters_degrade_on_failure unit unit unit DataFrame
                identity_scaler failing_forest failing_kmeans) as [H1 H2].
  split.
  - apply (H1 _ regions_sample (1 # 20)
              (LibraryError "contamination must be in (0, 0.5]")).
    right. eexists. eexists. split; reflexivity.
  - apply (H2 _ regions_sample ["Enrolment_Count"; "Biometric_Updates"]
              (LibraryError "n_samples should be >= n_clusters")).
    right. eexists. split; [reflexivity|].
    right. eexists. eexists. split; reflexivity.
Defined.

(** C9, counterexample to the all-cluster-0 default: when K-means raises,
    the table comes back without a Cluster column, unlike the table that an
    assignment of every row to cluster 0 produces. *)
Lemma failed_clustering_assigns_no_cluster :
  let self := {| n_clusters := 5; kmeans_model := None; clusterer_scaler := None |} in
  let failed := fst (cluster_regions identity_scaler failing_kmeans self
                       regions_sample ["Enrolment_Count"]) in
  let all_zero := fst (cluster_regions identity_scaler constant_kmeans self
                         regions_sample ["Enrolment_Count"]) in
  failed = regions_sample /\
  get_column failed "Cluster" = Raise (KeyError "Cluster") /\
  get_column all_zero "Cluster" = Ok [Num 0; Num 0; Num 0] /\
  failed <> all_zero.
Proof.
  split; [reflexivity|]. split; [reflexivity|]. split; [vm_compute; reflexivity|].
  vm_compute. intros H. discriminate H.
Qed.


(** ** Cleaner: what the fill keeps *)

Lemma keeps_refl (r : row) : keeps r r.
Proof. induction r; constructor; auto. Qed.

Lemma keeps_trans (a b c : row) : keeps a b -> keeps b c -> keeps a c.
Proof.
  intros H. revert c. induction H as [|x y a b Hxy _ IH]; intros c Hc;
    inversion Hc as [|? z ? c' Hyz Hbc]; subst; constructor.
  - intros Hx. specialize (Hxy Hx). subst y. auto.
  - apply IH, Hbc.
Qed.

Lemma fill_row_keeps (p r : row) : keeps r (fill_row p r).
Proof.
  revert p. induction r as [|c r IH]; intros [|x p]; simpl.
  - constructor.
  - constructor.
  - apply keeps_refl.
  - constructor; [|apply IH]. intros Hc. rewrite Hc. reflexivity.
Qed.

Lemma ffill_from_keeps (p : row) (rs : list row) :
  Forall2 keeps rs (ffill_from p rs).
Proof.
  revert p. induction rs as [|r rs IH]; intros p; simpl; constructor.
  - apply fill_row_keeps.
  - apply IH.
Qed.

Lemma ffill_keeps (rs : list row) : Forall2 keeps rs (ffill rs).
Proof.
  destruct rs as [|r rs]; simpl; constructor.
  - apply keeps_refl.
  - apply ffill_from_keeps.
Qed.

Lemma Forall2_rev (A B : Type) (R : A -> B -> Prop) (l : list A) (l' : list B) :
  Forall2 R l l' -> Forall2 R (rev l) (rev l').
Proof.
  induction 1 as [|x y l l' Hxy _ IH]; simpl; [constructor|].
  apply Forall2_app; [exact IH|]. constructor; [exact Hxy|constructor].
Qed.

Lemma bfill_keeps (rs : list row) : Forall2 keeps rs (bfill rs).
Proof.
  unfold bfill. rewrite <- (rev_involutive rs) at 1.
  apply Forall2_rev, ffill_keeps.
Qed.

Lemma Forall2_trans (A : Type) (R : A -> A -> Prop) (l1 l2 l3 : list A) :
  (forall a b c, R a b -> R b c -> R a c) ->
  Forall2 R l1 l2 -> Forall2 R l2 l3 -> Forall2 R l1 l3.
Proof.
  intros HR H. revert l3. induction H as [|x y l l' Hxy _ IH]; intros l3 H3;
    inversion H3; subst; constructor; eauto.
Qed.

(** Positions instead of names: the cell at position [j] of every row. *)
Lemma fill_row_at (P : cell -> Prop) (j : nat) (p r : row) :
  List.length p = List.length r ->
  P (nth j p Null) -> P (nth j r Null) -> P (nth j (fill_row p r) Null).
Proof.
  revert p j. induction r as [|c r IH]; intros [|x p] [|j]; simpl;
    try discriminate; auto.
  intros _ Hx Hc. destruct (isnull c); assumption.
Qed.

Lemma ffill_from_at (P : cell -> Prop) (n j : nat) (p : row) (rs : list row) :
  List.length p = n -> Forall (fun r => List.length r = n) rs ->
  P (nth j p Null) -> Forall (fun r => P (nth j r Null)) rs ->
  Forall (fun r => P (nth j r Null)) (ffill_from p rs).
Proof.
  revert p. induction rs as [|r rs IH]; intros p Hp Hlen Pp Prs; simpl;
    [constructor|].
  apply Forall_cons_iff in Hlen. destruct Hlen as [Hr Hlen].
  apply Forall_cons_iff in Prs. destruct Prs as [Pr Prs].
  assert (P (nth j (fill_row p r) Null))
    by (apply fill_row_at; auto; congruence).
  constructor; [assumption|].
  apply IH; auto. rewrite fill_row_length. exact Hr.
Qed.

Lemma ffill_at (P : cell -> Prop) (n j : nat) (rs : list row) :
  Forall (fun r => List.length r = n) rs ->
  Forall (fun r => P (nth j r Null)) rs ->
  Forall (fun r => P (nth j r Null)) (ffill rs).
Proof.
  intros Hlen H. destruct rs as [|r rs]; simpl; [constructor|].
  apply Forall_cons_iff in Hlen. destruct Hlen as [Hr Hlen].
  apply Forall_cons_iff in H. destruct H as [Pr Prs].
  constructor; [assumption|]. apply ffill_from_at with (n := n); auto.
Qed.

Lemma bfill_at (P : cell -> Prop) (n j : nat) (rs : list row) :
  Forall (fun r => List.length r = n) rs ->
  Forall (fun r => P (nth j r Null)) rs ->
  Forall (fun r => P (nth j r Null)) (bfill rs).
Proof.
  intros Hlen H. unfold bfill. apply Forall_rev.
  apply ffill_at with (n := n); apply Forall_rev; assumption.
Qed.

Lemma well_formed_lengths (df : DataFrame) :
  well_formed df ->
  Forall (fun r => List.length r = List.length (columns df)) (rows df).
Proof.
  intros H. eapply Forall_impl; [|exact H]. simpl. intros r Hr.
  symmetry. eapply Forall2_length, Hr.
Qed.

Lemma fill_keeps (rs : list row) : Forall2 keeps rs (bfill (ffill rs)).
Proof.
  eapply Forall2_trans; [exact keeps_trans|apply ffill_keeps|apply bfill_keeps].
Qed.

(** X1.  Filling the missing values (forward, then backward) keeps the
    number of rows and every cell that has a value: only missing cells
    change. *)
Theorem fill_missing_keeps_values (df : DataFrame) :
  columns (fill_missing df) = columns df /\
  List.length (rows (fill_missing df)) = List.length (rows df) /\
  Forall2 keeps (rows df) (rows (fill_missing df)).
Proof.
  pose proof (fill_keeps (rows df)) as H.
  split; [reflexivity|]. split; [|exact H].
  symmetry. eapply Forall2_length, H.
Qed.

(** X2.  After the fill of a table whose rows have one cell per column, a
    column that had a value somewhere has no missing cell left, and a column
    that had none is still wholly missing. *)
Theorem fill_missing_full_or_empty (df : DataFrame) (j : nat) :
  well_formed df ->
  ((exists r, In r (rows df) /\ isnull (nth j r Null) = false) ->
   Forall (fun r => isnull (nth j r Null) = false) (rows (fill_missing df))) /\
  (Forall (fun r => nth j r Null = Null) (rows df) ->
   Forall (fun r => nth j r Null = Null) (rows (fill_missing df))).
Proof.
  intros Hwf. pose proof (well_formed_lengths Hwf) as Hlen. split.
  - intros (r & Hin & Hr).
    destruct (@bfill_ffill_uniform (List.length (columns df)) (rows df) Hlen)
      as [pat Hpat].
    pose proof (fill_keeps (rows df)) as Hk.
    change (rows (fill_missing df)) with (bfill (ffill (rows df))).
    (* the filled copy of [r] has a value at [j] *)
    apply In_nth_error in Hin. destruct Hin as [i Hi].
    destruct (@nth_error_Forall2 _ _ _ _ _ _ _ Hk Hi) as (r' & Hi' & Hkr).
    assert (Hr' : isnull (nth j r' Null) = false).
    { clear - Hkr Hr. revert j Hr. induction Hkr as [|c c' r r' Hc _ IH];
        intros [|j] Hr; simpl in *; try discriminate.
      - rewrite (Hc Hr). exact Hr.
      - apply IH, Hr. }
    assert (Hp : map isnull r' = pat).
    { apply nth_error_In in Hi'. eapply Forall_forall in Hpat; eauto. }
    apply Forall_forall. intros x Hx.
    eapply Forall_forall in Hpat; [|exact Hx].
    assert (E : isnull (nth j x Null) = nth j (map isnull x) true).
    { change true with (isnull Null). symmetry. apply map_nth. }
    assert (E' : isnull (nth j r' Null) = nth j (map isnull r') true).
    { change true with (isnull Null). symmetry. apply map_nth. }
    rewrite E, Hpat, <- Hp, <- E'. exact Hr'.
  - intros H. unfold fill_missing. simpl.
    apply (@bfill_at (fun c => c = Null) (List.length (columns df)) j).
    + apply ffill_length, Hlen.
    + apply (@ffill_at (fun c => c = Null) (List.length (columns df)) j);
        assumption.
Qed.

Lemma fill_missing_full_or_empty_witness :
  Forall (fun r => isnull (nth 0 r Null) = false)
         (rows (fill_missing updates_sample)) /\
  rows (fill_missing updates_sample)
  = [[Num 685501; Str "2024-01-15"; Num 3];
     [Num 685501; Str "2024-01-15"; Num 7];
     [Num 403001; Str "2024-02-01"; Num 7];
     [Num 685501; Str "2024-01-15"; Num 3]].
Proof.
  split; [|reflexivity].
  assert (Hwf : well_formed updates_sample) by (repeat constructor).
  apply (proj1 (@fill_missing_full_or_empty updates_sample 0 Hwf)).
  exists [Num 685501; Str "2024-01-15"; Num 3]. split; [left|]; reflexivity.
Defined.

(** ** Cleaner: what the cleaned table looks like *)

Lemma ForallOrdPairs_filter (A : Type) (R : A -> A -> Prop) (f : A -> bool)
  (l : list A) :
  ForallOrdPairs R l -> ForallOrdPairs R (filter f l).
Proof.
  induction 1 as [|a l Ha _ IH]; simpl; [constructor|].
  destruct (f a); [|exact IH]. constructor; [|exact IH].
  apply Forall_forall. intros x Hx. apply filter_In in Hx.
  eapply Forall_forall in Ha; [exact Ha|tauto].
Qed.

Lemma drop_duplicates_distinct (rs : list row) :
  distinct_rows (drop_duplicates rs).
Proof.
  unfold distinct_rows. induction rs as [|r rs IH]; simpl; constructor.
  - apply Forall_forall. intros x Hx. apply filter_In in Hx.
    destruct Hx as [_ Hx]. apply negb_true_iff in Hx. exact Hx.
  - apply ForallOrdPairs_filter, IH.
Qed.

Lemma drop_duplicates_covers (rs : list row) (r : row) :
  In r rs -> exists r', In r' (drop_duplicates rs) /\ row_eqb r' r = true.
Proof.
  induction rs as [|x rs IH]; simpl; [tauto|].
  intros [<-|Hin].
  - exists x. split; [left; reflexivity|apply row_eqb_refl].
  - destruct (IH Hin) as (r' & Hr' & E).
    destruct (row_eqb x r') eqn:Ex.
    + exists x. split; [left; reflexivity|].
      eapply row_eqb_trans; eassumption.
    + exists r'. split; [|exact E]. right. apply filter_In.
      split; [exact Hr'|]. rewrite Ex. reflexivity.
Qed.

Lemma filter_length_le (A : Type) (f : A -> bool) (l : list A) :
  (List.length (filter f l) <= List.length l)%nat.
Proof.
  induction l as [|a l IH]; simpl; [lia|]. destruct (f a); simpl; lia.
Qed.

Lemma drop_duplicates_length (rs : list row) :
  (List.length (drop_duplicates rs) <= List.length rs)%nat.
Proof.
  induction rs as [|r rs IH]; simpl; [lia|].
  pose proof (filter_length_le (fun x => negb (row_eqb r x)) (drop_duplicates rs)).
  lia.
Qed.

(** X3.  [clean_demographic_data] and [clean_biometric_data] raise
    [ValueError] when their table is not loaded and nothing otherwise.  The
    table they return has the header of the input, no more rows than the
    input, no two equal rows, and for every filled and converted input row an
    equal row; it replaces the table of the pipeline and the other two tables
    stay as they are. *)
Theorem cleaned_table_has_no_duplicates
  (strptime : string -> option Z) (epoch : Q -> option Z)
  (self : AadhaarDataPipeline) :
  (demographic_df self = None ->
   clean_demographic_data strptime epoch self
   = Raise (ValueError "Demographic data not loaded")) /\
  (biometric_df self = None ->
   clean_biometric_data strptime epoch self
   = Raise (ValueError "Biometric data not loaded")) /\
  (forall df, demographic_df self = Some df ->
     exists out,
       clean_demographic_data strptime epoch self
       = Ok (out, set_demographic_df self out) /\
       columns out = columns df /\
       (List.length (rows out) <= List.length (rows df))%nat /\
       distinct_rows (rows out) /\
       forall r, In r (rows (convert_dates strptime epoch (fill_missing df))) ->
                 exists r', In r' (rows out) /\ row_eqb r' r = true) /\
  (forall df, biometric_df self = Some df ->
     exists out,
       clean_biometric_data strptime epoch self
       = Ok (out, set_biometric_df self out) /\
       columns out = columns df /\
       (List.length (rows out) <= List.length (rows df))%nat /\
       distinct_rows (rows out) /\
       forall r, In r (rows (convert_dates strptime epoch (fill_missing df))) ->
                 exists r', In r' (rows out) /\ row_eqb r' r = true).
Proof.
  assert (Hshape : forall df,
    let out := cleaned strptime epoch df in
    columns out = columns df /\
    (List.length (rows out) <= List.length (rows df))%nat /\
    distinct_rows (rows out) /\
    forall r, In r (rows (convert_dates strptime epoch (fill_missing df))) ->
              exists r', In r' (rows out) /\ row_eqb r' r = true).
  { intros df. cbv zeta. unfold cleaned, remove_duplicates. cbn [columns rows].
    split; [reflexivity|]. split; [|split].
    - eapply Nat.le_trans; [apply drop_duplicates_length|].
      unfold convert_dates. cbn [rows]. rewrite length_map.
      pose proof (Forall2_length (fill_keeps (rows df))) as L.
      unfold fill_missing. cbn [rows]. lia.
    - apply drop_duplicates_distinct.
    - intros r Hr. apply drop_duplicates_covers, Hr. }
  split; [|split; [|split]].
  - intros E. unfold clean_demographic_data. rewrite E. reflexivity.
  - intros E. unfold clean_biometric_data. rewrite E. reflexivity.
  - intros df E. exists (cleaned strptime epoch df).
    split; [unfold clean_demographic_data; rewrite E; reflexivity|].
    apply Hshape.
  - intros df E. exists (cleaned strptime epoch df).
    split; [unfold clean_biometric_data; rewrite E; reflexivity|].
    apply Hshape.
Qed.

Lemma cleaned_table_witness :
  exists out,
    clean_demographic_data iso_date epoch_ns (pipeline_of updates_sample)
    = Ok (out, set_demographic_df (pipeline_of updates_sample) out) /\
    columns out = columns updates_sample /\
    (List.length (rows out) <= List.length (rows updates_sample))%nat /\
    distinct_rows (rows out).
Proof.
  destruct (proj1 (proj2 (proj2 (@cleaned_table_has_no_duplicates
              iso_date epoch_ns (pipeline_of updates_sample))))
              updates_sample eq_refl) as (out & E & Hc & Hl & Hd & _).
  exists out. auto.
Defined.


(** ** Merger *)

Lemma Forall2_True_length (A B : Type) (l : list A) (l' : list B) :
  Forall2 (fun _ _ => True) l l' <-> List.length l = List.length l'.
Proof.
  split; [apply Forall2_length|].
  revert l'. induction l as [|a l IH]; intros [|b l']; simpl; try discriminate;
    constructor; auto.
Qed.

Lemma non_key_length (cols on : list string) (r : row) :
  List.length r = List.length cols ->
  List.length (non_key cols on r)
  = List.length (filter (fun c => negb (mem c on)) cols).
Proof.
  unfold non_key. rewrite length_map. revert r.
  induction cols as [|c cols IH]; intros [|x r]; simpl; try discriminate; auto.
  intros H. destruct (negb (mem c on)); simpl; rewrite IH; auto.
Qed.

Lemma join_row_length (left right : DataFrame) (on : list string) (l : row) :
  List.length (join_row left right on l)
  = Nat.max 1 (List.length (matches left right on l)).
Proof.
  unfold join_row. destruct (matches left right on l) as [|m ms]; [reflexivity|].
  rewrite length_map. simpl. reflexivity.
Qed.

Lemma join_row_prefix (left right : DataFrame) (on : list string) (l m : row) :
  In m (join_row left right on l) -> firstn (List.length l) m = l.
Proof.
  unfold join_row. destruct (matches left right on l) as [|x ms].
  - intros [<-|[]]. rewrite firstn_app, Nat.sub_diag, firstn_all. simpl.
    apply app_nil_r.
  - intros H. apply in_map_iff in H. destruct H as (r & <- & _).
    rewrite firstn_app, Nat.sub_diag, firstn_all. simpl. apply app_nil_r.
Qed.

Lemma join_row_width (left right : DataFrame) (on : list string) (l m : row) :
  well_formed right ->
  In m (join_row left right on l) ->
  List.length m = (List.length l + List.length (right_columns right on))%nat.
Proof.
  intros Hwf. unfold join_row, matches.
  destruct (filter _ (rows right)) as [|x ms] eqn:E.
  - intros [<-|[]]. rewrite length_app, repeat_length. reflexivity.
  - intros H. apply in_map_iff in H. destruct H as (r & <- & Hr).
    rewrite length_app. f_equal. apply non_key_length.
    assert (Hin : In r (rows right)).
    { rewrite <- E in Hr. apply filter_In in Hr. tauto. }
    apply well_formed_lengths in Hwf. eapply Forall_forall in Hwf; eauto.
Qed.

(** X4.  The left join of [merge], for two tables with distinct column
    names and one or more distinct join keys.  When a join key is missing from one of the
    two headers, [KeyError] is raised for such a key.  When all are there and
    one of them has two different kinds in the two tables (numbers against
    text, timestamps against either), [ValueError] is raised.  When every
    join key has one kind on both sides and the merged header repeats no
    name, the merge returns a table in which every row of
    the left table appears, in order, once per matching row of the right
    table and once when nothing matches: no left row is lost, every merged
    row begins with a left row, and tables whose rows fit their headers give
    a table whose rows fit its header. *)
Theorem left_merge_keeps_left_rows (left right : DataFrame) (on : list string)
  (lsuffix rsuffix : string) :
  NoDup (columns left) -> NoDup (columns right) -> NoDup on -> on <> [] ->
  ((exists k, In k on /\ mem k (columns left) && mem k (columns right) = false) ->
   exists k, In k on /\ mem k (columns left) && mem k (columns right) = false /\
             merge left right on lsuffix rsuffix = Raise (KeyError k)) /\
  ((forall k, In k on -> mem k (columns left) && mem k (columns right) = true) ->
   (exists k, In k on /\ kinds_clash left right k = true) ->
   exists msg, merge left right on lsuffix rsuffix = Raise (ValueError msg)) /\
  (keys_comparable left right on = true ->
   NoDup (merged_columns left right on lsuffix rsuffix) ->
   exists merged,
     merge left right on lsuffix rsuffix = Ok merged /\
     List.length (columns merged)
     = (List.length (columns left) + List.length (right_columns right on))%nat /\
     List.length (rows merged)
     = list_sum (map (fun l => Nat.max 1 (List.length (matches left right on l)))
                     (rows left)) /\
     (List.length (rows left) <= List.length (rows merged))%nat /\
     Forall (fun m => exists l, In l (rows left) /\ firstn (List.length l) m = l)
            (rows merged) /\
     Forall (fun l => exists m, In m (rows merged) /\ firstn (List.length l) m = l)
            (rows left) /\
     (well_formed left -> well_formed right -> well_formed merged)).
Proof.
  intros _ _ _ _. unfold merge. split; [|split].
  - intros (k & Hk & Hmiss).
    destruct (find _ on) as [k'|] eqn:E.
    + apply find_some in E. destruct E as [Hin E]. apply negb_true_iff in E.
      exists k'. auto.
    + pose proof (find_none _ _ E k Hk) as H. simpl in H.
      rewrite Hmiss in H. discriminate.
  - intros Hall (k & Hk & Hclash).
    destruct (find _ on) as [k'|] eqn:E.
    { apply find_some in E. destruct E as [Hin E].
      rewrite (Hall k' Hin) in E. discriminate. }
    replace (existsb (kinds_clash left right) on) with true.
    + eexists. reflexivity.
    + symmetry. apply existsb_exists. exists k. auto.
  - intros Hcmp _.
    assert (Hall : forall k, In k on ->
                     mem k (columns left) && mem k (columns right) = true).
    { intros k Hk. unfold keys_comparable in Hcmp.
      eapply forallb_forall in Hcmp; [|exact Hk].
      destruct (get_column left k) as [l|] eqn:El; [|discriminate].
      destruct (get_column right k) as [r|] eqn:Er; [|discriminate].
      apply get_column_Ok in El, Er. unfold has_column in El, Er.
      unfold mem. rewrite El, Er. reflexivity. }
    destruct (find _ on) as [k'|] eqn:E.
    { apply find_some in E. destruct E as [Hin E].
      rewrite (Hall k' Hin) in E. discriminate. }
    replace (existsb (kinds_clash left right) on) with false.
    2:{ symmetry. apply not_true_is_false. intros Hex.
        apply existsb_exists in Hex. destruct Hex as (k & Hk & Hclash).
        unfold keys_comparable in Hcmp.
        eapply forallb_forall in Hcmp; [|exact Hk].
        unfold kinds_clash in Hclash.
        destruct (get_column left k); [|discriminate].
        destruct (get_column right k); [|discriminate].
        destruct (column_kind a); [|discriminate].
        destruct (column_kind a0); [|discriminate].
        rewrite Hcmp in Hclash. discriminate. }
    eexists. split; [reflexivity|]. cbn [columns rows].
    assert (Hlen : List.length (flat_map (join_row left right on) (rows left))
                   = list_sum (map (fun l => Nat.max 1
                                       (List.length (matches left right on l)))
                                   (rows left))).
    { induction (rows left) as [|l ls IH]; [reflexivity|].
      cbn [flat_map map]. unfold list_sum in *. cbn [fold_right].
      rewrite length_app, join_row_length, IH. reflexivity. }
    split; [|split; [exact Hlen|split; [|split; [|split]]]].
    + unfold merged_columns. rewrite length_app, !length_map. reflexivity.
    + rewrite Hlen. clear. induction (rows left) as [|l ls IH]; [simpl; lia|].
      cbn [map List.length]. unfold list_sum in *. cbn [fold_right].
      pose proof (Nat.le_max_l 1 (List.length (matches left right on l))). lia.
    + apply Forall_forall. intros m Hm. apply in_flat_map in Hm.
      destruct Hm as (l & Hl & Hm). exists l. split; [exact Hl|].
      eapply join_row_prefix, Hm.
    + apply Forall_forall. intros l Hl.
      assert (Hne : join_row left right on l <> []).
      { intros En. pose proof (join_row_length left right on l) as L.
        rewrite En in L. cbn [List.length] in L.
        pose proof (Nat.le_max_l 1 (List.length (matches left right on l))).
        lia. }
      destruct (join_row left right on l) as [|m ms] eqn:Ej; [congruence|].
      exists m. split.
      * apply in_flat_map. exists l. split; [exact Hl|]. rewrite Ej. left.
        reflexivity.
      * apply (@join_row_prefix left right on l m). rewrite Ej. left. reflexivity.
    + intros Hl Hr. unfold well_formed, rows_satisfy. cbn [columns rows].
      apply Forall_forall. intros m Hm. apply Forall2_True_length.
      apply in_flat_map in Hm. destruct Hm as (l & Hin & Hm).
      rewrite (@join_row_width left right on l m Hr Hm).
      unfold merged_columns. rewrite length_app, !length_map. f_equal.
      apply well_formed_lengths in Hl. eapply Forall_forall in Hl; eauto.
Qed.

Lemma left_merge_witness :
  exists merged,
    merge enrolment_sample demographic_counts ["State"; "District"; "Pin Code"]
          "_enrol" "_demo" = Ok merged /\
    List.length (rows merged) = 4%nat /\
    (List.length (rows enrolment_sample) <= List.length (rows merged))%nat /\
    well_formed merged /\
    exists msg,
      merge enrolment_sample demographic_text_pin ["State"; "District"; "Pin Code"]
            "_enrol" "_demo" = Raise (ValueError msg).
Proof.
  assert (Hclash : exists msg,
             merge enrolment_sample demographic_text_pin
                   ["State"; "District"; "Pin Code"] "_enrol" "_demo"
             = Raise (ValueError msg)).
  { destruct (@left_merge_keeps_left_rows enrolment_sample demographic_text_pin
                ["State"; "District"; "Pin Code"] "_enrol" "_demo")
      as [_ [H _]].
    - repeat constructor; simpl; intuition discriminate.
    - repeat constructor; simpl; intuition discriminate.
    - repeat constructor; simpl; intuition discriminate.
    - discriminate.
    - apply H.
      + intros k [<-|[<-|[<-|[]]]]; reflexivity.
      + exists "Pin Code". split; [simpl; auto|reflexivity]. }
  destruct (@left_merge_keeps_left_rows enrolment_sample demographic_counts
              ["State"; "District"; "Pin Code"] "_enrol" "_demo") as [_ [_ H]].
  - repeat constructor; simpl; intuition discriminate.
  - repeat constructor; simpl; intuition discriminate.
  - repeat constructor; simpl; intuition discriminate.
  - discriminate.
  - destruct H as (merged & E & _ & Hn & Hle & _ & _ & Hwf).
    + reflexivity.
    + repeat constructor; simpl; intuition discriminate.
    + exists merged. split; [exact E|]. split; [exact Hn|]. split; [exact Hle|].
      split; [apply Hwf; repeat constructor|exact Hclash].
Defined.

(** ** Migration indicators: the returned table *)

Lemma migration_risk_in_range (Update_Rate : list float64) :
  Forall (in_range 0 100) (_calculate_migration_risk Update_Rate).
Proof.
  rewrite migration_risk_rows. cbv zeta.
  set (ur := fillna (Finite 0) Update_Rate).
  assert (Hnn : Forall (fun x => isnan x = false) ur)
    by (apply fillna_nonnan; reflexivity).
  apply Forall_map, Forall_forall. intros u Hu.
  assert (Hne : ur <> []) by (intros E; rewrite E in Hu; destruct Hu).
  apply risk_row_range.
  - apply series_min_nonnan; assumption.
  - eapply Forall_forall in Hnn; eauto.
  - apply series_max_nonnan; assumption.
  - apply series_min_le; assumption.
  - apply series_max_ge; assumption.
Qed.

Lemma migration_risk_length (Update_Rate : list float64) :
  List.length (_calculate_migration_risk Update_Rate) = List.length Update_Rate.
Proof.
  unfold _calculate_migration_risk, fillna. rewrite !length_map. reflexivity.
Qed.





(** ** Aggregator: totals *)

Lemma numeric_total_app (l l' : list cell) :
  numeric_total (l ++ l') == numeric_total l + numeric_total l'.
Proof.
  induction l as [|c l IH]; simpl; [lra|].
  destruct c; simpl; lra.
Qed.

Lemma numeric_total_text (l : list cell) :
  forallb is_str l = true -> numeric_total l = 0.
Proof.
  induction l as [|c l IH]; simpl; [reflexivity|].
  destruct c; simpl; try discriminate. exact IH.
Qed.

(** The number in the sum of a group is the total of its numbers. *)
Lemma group_sum_total (vs : list cell) (v : cell) :
  group_sum vs = Ok v -> numeric_total [v] == numeric_total vs.
Proof.
  unfold group_sum. rewrite <- (numeric_total_present vs).
  destruct (forallb is_num _).
  - intros H. injection H as <-. simpl. lra.
  - destruct (forallb is_str _) eqn:E; [|discriminate].
    intros H. injection H as <-. rewrite (numeric_total_text _ E). simpl. lra.
Qed.

Lemma group_key_width (State District : list cell) (k : row) :
  In k (group_keys (map (fun sd => [fst sd; snd sd]) (combine State District))) ->
  List.length k = 2%nat.
Proof.
  intros H. apply group_keys_In in H. destruct H as [H _].
  apply in_map_iff in H. destruct H as [sd [<- _]]. reflexivity.
Qed.

Lemma sums_total (n : nat) (keys : list row) (values : list cell)
  (groups sums : list row) :
  Forall (fun k => List.length k = n) groups ->
  Forall2 (fun k r => (v <- group_sum (group_values keys values k) ;;
                       Ok (k ++ [v])%list) = Ok r) groups sums ->
  numeric_total (column_at n sums)
  == Qsum (map (fun k => numeric_total (group_values keys values k)) groups).
Proof.
  intros Hw H. induction H as [|k r groups sums Hk H IH]; [simpl; lra|].
  apply Forall_cons_iff in Hw. destruct Hw as [Hk2 Hw].
  destruct (group_sum (group_values keys values k)) as [v|e] eqn:E;
    [|discriminate].
  cbn [bind] in Hk. injection Hk as <-.
  cbn [column_at map Qsum fold_right].
  unfold column_at in IH. fold (Qsum (map (fun k => numeric_total
                                   (group_values keys values k)) groups)).
  rewrite <- Hk2 at 1. rewrite nth_middle.
  pose proof (group_sum_total _ E) as Hv. specialize (IH Hw).
  change (numeric_total (v :: ?l)) with (numeric_total ([v] ++ l)%list).
  pose proof (numeric_total_app [v]
                (map (fun r => nth n r Null) sums)) as Happ.
  lra.
Qed.

Lemma Qsum_count (f : row -> bool) (q : Q) (ks : list row) :
  Qsum (map (fun k => if f k then q else 0) ks)
  == inject_Z (Z.of_nat (List.length (filter f ks))) * q.
Proof.
  induction ks as [|k ks IH]; simpl; [unfold inject_Z; lra|].
  destruct (f k); cbn [List.length]; [|lra].
  rewrite Nat2Z.inj_succ. unfold Z.succ. rewrite inject_Z_plus.
  change (inject_Z 1) with 1. rewrite IH. ring.
Qed.

Lemma Qsum_plus (A : Type) (f g : A -> Q) (l : list A) :
  Qsum (map (fun a => f a + g a) l) == Qsum (map f l) + Qsum (map g l).
Proof. induction l as [|a l IH]; simpl; lra. Qed.

Lemma Qsum_ext (A : Type) (f g : A -> Q) (l : list A) :
  (forall a, f a == g a) -> Qsum (map f l) == Qsum (map g l).
Proof.
  intros H. induction l as [|a l IH]; simpl; [lra|].
  pose proof (H a). lra.
Qed.

Lemma Qsum_zero (A : Type) (l : list A) : Qsum (map (fun _ => 0) l) == 0.
Proof. induction l as [|a l IH]; simpl; lra. Qed.

(** Every row with a complete key belongs to exactly one group and a row
    with a missing key cell to none: the groups' totals add up to the total
    of the keyed rows. *)
Lemma groups_partition (keys : list row) (kvs : list (row * cell)) :
  Forall (fun kv => In (fst kv) keys) kvs ->
  Qsum (map (fun k => numeric_total
                        (map snd (filter (fun kv => row_eqb k (fst kv)) kvs)))
            (group_keys keys))
  == numeric_total
       (map snd (filter (fun kv => negb (has_null (fst kv))) kvs)).
Proof.
  induction kvs as [|[key v] kvs IH]; intros Hin.
  - simpl. apply Qsum_zero.
  - apply Forall_cons_iff in Hin. destruct Hin as [Hkey Hin]. cbn [fst] in Hkey.
    specialize (IH Hin).
    pose proof (@Qsum_ext _
      (fun k => numeric_total
                  (map snd (filter (fun kv => row_eqb k (fst kv))
                                   ((key, v) :: kvs))))
      (fun k => (if row_eqb key k then numeric_total [v] else 0)
                + numeric_total
                    (map snd (filter (fun kv => row_eqb k (fst kv)) kvs)))
      (group_keys keys)) as Hext.
    assert (Hstep : forall k,
      numeric_total (map snd (filter (fun kv => row_eqb k (fst kv))
                                     ((key, v) :: kvs)))
      == (if row_eqb key k then numeric_total [v] else 0)
         + numeric_total (map snd (filter (fun kv => row_eqb k (fst kv)) kvs))).
    { intros k. cbn [filter fst]. rewrite (row_eqb_sym key k).
      destruct (row_eqb k key); [|lra].
      cbn [map snd].
      apply (numeric_total_app [v]). }
    specialize (Hext Hstep).
    pose proof (@Qsum_plus _
      (fun k => if row_eqb key k then numeric_total [v] else 0)
      (fun k => numeric_total
                  (map snd (filter (fun kv => row_eqb k (fst kv)) kvs)))
      (group_keys keys)) as Hplus.
    pose proof (@Qsum_count (row_eqb key) (numeric_total [v]) (group_keys keys))
      as Hcount.
    cbv beta in Hext, Hplus.
    cbn [filter fst] in Hext |- *.
    destruct (has_null key) eqn:Hn; cbn [negb].
    + rewrite filter_none in Hcount.
      * change (inject_Z (Z.of_nat (List.length (@nil row)))) with 0 in Hcount.
        lra.
      * intros k Hk. apply group_keys_In in Hk. destruct Hk as [_ Hk].
        destruct (row_eqb key k) eqn:E; [|reflexivity].
        apply row_eqb_has_null in E. congruence.
    + rewrite group_keys_count in Hcount by exact Hn.
      replace (existsb (row_eqb key) keys) with true in Hcount.
      * cbn [map snd].
        pose proof (numeric_total_app [v]
          (map snd (filter (fun kv => negb (has_null (fst kv))) kvs))) as Happ.
        change ([v] ++ ?l)%list with (v :: l) in Happ.
        change (inject_Z (Z.of_nat 1)) with 1 in Hcount. lra.
      * symmetry. apply existsb_exists. exists key. split; [exact Hkey|].
        apply row_eqb_refl.
Qed.

Lemma keyed_values_all (keys : list row) (values : list cell) :
  List.length keys = List.length values ->
  Forall (fun k => has_null k = false) keys ->
  keyed_values keys values = values.
Proof.
  unfold keyed_values. revert values.
  induction keys as [|k keys IH]; intros [|v values] Hl Hk; simpl in *;
    try discriminate; [reflexivity|].
  apply Forall_cons_iff in Hk. destruct Hk as [-> Hk]. simpl.
  rewrite IH; auto.
Qed.

(** X6.  On a table with distinct column names, a State and a District
    column, [aggregate_by_state_district] raises KeyError when [value_col] is
    not a column.  When [value_col] has exact sums and a table is returned,
    the numbers of its third column add up to the total of [value_col] over
    the input rows in which neither State nor District is missing: rows with
    a missing key are left out of the totals, and when no key is missing the
    grand total is kept. *)
Theorem aggregate_keeps_total_of_keyed_rows
  (df : DataFrame) (value_col : string) (State District : list cell) :
  NoDup (columns df) ->
  get_column df "State" = Ok State ->
  get_column df "District" = Ok District ->
  let keys := map (fun sd => [fst sd; snd sd]) (combine State District) in
  (has_column df value_col = false ->
   aggregate_by_state_district df value_col = Raise (KeyError value_col)) /\
  (forall values out,
      get_column df value_col = Ok values ->
      exact_counts values ->
      aggregate_by_state_district df value_col = Ok out ->
      numeric_total (column_at 2 (rows out))
      == numeric_total (keyed_values keys values) /\
      (Forall (fun k => has_null k = false) keys ->
       numeric_total (column_at 2 (rows out)) == numeric_total values)).
Proof.
  intros _ HS HD keys. split.
  - intros Hv. unfold aggregate_by_state_district.
    rewrite (get_column_Ok _ _ HS), (get_column_Ok _ _ HD). simpl.
    rewrite HS, HD, (get_column_KeyError _ _ Hv). reflexivity.
  - intros values out HV _ Hagg.
    unfold aggregate_by_state_district in Hagg.
    rewrite (get_column_Ok _ _ HS), (get_column_Ok _ _ HD) in Hagg.
    simpl in Hagg. rewrite HS, HD, HV in Hagg. cbn [bind] in Hagg.
    fold keys in Hagg.
    destruct (mapM _ (group_keys keys)) as [sums|e] eqn:Esums; [|discriminate].
    cbn [bind] in Hagg.
    destruct (String.eqb value_col "State" || String.eqb value_col "District");
      [discriminate|].
    injection Hagg as <-. cbn [rows].
    apply mapM_Ok in Esums.
    assert (Htot : numeric_total (column_at 2 sums)
                   == numeric_total (keyed_values keys values)).
    { assert (Hw : Forall (fun k => List.length k = 2%nat) (group_keys keys)).
      { apply Forall_forall. intros k Hk.
        apply (@group_key_width State District k Hk). }
      pose proof (@sums_total 2 keys values (group_keys keys) sums Hw Esums) as H1.
      assert (Hin : Forall (fun kv : row * cell => In (fst kv) keys)
                           (combine keys values)).
      { apply Forall_forall. intros [k v] Hin. apply in_combine_l in Hin.
        exact Hin. }
      pose proof (@groups_partition keys (combine keys values) Hin) as H2.
      exact (Qeq_trans _ _ _ H1 H2). }
    split; [exact Htot|].
    intros Hfull. rewrite keyed_values_all in Htot; [exact Htot| |exact Hfull].
    apply get_column_length in HS, HD, HV.
    unfold keys. rewrite length_map, length_combine. lia.
Qed.

Lemma aggregate_total_witness :
  exists out,
    aggregate_by_state_district enrolment_unlocated "Aadhaar Generated" = Ok out /\
    numeric_total (column_at 2 (rows out)) == 140 /\
    aggregate_by_state_district enrolment_unlocated "Enrolled"
    = Raise (KeyError "Enrolled").
Proof.
  assert (N : NoDup (columns enrolment_unlocated))
    by (repeat constructor; simpl; intuition discriminate).
  destruct (@aggregate_keeps_total_of_keyed_rows
              enrolment_unlocated "Aadhaar Generated" _ _ N eq_refl eq_refl)
    as [_ Htot].
  destruct (@aggregate_keeps_total_of_keyed_rows
              enrolment_unlocated "Enrolled" _ _ N eq_refl eq_refl)
    as [Herr _].
  destruct (aggregate_by_state_district enrolment_unlocated "Aadhaar Generated")
    as [out|e] eqn:E; [|vm_compute in E; discriminate E].
  exists out. split; [reflexivity|]. split.
  - assert (Hex : exact_counts [Num 100; Num 7; Num 40])
      by (split; [reflexivity|vm_compute; discriminate]).
    pose proof (proj1 (Htot _ out eq_refl Hex eq_refl)) as H.
    vm_compute numeric_total in H. vm_compute (numeric_total _) in H. exact H.
  - apply Herr. reflexivity.
Defined.


(** ** Biometric quality: failures and rows *)

Lemma mapM_length (A B : Type) (f : A -> result B) (l : list A) (ys : list B) :
  mapM f l = Ok ys -> List.length ys = List.length l.
Proof.
  intros H. apply mapM_Ok in H. symmetry. eapply Forall2_length; eauto.
Qed.

Lemma existsb_map_key (s : cell) (State : list cell) :
  existsb (row_eqb [s]) (map (fun s => [s]) State) = existsb (cell_eqb s) State.
Proof.
  induction State as [|c State IH]; [reflexivity|].
  cbn [map existsb]. rewrite IH. simpl. rewrite andb_true_r. reflexivity.
Qed.

(** X7.  [calculate_biometric_quality] raises ValueError when the biometric
    table is not loaded.  Without a State column it returns the empty table,
    whatever the other columns.  With a State column but without
    Update_Count or Age_Group it raises KeyError.  A table it returns for a
    table with a State column has the five columns State, Total_Updates,
    Avg_Updates, Individuals_Updated, Biometric_Coverage of one length; no
    State in it is missing, and a State that is not missing has exactly one
    row if it occurs in the input and none otherwise. *)
Theorem biometric_quality_rows_and_failures (self : AadhaarDataPipeline) :
  (biometric_df self = None ->
   calculate_biometric_quality self
   = Raise (ValueError "Biometric data not loaded")) /\
  (forall df, biometric_df self = Some df ->
     (has_column df "State" = false ->
      calculate_biometric_quality self = Ok []) /\
     (has_column df "State" = true ->
      has_column df "Update_Count" = false \/ has_column df "Age_Group" = false ->
      exists k, calculate_biometric_quality self = Raise (KeyError k)) /\
     (forall t State,
        get_column df "State" = Ok State ->
        calculate_biometric_quality self = Ok t ->
        exists States Total_Updates Avg_Updates Individuals_Updated
               Biometric_Coverage,
          t = [("State", Cells States);
               ("Total_Updates", Floats Total_Updates);
               ("Avg_Updates", Floats Avg_Updates);
               ("Individuals_Updated", Cells Individuals_Updated);
               ("Biometric_Coverage", Floats Biometric_Coverage)] /\
          List.length Total_Updates = List.length States /\
          List.length Avg_Updates = List.length States /\
          List.length Individuals_Updated = List.length States /\
          List.length Biometric_Coverage = List.length States /\
          Forall (fun s => isnull s = false) States /\
          forall s, isnull s = false ->
            List.length (filter (cell_eqb s) States)
            = if existsb (cell_eqb s) State then 1%nat else 0%nat)).
Proof.
  unfold calculate_biometric_quality. split.
  - intros ->. reflexivity.
  - intros df ->. split; [intros ->; reflexivity|]. split.
    + intros HS [H|H]; rewrite HS.
      * destruct (has_column_get _ _ HS) as [State ->].
        rewrite (get_column_KeyError _ _ H). cbn [bind]. eauto.
      * destruct (has_column_get _ _ HS) as [State ->].
        rewrite (get_column_KeyError _ _ H).
        destruct (has_column df "Update_Count") eqn:HU.
        -- destruct (has_column_get _ _ HU) as [Update_Count ->].
           cbn [bind]. eauto.
        -- rewrite (get_column_KeyError _ _ HU). cbn [bind]. eauto.
    + intros t State HS. rewrite (get_column_Ok _ _ HS), HS.
      destruct (get_column df "Update_Count") as [Update_Count|];
        [|discriminate].
      destruct (get_column df "Age_Group") as [Age_Group|]; [|discriminate].
      cbn [bind].
      set (keys := map (fun s => [s]) State).
      destruct (mapM _ (group_keys keys)) as [Total_Updates|] eqn:ET;
        [|discriminate].
      cbn [bind]. intros H. injection H as <-.
      apply mapM_length in ET.
      do 5 eexists. split; [reflexivity|].
      rewrite map2_length by (rewrite !length_map; congruence).
      rewrite !length_map, ET.
      split; [reflexivity|]. split; [reflexivity|]. split; [reflexivity|].
      split; [reflexivity|].
      assert (Hshape : forall k, In k (group_keys keys) ->
                exists s, k = [s] /\ isnull s = false).
      { intros k Hk. apply group_keys_In in Hk. destruct Hk as [Hin Hn].
        apply in_map_iff in Hin. destruct Hin as [s [<- _]].
        simpl in Hn. apply orb_false_iff in Hn. exists s. tauto. }
      split.
      * apply Forall_map, Forall_forall. intros k Hk.
        destruct (Hshape k Hk) as (s & -> & Hs). exact Hs.
      * intros s Hs. rewrite filter_map_length.
        assert (Hk : has_null [s] = false) by (simpl; rewrite Hs; reflexivity).
        rewrite <- (existsb_map_key s State).
        change (map (fun s => [s]) State) with keys.
        rewrite <- (@group_keys_count [s] keys Hk).
        apply (f_equal (@List.length row)). apply filter_ext_in. intros k Hin.
        destruct (Hshape k Hin) as (s' & -> & _). simpl.
        rewrite andb_true_r. reflexivity.
Qed.

Lemma biometric_quality_witness :
  calculate_biometric_quality (pipeline_of pincode_sample) = Ok [] /\
  (exists k, calculate_biometric_quality (pipeline_of enrolment_sample)
             = Raise (KeyError k)) /\
  exists t States,
    calculate_biometric_quality (pipeline_of biometric_sample) = Ok t /\
    table_column t "State" = Some (Cells States) /\
    List.length (filter (cell_eqb (Str "Kerala")) States) = 1%nat.
Proof.
  destruct (@biometric_quality_rows_and_failures (pipeline_of pincode_sample))
    as [_ H1].
  destruct (H1 _ eq_refl) as (Hempty & _ & _).
  split; [apply Hempty; reflexivity|].
  destruct (@biometric_quality_rows_and_failures (pipeline_of enrolment_sample))
    as [_ H2].
  destruct (H2 _ eq_refl) as (_ & Hkey & _).
  split; [apply Hkey; [reflexivity|left; reflexivity]|].
  destruct (@biometric_quality_rows_and_failures (pipeline_of biometric_sample))
    as [_ H3].
  destruct (H3 _ eq_refl) as (_ & _ & Hrows).
  destruct (calculate_biometric_quality (pipeline_of biometric_sample))
    as [t|e] eqn:E; [|vm_compute in E; discriminate E].
  destruct (Hrows t _ eq_refl eq_refl)
    as (States & T & A & I & C & -> & _ & _ & _ & _ & _ & Hcount).
  eexists. exists States. split; [reflexivity|]. split; [reflexivity|].
  apply (Hcount (Str "Kerala") eq_refl).
Defined.


(** ** Vulnerability sub-scores: order *)

Lemma Qdiv_le_mono (x y d : Q) : 0 < d -> x <= y -> x / d <= y / d.
Proof.
  intros Hd Hxy. unfold Qdiv. apply Qmult_le_compat_r; [exact Hxy|].
  apply Qlt_le_weak, Qinv_lt_0_compat, Hd.
Qed.

Lemma fillna_at (v : float64) (s : list float64) (i : nat) (x : float64) :
  nth_error s i = Some x ->
  nth_error (fillna v s) i = Some (if isnan x then v else x).
Proof.
  intros H. unfold fillna.
  exact (map_nth_error (fun x => if isnan x then v else x) _ _ H).
Qed.

Lemma subscore_at (f : float64 -> float64) (v : float64) (s : list float64)
  (i : nat) (x : float64) :
  nth_error s i = Some x ->
  nth_error (fillna v (map f s)) i = Some (if isnan (f x) then v else f x).
Proof. intros H. apply fillna_at. exact (map_nth_error f _ _ H). Qed.

Lemma column_bounds (xs : list float64) (i : nat) (a : Q) :
  Forall finite_or_nan xs -> nth_error xs i = Some (Finite a) ->
  exists lo hi, series_min xs = Finite lo /\ series_max xs = Finite hi /\
                lo <= a /\ a <= hi.
Proof.
  intros Hf Hi. apply nth_error_In in Hi.
  destruct (@series_bounds finite_or_nan xs a Hf Hi (fun x H => H))
    as (lo & hi & H1 & H2 & H3 & H4 & _).
  exists lo, hi. auto.
Qed.



(** ** Vulnerable populations *)

Lemma insert_descending_perm (A : Type) (key : A -> float64) (x : A)
  (l : list A) :
  Permutation (insert_descending key x l) (x :: l).
Proof.
  induction l as [|y l IH]; simpl; [apply Permutation_refl|].
  destruct (fltb (key x) (key y)); [|apply Permutation_refl].
  eapply Permutation_trans; [apply perm_skip, IH|apply perm_swap].
Qed.

Lemma sort_descending_perm (A : Type) (key : A -> float64) (l : list A) :
  Permutation (sort_descending key l) l.
Proof.
  induction l as [|x l IH]; simpl; [apply perm_nil|].
  eapply Permutation_trans; [apply insert_descending_perm|].
  apply perm_skip, IH.
Qed.

Lemma fltb_false_trans (x y z : float64) :
  isnan y = false ->
  fltb x y = false -> fltb y z = false -> fltb x z = false.
Proof. destruct x, y, z; fl_cases. Qed.

Lemma insert_descending_sorted (A : Type) (key : A -> float64) (x : A)
  (l : list A) :
  isnan (key x) = false ->
  Forall (fun y => isnan (key y) = false) l ->
  StronglySorted (fun a b => fle (key b) (key a)) l ->
  StronglySorted (fun a b => fle (key b) (key a)) (insert_descending key x l).
Proof.
  unfold fle. intros Hx Hl Hs. induction Hs as [|y l Hs IH Hy]; simpl.
  - constructor; constructor.
  - apply Forall_cons_iff in Hl. destruct Hl as [Hny Hl].
    destruct (fltb (key x) (key y)) eqn:E.
    + constructor; [apply IH, Hl|].
      apply (Permutation_Forall
               (Permutation_sym (insert_descending_perm key x l))).
      constructor; [apply fltb_asym, E|exact Hy].
    + constructor; [constructor; assumption|].
      constructor; [exact E|].
      eapply Forall_impl; [|exact Hy]. cbv beta. intros z Hz.
      apply (@fltb_false_trans _ (key y)); assumption.
Qed.

Lemma sort_descending_sorted (A : Type) (key : A -> float64) (l : list A) :
  Forall (fun y => isnan (key y) = false) l ->
  StronglySorted (fun a b => fle (key b) (key a)) (sort_descending key l).
Proof.
  induction 1 as [|x l Hx Hl IH]; simpl; [constructor|].
  apply insert_descending_sorted; [exact Hx| |exact IH].
  apply (Permutation_Forall (Permutation_sym (sort_descending_perm key l))), Hl.
Qed.

Lemma fgeb_nonnan (x t : float64) : fgeb x t = true -> isnan x = false.
Proof.
  unfold fgeb. intros H. apply andb_true_iff in H. destruct H as [H _].
  apply andb_true_iff in H. destruct H as [H _].
  apply negb_true_iff in H. exact H.
Qed.

(** The labelled rows of a table: row [i] under label [i] with its score. *)
Lemma scored_In (k : nat) (rs : list row) (scores : list float64)
  (i : nat) (r : row) (s : float64) :
  In (i, r, s) (combine (combine (seq k (List.length rs)) rs) scores) <->
  (k <= i)%nat /\ nth_error rs (i - k) = Some r /\
  nth_error scores (i - k) = Some s.
Proof.
  revert k scores. induction rs as [|r0 rs IH]; intros k scores.
  - simpl. split; [tauto|]. intros (_ & H & _).
    destruct (i - k)%nat; discriminate.
  - destruct scores as [|s0 scores].
    + simpl. split; [tauto|]. intros (_ & _ & H).
      destruct (i - k)%nat; discriminate.
    + cbn [List.length seq combine In]. rewrite IH. split.
      * intros [H|(Hk & Hr & Hs)].
        -- injection H as <- <- <-. rewrite Nat.sub_diag. simpl.
           split; [lia|]. split; reflexivity.
        -- replace (i - k)%nat with (S (i - S k)) by lia. simpl.
           split; [lia|]. split; assumption.
      * intros (Hk & Hr & Hs).
        destruct (Nat.eq_dec i k) as [->|Hne].
        -- rewrite Nat.sub_diag in Hr, Hs. simpl in Hr, Hs.
           injection Hr as <-. injection Hs as <-. left. reflexivity.
        -- right. replace (i - k)%nat with (S (i - S k)) in Hr, Hs by lia.
           simpl in Hr, Hs. split; [lia|]. split; assumption.
Qed.

(** X9.  [identify_vulnerable_populations] raises what
    [calculate_vulnerability_score] raises.  Otherwise it returns exactly the
    rows whose score is at least the threshold, each once and under its own
    label: a row with a score below the threshold or with a missing score is
    never returned.  The rows come highest score first. *)
Theorem vulnerable_populations_selected_and_ordered
  (df : DataFrame) (threshold : float64) :
  (forall e, calculate_vulnerability_score df = Raise e ->
             identify_vulnerable_populations df threshold = Raise e) /\
  (forall scores,
      calculate_vulnerability_score df = Ok scores ->
      exists out,
        identify_vulnerable_populations df threshold = Ok out /\
        Permutation out
          (filter (fun x => fgeb (score_of x) threshold)
             (combine (combine (seq 0 (List.length (rows df))) (rows df))
                      scores)) /\
        (forall i r s,
            In (i, r, s) out <->
            nth_error (rows df) i = Some r /\ nth_error scores i = Some s /\
            fgeb s threshold = true) /\
        StronglySorted (fun a b => fle (score_of b) (score_of a)) out /\
        (List.length out <= List.length (rows df))%nat).
Proof.
  unfold identify_vulnerable_populations. split.
  - intros e ->. reflexivity.
  - intros scores ->. cbn [bind]. eexists. split; [reflexivity|].
    set (table := combine (combine (seq 0 (List.length (rows df))) (rows df))
                          scores).
    set (vulnerable := filter (fun x => fgeb (score_of x) threshold) table).
    pose proof (sort_descending_perm score_of vulnerable) as Hperm.
    split; [exact Hperm|]. split; [|split].
    + intros i r s. split.
      * intros Hin. apply (Permutation_in _ Hperm) in Hin.
        apply filter_In in Hin. destruct Hin as [Hin Hs].
        apply scored_In in Hin. rewrite Nat.sub_0_r in Hin. tauto.
      * intros (Hr & Hs & Hge).
        apply (Permutation_in _ (Permutation_sym Hperm)).
        apply filter_In. split; [|exact Hge].
        apply scored_In. rewrite Nat.sub_0_r. split; [lia|]. tauto.
    + apply sort_descending_sorted. apply Forall_forall. intros x Hx.
      apply filter_In in Hx. destruct Hx as [_ Hx].
      apply (fgeb_nonnan _ _ Hx).
    + rewrite (Permutation_length Hperm).
      eapply Nat.le_trans; [apply filter_length_le|].
      subst table. unfold scored_row. repeat rewrite length_combine. rewrite length_seq. lia.
Qed.

Lemma vulnerable_populations_witness :
  exists out s0 s2,
    identify_vulnerable_populations regions_sample (Finite (1 # 2)) = Ok out /\
    out = [(0%nat, [Str "Kerala"; Str "Elderly (60+)"; Num 120; Num 30; Num 4], s0);
           (2%nat, [Str "Assam"; Null; Null; Num 0; Num 9], s2)] /\
    fle s2 s0 /\
    ~ In 1%nat (map (fun x => fst (fst x)) out).
Proof.
  destruct (@vulnerable_populations_selected_and_ordered
              regions_sample (Finite (1 # 2))) as [_ H].
  destruct (calculate_vulnerability_score regions_sample) as [scores|e] eqn:E;
    [|vm_compute in E; discriminate E].
  destruct (H scores eq_refl) as (out & Hout & _ & _ & Hsorted & _).
  pose proof Hout as Hval. vm_compute in Hval. injection Hval as Hval.
  exists out. do 2 eexists. split; [exact Hout|].
  split; [symmetry; exact Hval|].
  rewrite <- Hval in Hsorted.
  apply StronglySorted_inv in Hsorted. destruct Hsorted as [_ Hfirst].
  apply Forall_inv in Hfirst. split; [exact Hfirst|].
  rewrite <- Hval. simpl. intros [F|[F|[]]]; discriminate F.
Defined.


(** ** Validator: missing values *)

Lemma dict_set_fresh (V : Type) (d : list (string * V)) (k : string) (v : V) :
  ~ In k (map fst d) -> dict_set d k v = (d ++ [(k, v)])%list.
Proof.
  induction d as [|[k' v'] d IH]; simpl; [reflexivity|].
  intros H. destruct (String.eqb k k') eqn:E.
  - apply String.eqb_eq in E. subst k'. exfalso. apply H. left. reflexivity.
  - rewrite IH; [reflexivity|]. intros F. apply H. right. exact F.
Qed.

Lemma fold_dict_set (V : Type) (items d : list (string * V)) :
  NoDup (map fst (d ++ items)%list) ->
  fold_left (fun d kv => dict_set d (fst kv) (snd kv)) items d
  = (d ++ items)%list.
Proof.
  revert d. induction items as [|[k v] items IH]; intros d H; simpl.
  - rewrite app_nil_r. reflexivity.
  - assert (Hd : ~ In k (map fst d)).
    { rewrite map_app in H. simpl in H. apply NoDup_remove_2 in H.
      intros F. apply H. apply in_or_app. left. exact F. }
    rewrite (@dict_set_fresh V d k v Hd), IH.
    + rewrite <- app_assoc. reflexivity.
    + rewrite <- app_assoc. exact H.
Qed.

(** A dictionary built from items with distinct keys holds the items. *)
Lemma to_dict_distinct (V : Type) (items : list (string * V)) :
  NoDup (map fst items) -> to_dict items = items.
Proof. intros H. unfold to_dict. rewrite fold_dict_set; [reflexivity|exact H]. Qed.

Lemma enumerate_from_snd (A : Type) (l : list A) (a : nat) :
  map snd (enumerate_from a l) = l.
Proof.
  revert a. induction l as [|x l IH]; intros a; simpl; [reflexivity|].
  rewrite IH. reflexivity.
Qed.

Lemma enumerate_from_In (A : Type) (l : list A) (i : nat) (x : A) :
  In (i, x) (enumerate_from 0 l) <-> nth_error l i = Some x.
Proof.
  split.
  - intros H. apply In_nth_error in H. destruct H as [k Hk].
    rewrite enumerate_from_nth in Hk. simpl in Hk.
    destruct (nth_error l k) eqn:E; [|discriminate].
    simpl in Hk. injection Hk as <- <-. exact E.
  - intros H. apply (nth_error_In _ i). rewrite enumerate_from_nth, H.
    reflexivity.
Qed.

Lemma null_count_le (i : nat) (rs : list row) :
  (null_count i rs <= List.length rs)%nat.
Proof.
  unfold null_count, column_at.
  pose proof (filter_length_le isnull (map (fun r => nth i r Null) rs)) as H.
  rewrite length_map in H. exact H.
Qed.

Lemma null_count_pos (i : nat) (rs : list row) :
  (0 < null_count i rs)%nat <->
  exists r, In r rs /\ isnull (nth i r Null) = true.
Proof.
  unfold null_count, column_at. split.
  - intros H.
    destruct (filter isnull (map (fun r => nth i r Null) rs)) as [|c l] eqn:E;
      [simpl in H; lia|].
    assert (Hin : In c (filter isnull (map (fun r => nth i r Null) rs)))
      by (rewrite E; left; reflexivity).
    apply filter_In in Hin. destruct Hin as [Hin Hc].
    apply in_map_iff in Hin. destruct Hin as [r [<- Hr]]. eauto.
  - intros (r & Hr & Hn).
    assert (Hin : In (nth i r Null)
                     (filter isnull (map (fun r => nth i r Null) rs))).
    { apply filter_In. split; [|exact Hn].
      apply in_map_iff. eauto. }
    destruct (filter isnull (map (fun r => nth i r Null) rs));
      [destruct Hin|simpl; lia].
Qed.

(** The share of missing cells as the code computes it. *)
Lemma missing_share (k n : nat) :
  (k <= n)%nat ->
  fltb (Finite 0) (float_of_nat k / float_of_nat n * Finite 100)%fl = true ->
  (0 < k)%nat /\ (0 < n)%nat /\
  (float_of_nat k / float_of_nat n * Finite 100)%fl
  = Finite (inject_Z (Z.of_nat k) / inject_Z (Z.of_nat n) * 100).
Proof.
  unfold float_of_nat. intros Hkn.
  destruct n as [|n].
  - assert (k = 0)%nat by lia. subst k. simpl. discriminate.
  - assert (Hn : Qeq_bool (inject_Z (Z.of_nat (S n))) 0 = false).
    { apply Qeq_bool_false. change 0 with (inject_Z 0).
      rewrite inject_Z_injective. lia. }
    unfold fdiv. rewrite Hn. cbn [fmul fltb]. intros H. apply Qltb_true in H.
    split; [|split; [lia|reflexivity]].
    destruct k as [|k]; [|lia]. exfalso.
    change (inject_Z (Z.of_nat 0)) with 0 in H.
    unfold Qdiv in H. lra.
Qed.

Lemma share_range (k n : nat) :
  (0 < k)%nat -> (k <= n)%nat ->
  0 < inject_Z (Z.of_nat k) / inject_Z (Z.of_nat n) * 100 /\
  inject_Z (Z.of_nat k) / inject_Z (Z.of_nat n) * 100 <= 100.
Proof.
  intros Hk Hkn.
  assert (Hk' : 0 < inject_Z (Z.of_nat k))
    by (change 0 with (inject_Z 0); rewrite <- Zlt_Qlt; lia).
  assert (Hkn' : inject_Z (Z.of_nat k) <= inject_Z (Z.of_nat n))
    by (rewrite <- Zle_Qle; lia).
  assert (Hn' : 0 < inject_Z (Z.of_nat n)) by lra.
  assert (H1 : 0 < inject_Z (Z.of_nat k) / inject_Z (Z.of_nat n))
    by (apply Qlt_shift_div_l; lra).
  assert (H2 : inject_Z (Z.of_nat k) / inject_Z (Z.of_nat n) <= 1)
    by (apply Qle_shift_div_r; lra).
  split; lra.
Qed.

(** X10.  For a table with distinct column names, [check_missing_values]
    reports a column exactly when some row has no value in it; the reported
    number is the share of such rows in percent, above 0 and at most 100.
    The report lists each column at most once, in the order of the header,
    and it is empty for a table without rows. *)
Theorem missing_values_reported_iff_present (df : DataFrame) :
  NoDup (columns df) ->
  (forall i c,
      nth_error (columns df) i = Some c ->
      ((exists v, In (c, v) (check_missing_values df)) <->
       (exists r, In r (rows df) /\ isnull (nth i r Null) = true)) /\
      (forall v, In (c, v) (check_missing_values df) ->
         v = Finite (inject_Z (Z.of_nat (null_count i (rows df)))
                     / inject_Z (Z.of_nat (List.length (rows df))) * 100))) /\
  (forall c v, In (c, v) (check_missing_values df) ->
     In c (columns df) /\
     exists q, v = Finite q /\ 0 < q /\ q <= 100) /\
  NoDup (map fst (check_missing_values df)) /\
  (rows df = [] -> check_missing_values df = []).
Proof.
  intros Hnd. unfold check_missing_values.
  set (share := fun ic : nat * string =>
                  (snd ic,
                   (float_of_nat (null_count (fst ic) (rows df))
                    / float_of_nat (List.length (rows df)) * Finite 100)%fl)).
  assert (Hkeys : map fst (map share (enumerate_from 0 (columns df)))
                  = columns df).
  { rewrite map_map. unfold share. cbn [fst].
    apply enumerate_from_snd. }
  rewrite to_dict_distinct by (rewrite Hkeys; exact Hnd).
  assert (Hin : forall c v,
             In (c, v) (filter (fun kv => fltb (Finite 0) (snd kv))
                               (map share (enumerate_from 0 (columns df)))) <->
             exists i, nth_error (columns df) i = Some c /\
                       v = (float_of_nat (null_count i (rows df))
                            / float_of_nat (List.length (rows df))
                            * Finite 100)%fl /\
                       fltb (Finite 0) v = true).
  { intros c v. rewrite filter_In, in_map_iff. cbn [snd]. split.
    - intros [[[i c'] [E Hi]] Hv]. unfold share in E. cbn [fst snd] in E.
      injection E as -> <-. apply enumerate_from_In in Hi. eauto.
    - intros (i & Hi & -> & Hv). split; [|exact Hv].
      exists (i, c). split; [reflexivity|]. apply enumerate_from_In, Hi. }
  assert (Hsame : forall i j c,
             nth_error (columns df) i = Some c ->
             nth_error (columns df) j = Some c -> i = j).
  { intros i j c Hi Hj.
    apply (proj1 (NoDup_nth_error (columns df)) Hnd).
    - apply nth_error_Some. congruence.
    - congruence. }
  split; [|split; [|split]].
  - intros i c Hi. split; [split|].
    + intros [v Hv]. apply Hin in Hv. destruct Hv as (j & Hj & -> & Hv).
      rewrite <- (Hsame _ _ _ Hi Hj) in Hv.
      apply missing_share in Hv; [|apply null_count_le].
      apply null_count_pos. tauto.
    + intros Hr. apply null_count_pos in Hr.
      pose proof (null_count_le i (rows df)) as Hle.
      destruct (share_range Hr Hle) as [Hpos _].
      eexists. apply Hin. exists i. split; [exact Hi|]. split; [reflexivity|].
      unfold float_of_nat.
      assert (Hn : Qeq_bool (inject_Z (Z.of_nat (List.length (rows df)))) 0
                   = false).
      { apply Qeq_bool_false. change 0 with (inject_Z 0).
        rewrite inject_Z_injective. lia. }
      unfold fdiv. rewrite Hn. cbn [fmul fltb]. apply Qltb_true. exact Hpos.
    + intros v Hv. apply Hin in Hv. destruct Hv as (j & Hj & -> & Hv).
      rewrite <- (Hsame _ _ _ Hi Hj) in *.
      apply missing_share in Hv; [|apply null_count_le]. tauto.
  - intros c v Hv. apply Hin in Hv. destruct Hv as (i & Hi & -> & Hv).
    split; [apply (nth_error_In _ _ Hi)|].
    pose proof (null_count_le i (rows df)) as Hle.
    apply missing_share in Hv; [|exact Hle].
    destruct Hv as (Hk & _ & ->).
    eexists. split; [reflexivity|]. apply share_range; assumption.
  - assert (Hsub : forall (l : list (string * float64)) f,
               NoDup (map fst l) -> NoDup (map fst (filter f l))).
    { intros l f. induction l as [|[k v] l IH]; simpl; [auto|].
      intros H. apply NoDup_cons_iff in H. destruct H as [Hk H].
      destruct (f (k, v)); simpl; [|auto].
      apply NoDup_cons; [|auto]. intros F. apply Hk.
      apply in_map_iff in F. destruct F as [[k' v'] [E F]].
      apply filter_In in F. destruct F as [F _]. simpl in E. subst k'.
      apply in_map_iff. exists (k, v'). auto. }
    apply Hsub. rewrite Hkeys. exact Hnd.
  - intros Hrows.
    destruct (filter _ _) as [|[c v] l] eqn:E; [reflexivity|]. exfalso.
    destruct (proj1 (Hin c v) (or_introl eq_refl)) as (i & _ & -> & Hv).
    apply missing_share in Hv; [|apply null_count_le].
    rewrite Hrows in Hv. simpl in Hv. lia.
Qed.

Lemma missing_values_witness :
  (exists v, In ("Age_Group", v) (check_missing_values biometric_sample)) /\
  ~ (exists v, In ("State", v) (check_missing_values biometric_sample)) /\
  check_missing_values no_rows = [].
Proof.
  assert (Hnd : NoDup (columns biometric_sample)).
  { repeat (apply NoDup_cons; [simpl; intuition discriminate|]).
    apply NoDup_nil. }
  assert (Hnd0 : NoDup (columns no_rows)).
  { repeat (apply NoDup_cons; [simpl; intuition discriminate|]).
    apply NoDup_nil. }
  destruct (@missing_values_reported_iff_present biometric_sample Hnd)
    as (Hcol & _ & _ & _).
  destruct (@missing_values_reported_iff_present no_rows Hnd0)
    as (_ & _ & _ & Hempty).
  split; [|split].
  - apply (proj1 (Hcol 2%nat "Age_Group" eq_refl)).
    exists [Str "Kerala"; Num 20; Null]. split; [left; reflexivity|reflexivity].
  - intros H. apply (proj1 (Hcol 0%nat "State" eq_refl)) in H.
    destruct H as (r & Hr & Hn). simpl in Hr.
    destruct Hr as [<-|[<-|[<-|[<-|[]]]]]; discriminate Hn.
  - apply Hempty. reflexivity.
Defined.


(** ** Insights of the pipeline *)

Lemma nunique_le (cs : list cell) : (nunique cs <= List.length cs)%nat.
Proof.
  unfold nunique.
  eapply Nat.le_trans; [apply drop_duplicates_length|].
  rewrite length_map. apply filter_length_le.
Qed.

Lemma nunique_pos (cs : list cell) :
  (0 < nunique cs)%nat <-> exists c, In c cs /\ isnull c = false.
Proof.
  unfold nunique. split.
  - destruct (filter (fun c => negb (isnull c)) cs) as [|c l] eqn:E;
      [simpl; lia|].
    intros _. exists c.
    assert (Hin : In c (filter (fun c => negb (isnull c)) cs))
      by (rewrite E; left; reflexivity).
    apply filter_In in Hin. destruct Hin as [Hin Hc].
    apply negb_true_iff in Hc. auto.
  - intros (c & Hin & Hc).
    assert (Hf : In c (filter (fun c => negb (isnull c)) cs))
      by (apply filter_In; rewrite Hc; auto).
    destruct (filter (fun c => negb (isnull c)) cs) as [|c' l];
      [destruct Hf|simpl; lia].
Qed.

(** The count of distinct values of a column, 0 without the column; it never
    raises. *)
Lemma nunique_or_zero_spec (df : DataFrame) (name : string) :
  exists n, nunique_or_zero df name = Ok n /\
            (n <= List.length (rows df))%nat /\
            (has_column df name = false -> n = 0%nat) /\
            (forall cs, get_column df name = Ok cs -> n = nunique cs).
Proof.
  unfold nunique_or_zero. destruct (has_column df name) eqn:H.
  - destruct (has_column_get _ _ H) as [cs Hcs]. rewrite Hcs. cbn [bind].
    exists (nunique cs). split; [reflexivity|]. split; [|split].
    + pose proof (nunique_le cs). apply get_column_length in Hcs. lia.
    + discriminate.
    + intros cs' E. congruence.
  - exists 0%nat. split; [reflexivity|]. split; [lia|]. split; [reflexivity|].
    intros cs E. apply get_column_Ok in E. congruence.
Qed.

Ltac count_columns :=
  repeat match goal with
  | |- context [nunique_or_zero ?df ?n] =>
      let k := fresh "k" in
      let Hk := fresh "Hk" in
      destruct (nunique_or_zero_spec df n) as (k & -> & Hk & _)
  end.

(** X11.  [generate_insights] never raises, whatever is loaded and whatever
    columns the tables have.  Its summary has an entry for a dataset exactly
    when the dataset is loaded; the entry gives the number of rows as
    total_records and no count in it exceeds that number.  The anomalies and
    key_metrics of the result are always empty. *)
Theorem insights_total_and_bounded (now : Z) (self : AadhaarDataPipeline) :
  exists ins,
    generate_insights now self = Ok ins /\
    timestamp ins = now /\ anomalies ins = [] /\ key_metrics ins = [] /\
    (forall name, In (name, true) (datasets_loaded ins) <->
                  exists s, In (name, s) (summary_stats ins)) /\
    (forall name df,
        In (name, Some df) [("enrolment", enrolment_df self);
                            ("demographic", demographic_df self);
                            ("biometric", biometric_df self)] ->
        exists s, In (name, s) (summary_stats ins) /\
                  In ("total_records", List.length (rows df)) s /\
                  Forall (fun kv => (snd kv <= List.length (rows df))%nat) s).
Proof.
  unfold generate_insights.
  destruct (enrolment_df self) as [e|], (demographic_df self) as [d|],
           (biometric_df self) as [b|];
    count_columns; cbn [bind]; eexists; (split; [reflexivity|]);
    cbn [timestamp anomalies key_metrics datasets_loaded summary_stats
         is_loaded];
    (split; [reflexivity|]); (split; [reflexivity|]); (split; [reflexivity|]);
    simpl; split.
  all: try (intros name; split;
            [ intros H; repeat (destruct H as [H|H]; [injection H as <-; eauto 6|]);
              try discriminate; try contradiction
            | intros [s H]; repeat (destruct H as [H|H]; [injection H as <- _; tauto|]);
              contradiction ]).
  all: intros name df H;
    repeat (destruct H as [H|H];
            [ injection H as <- <- || discriminate H | ]);
    try contradiction.
  all: try (eexists; split; [eauto 6|]; split; [left; reflexivity|];
            repeat constructor; simpl; lia).
Qed.

(** ** Insight generator *)

Lemma nth_map_some (A B : Type) (f : A -> B) (l : list A) (i : nat) (x : A)
  (d : B) :
  nth_error l i = Some x -> nth i (map f l) d = f x.
Proof.
  intros H. apply nth_error_nth. apply (map_nth_error f _ _ H).
Qed.

Lemma records_two (t : Table) (a b : string) (sa sb : series) (idx : list nat) :
  table_column t a = Some sa -> table_column t b = Some sb ->
  records t [a; b] idx
  = Ok (map (fun i => [(a, nth i (series_fields sa) (FCell Null));
                       (b, nth i (series_fields sb) (FCell Null))]) idx).
Proof.
  intros Ha Hb. unfold records. cbn [mapM]. rewrite Ha, Hb. reflexivity.
Qed.

Lemma records_KeyError (t : Table) (a : string) (names : list string)
  (idx : list nat) :
  table_column t a = None -> records t (a :: names) idx = Raise (KeyError a).
Proof. intros Ha. unfold records. cbn [mapM]. rewrite Ha. reflexivity. Qed.

Lemma length_pos_nonempty (A : Type) (l : list A) :
  (0 <? List.length l)%nat = negb (match l with [] => true | _ => false end).
Proof. destruct l; reflexivity. Qed.

(** X14.  [generate_biometric_insights] raises KeyError on a table without
    a Biometric_Coverage column; the empty table that
    [calculate_biometric_quality] returns for data without a State column is
    such a table.  On a table with State and Biometric_Coverage columns it
    reports nothing when no coverage is below 30, and otherwise one CRITICAL
    insight whose details are exactly the rows with a coverage below 30 and
    whose finding counts them; a row with a coverage of 30 or more, or with
    no coverage, is never listed. *)
Theorem biometric_insight_lists_low_coverage :
  (forall t, table_column t "Biometric_Coverage" = None ->
             generate_biometric_insights t
             = Raise (KeyError "Biometric_Coverage")) /\
  (forall self df,
      biometric_df self = Some df -> has_column df "State" = false ->
      (t <- calculate_biometric_quality self ;; generate_biometric_insights t)
      = Raise (KeyError "Biometric_Coverage")) /\
  (forall t States coverage,
      table_column t "State" = Some (Cells States) ->
      table_column t "Biometric_Coverage" = Some (Floats coverage) ->
      List.length States = List.length coverage ->
      exists insights,
        generate_biometric_insights t = Ok insights /\
        (insights = [] <->
         Forall (fun c => fltb c (Finite 30) = false) coverage) /\
        (forall ins, In ins insights ->
           insights = [ins] /\ severity ins = "CRITICAL" /\
           finding ins = str (List.length (details ins))
                         ++ " states have <30% biometric coverage" /\
           forall d, In d (details ins) <->
                     exists i s c,
                       nth_error States i = Some s /\
                       nth_error coverage i = Some c /\
                       fltb c (Finite 30) = true /\
                       d = [("State", FCell s);
                            ("Biometric_Coverage", FFloat c)])).
Proof.
  split; [|split].
  - intros t H. unfold generate_biometric_insights, table_floats.
    rewrite H. reflexivity.
  - intros self df Hdf Hs. unfold calculate_biometric_quality.
    rewrite Hdf, Hs. reflexivity.
  - intros t States coverage HS HC Hlen.
    unfold generate_biometric_insights, table_floats. rewrite HC. cbn [bind].
    set (low := filter (fun ix => fltb (snd ix) (Finite 30))
                       (enumerate_from 0 coverage)).
    assert (Hlow : forall i c, In (i, c) low <->
                     nth_error coverage i = Some c /\
                     fltb c (Finite 30) = true).
    { intros i c. unfold low. rewrite filter_In, enumerate_from_In.
      reflexivity. }
    rewrite length_map, length_pos_nonempty.
    destruct low as [|[i0 c0] low'] eqn:Elow; cbn [negb].
    + exists []. split; [reflexivity|]. split; [|intros ins []].
      split; [|reflexivity]. intros _. apply Forall_forall. intros c Hc.
      apply In_nth_error in Hc. destruct Hc as [i Hi].
      destruct (fltb c (Finite 30)) eqn:E; [|reflexivity].
      exfalso. apply (proj2 (Hlow i c) (conj Hi E)).
    + rewrite <- Elow in *. rewrite (@records_two _ _ _ _ _ _ HS HC). cbn [bind].
      eexists. split; [reflexivity|]. split.
      * split; [discriminate|]. intros Hall. exfalso.
        assert (Hin : In (i0, c0) low) by (rewrite Elow; left; reflexivity).
        apply Hlow in Hin. destruct Hin as [Hi Hc].
        apply nth_error_In in Hi.
        rewrite (proj1 (Forall_forall _ _) Hall _ Hi) in Hc. discriminate.
      * intros ins [<-|[]]. cbn [severity finding details app].
        split; [reflexivity|]. split; [reflexivity|].
        split; [rewrite !length_map; reflexivity|].
        intros d. rewrite in_map_iff. split.
        -- intros (i & <- & Hi). apply in_map_iff in Hi.
           destruct Hi as ([i' c] & <- & Hi). cbn [fst].
           apply Hlow in Hi. destruct Hi as [Hi Hc].
           assert (Hs : exists s, nth_error States i' = Some s).
           { destruct (nth_error States i') as [s|] eqn:E; [eauto|].
             apply nth_error_None in E.
             assert (i' < List.length coverage)%nat
               by (apply nth_error_Some; congruence).
             lia. }
           destruct Hs as [s Hs]. exists i', s, c.
           repeat split; trivial. cbn [series_fields].
           rewrite (@nth_map_some _ _ FCell _ _ _ _ Hs), (@nth_map_some _ _ FFloat _ _ _ _ Hi).
           reflexivity.
        -- intros (i & s & c & Hs & Hc & Hlt & ->). exists i. split.
           ++ cbn [series_fields].
              rewrite (@nth_map_some _ _ FCell _ _ _ _ Hs), (@nth_map_some _ _ FFloat _ _ _ _ Hc).
              reflexivity.
           ++ apply in_map_iff. exists (i, c). split; [reflexivity|].
              apply Hlow. auto.
Qed.

Lemma biometric_insight_witness :
  exists ins c,
    (t <- calculate_biometric_quality (pipeline_of biometric_low) ;;
     generate_biometric_insights t) = Ok [ins] /\
    finding ins = "1 states have <30% biometric coverage" /\
    In [("State", FCell (Str "Goa")); ("Biometric_Coverage", FFloat c)]
       (details ins) /\
    (t <- calculate_biometric_quality (pipeline_of pincode_sample) ;;
     generate_biometric_insights t) = Raise (KeyError "Biometric_Coverage").
Proof.
  destruct biometric_insight_lists_low_coverage as (_ & Hraise & H).
  destruct (calculate_biometric_quality (pipeline_of biometric_low))
    as [t|e] eqn:E; [|vm_compute in E; discriminate E].
  cbn [bind].
  assert (Ht : exists c0 c1,
             table_column t "State" = Some (Cells [Str "Goa"; Str "Kerala"]) /\
             table_column t "Biometric_Coverage" = Some (Floats [c0; c1]) /\
             fltb c0 (Finite 30) = true).
  { vm_compute in E. injection E as <-. do 2 eexists.
    split; [reflexivity|]. split; reflexivity. }
  destruct Ht as (c0 & c1 & HS & HC & Hlow).
  destruct (H t _ _ HS HC eq_refl) as (insights & Hgen & Hnone & Hins).
  destruct insights as [|ins rest].
  - exfalso. pose proof (proj1 Hnone eq_refl) as Hall.
    apply Forall_inv in Hall. congruence.
  - destruct (Hins ins (or_introl eq_refl)) as (Hone & _ & Hfind & Hd).
    exists ins, c0. split; [rewrite Hgen, Hone; reflexivity|].
    split; [|split].
    + rewrite Hone in Hgen. clear - Hgen E.
      vm_compute in E. injection E as <-.
      vm_compute in Hgen. injection Hgen as <-. reflexivity.
    + apply Hd. exists 0%nat, (Str "Goa"), c0. repeat split; trivial.
    + apply (Hraise _ pincode_sample); reflexivity.
Defined.


(** ** Anomaly scores *)

Lemma existsb_isnan_finite (qs : list Q) :
  existsb isnan (map Finite qs) = false.
Proof. induction qs as [|q qs IH]; simpl; [reflexivity|exact IH]. Qed.

Lemma finite_column (qs : list Q) : Forall finite_or_nan (map Finite qs).
Proof. apply Forall_map, Forall_forall. intros q _. exact I. Qed.

(** The minimum and the maximum of an array of numbers. *)
Lemma array_bounds (qs : list Q) :
  qs <> [] ->
  exists lo hi,
    array_min (map Finite qs) = Ok (Finite lo) /\
    array_max (map Finite qs) = Ok (Finite hi) /\
    In lo qs /\ In hi qs /\
    Forall (fun q => lo <= q /\ q <= hi) qs.
Proof.
  intros Hne.
  assert (Hnn : Forall (fun x => isnan x = false) (map Finite qs))
    by (apply Forall_map, Forall_forall; intros q _; reflexivity).
  assert (Hne' : map Finite qs <> [])
    by (destruct qs; [congruence|discriminate]).
  pose proof (@series_min_In _ Hnn Hne') as Hlo.
  pose proof (@series_max_In _ Hnn Hne') as Hhi.
  apply in_map_iff in Hlo. destruct Hlo as (lo & Elo & Hlo).
  apply in_map_iff in Hhi. destruct Hhi as (hi & Ehi & Hhi).
  exists lo, hi.
  unfold array_min, array_max. rewrite existsb_isnan_finite.
  destruct (map Finite qs) as [|x xs] eqn:E; [congruence|].
  rewrite <- E in *. rewrite <- Elo, <- Ehi.
  split; [reflexivity|]. split; [reflexivity|]. split; [exact Hlo|].
  split; [exact Hhi|].
  apply Forall_forall. intros q Hq.
  assert (Hin : In (Finite q) (map Finite qs)) by (apply in_map, Hq).
  pose proof (@series_min_le _ (Finite q) Hnn Hin) as H1.
  pose proof (@series_max_ge _ (Finite q) Hnn Hin) as H2.
  unfold fle in H1, H2. rewrite <- Elo in H1. rewrite <- Ehi in H2.
  simpl in H1, H2. qbool. split; assumption.
Qed.

Section ScoreFacts.

Variables scaler forest matrix : Type.
Variable StandardScaler_fit_transform : DataFrame -> result (scaler * matrix).
Variable IsolationForest_score_samples : forest -> matrix -> result (list float64).

(** X12.  [get_anomaly_scores] never raises.  Without a fitted model, or
    when the scaler or the model raises, it answers 0 for every row of [X].
    With a fitted model whose raw scores are numbers [qs] (at least one), it
    answers one score per raw score, equal to (max - q) / (max - min + 1e-6)
    with the minimum and maximum of [qs]: every score lies in [0,1], a sample
    with the highest raw score gets 0, and of two samples the one with the
    lower raw score never gets the lower anomaly score. *)
Theorem anomaly_scores_normalised
  (self : AnomalyDetector scaler forest) (X : DataFrame) :
  (isolation_forest self = None ->
   get_anomaly_scores StandardScaler_fit_transform
     IsolationForest_score_samples self X = zeros (List.length (rows X))) /\
  (forall e,
      StandardScaler_fit_transform (fillna_zero X) = Raise e \/
      (exists s m model,
          StandardScaler_fit_transform (fillna_zero X) = Ok (s, m) /\
          isolation_forest self = Some model /\
          IsolationForest_score_samples model m = Raise e) ->
      get_anomaly_scores StandardScaler_fit_transform
        IsolationForest_score_samples self X = zeros (List.length (rows X))) /\
  (forall s m model qs,
      StandardScaler_fit_transform (fillna_zero X) = Ok (s, m) ->
      isolation_forest self = Some model ->
      IsolationForest_score_samples model m = Ok (map Finite qs) ->
      qs <> [] ->
      let out := get_anomaly_scores StandardScaler_fit_transform
                   IsolationForest_score_samples self X in
      exists lo hi,
        In lo qs /\ In hi qs /\ Forall (fun q => lo <= q /\ q <= hi) qs /\
        Forall2 (fun q x => feq x (Finite ((hi - q) / (hi - lo + eps)))) qs out /\
        Forall (in_range 0 1) out /\
        (forall i x, nth_error qs i = Some hi -> nth_error out i = Some x ->
                     feq x (Finite 0)) /\
        (forall i j p q x y,
            nth_error qs i = Some p -> nth_error qs j = Some q ->
            nth_error out i = Some x -> nth_error out j = Some y ->
            p <= q -> fle y x)).
Proof.
  unfold get_anomaly_scores, anomaly_scores_attempt. split; [|split].
  - intros ->. destruct (StandardScaler_fit_transform (fillna_zero X));
      reflexivity.
  - intros e [H|(s & m & model & Hs & Hm & Hr)].
    + rewrite H. reflexivity.
    + rewrite Hs, Hm. cbn [bind snd]. rewrite Hr. reflexivity.
  - intros s m model qs Hs Hm Hr Hne.
    rewrite Hs, Hm. cbn [bind snd]. rewrite Hr. cbn [bind].
    assert (Hneg : map fneg (map Finite qs) = map Finite (map Qopp qs)).
    { rewrite !map_map. reflexivity. }
    rewrite Hneg.
    assert (Hne' : map Qopp qs <> [])
      by (destruct qs; [congruence|discriminate]).
    destruct (array_bounds Hne') as (nlo & nhi & -> & -> & Hlo & Hhi & Hb).
    apply in_map_iff in Hlo. destruct Hlo as (hi & <- & Hhi').
    apply in_map_iff in Hhi. destruct Hhi as (lo & <- & Hlo').
    assert (Hbounds : Forall (fun q => lo <= q /\ q <= hi) qs).
    { apply Forall_forall. intros q Hq.
      assert (Hin : In (- q) (map Qopp qs)) by (apply in_map, Hq).
      pose proof (proj1 (Forall_forall _ _) Hb _ Hin) as [H1 H2]. lra. }
    assert (Hle : lo <= hi)
      by (destruct (proj1 (Forall_forall _ _) Hbounds _ Hlo'); lra).
    assert (Hd : 0 < hi - lo + eps) by (unfold eps; lra).
    cbn [bind].
    set (g := fun q => (- q + - - hi) / (- lo + - - hi + eps)).
    assert (Hout : map (fun s0 => ((s0 - Finite (- hi))
                                   / (Finite (- lo) - Finite (- hi) + Finite eps))%fl)
                       (map Finite (map Qopp qs))
                   = map (fun q => Finite (g q)) qs).
    { rewrite !map_map. apply map_ext. intros q. simpl.
      assert (E : Qeq_bool (- lo + - - hi + eps) 0 = false)
        by (apply Qeq_bool_false; unfold eps in *; lra).
      rewrite E. reflexivity. }
    rewrite Hout. clear Hout.
    assert (Hg : forall q, g q == (hi - q) / (hi - lo + eps)).
    { intros q. unfold g.
      assert (E1 : - q + - - hi == hi - q) by ring.
      assert (E2 : - lo + - - hi + eps == hi - lo + eps) by ring.
      rewrite E1, E2. reflexivity. }
    assert (Hmono : forall p q, p <= q -> g q <= g p).
    { intros p q Hpq. rewrite !Hg. apply Qdiv_le_mono; [exact Hd|lra]. }
    exists lo, hi. split; [exact Hlo'|]. split; [exact Hhi'|].
    split; [exact Hbounds|]. split; [|split; [|split]].
    + clear - Hg. induction qs as [|q qs IH]; simpl; constructor.
      * simpl. apply Hg.
      * exact IH.
    + apply Forall_map. eapply Forall_impl; [|exact Hbounds].
      intros q [H1 H2]. simpl. rewrite Hg.
      unfold eps in *. apply Qdiv_unit; lra.
    + intros i x Hi Hx.
      rewrite (map_nth_error (fun q => Finite (g q)) _ _ Hi) in Hx.
      injection Hx as <-. simpl. rewrite Hg.
      unfold Qdiv. ring.
    + intros i j p q x y Hi Hj Hx Hy Hpq.
      rewrite (map_nth_error (fun q => Finite (g q)) _ _ Hi) in Hx.
      rewrite (map_nth_error (fun q => Finite (g q)) _ _ Hj) in Hy.
      injection Hx as <-. injection Hy as <-.
      unfold fle. simpl. apply Qltb_false. apply Hmono, Hpq.
Qed.

End ScoreFacts.

Lemma anomaly_scores_witness :
  get_anomaly_scores identity_scaler total_scores
    {| isolation_forest := None; detector_scaler := None |} spike_sample
  = [Finite 0; Finite 0; Finite 0; Finite 0; Finite 0] /\
  get_anomaly_scores identity_scaler failing_scores
    {| isolation_forest := Some tt; detector_scaler := None |} spike_sample
  = [Finite 0; Finite 0; Finite 0; Finite 0; Finite 0] /\
  Forall (in_range 0 1)
    (get_anomaly_scores identity_scaler total_scores
       {| isolation_forest := Some tt; detector_scaler := None |} spike_sample).
Proof.
  split; [|split].
  - apply (proj1 (anomaly_scores_normalised identity_scaler total_scores
                    {| isolation_forest := None; detector_scaler := None |}
                    spike_sample)).
    reflexivity.
  - apply (proj1 (proj2 (anomaly_scores_normalised identity_scaler failing_scores
                    {| isolation_forest := Some tt; detector_scaler := None |}
                    spike_sample))
             (LibraryError "X has 2 features, but IsolationForest is expecting 3")).
    right. exists tt, (fillna_zero spike_sample), tt.
    split; [reflexivity|]. split; reflexivity.
  - destruct (proj2 (proj2 (anomaly_scores_normalised identity_scaler total_scores
                    {| isolation_forest := Some tt; detector_scaler := None |}
                    spike_sample))
                tt (fillna_zero spike_sample) tt
                (map (fun r => - numeric_total r) (rows (fillna_zero spike_sample))))
      as (lo & hi & _ & _ & _ & _ & Hrange & _).
    + reflexivity.
    + reflexivity.
    + unfold total_scores. rewrite map_map. reflexivity.
    + discriminate.
    + exact Hrange.
Defined.


(** ** Clustering: the table on success *)

Lemma set_at_length (i : nat) (v : cell) (r : row) :
  List.length (set_at i v r) = List.length r.
Proof.
  revert i. induction r as [|c r IH]; intros [|i]; simpl; auto.
Qed.

Lemma set_at_same (i : nat) (v : cell) (r : row) :
  (i < List.length r)%nat -> nth i (set_at i v r) Null = v.
Proof.
  revert i. induction r as [|c r IH]; intros [|i]; simpl; try lia; auto.
  intros H. apply IH. lia.
Qed.

Lemma set_at_other (i j : nat) (v : cell) (r : row) :
  i <> j -> nth j (set_at i v r) Null = nth j r Null.
Proof.
  revert i j. induction r as [|c r IH]; intros [|i] [|j]; simpl; try congruence;
    auto.
Qed.

Lemma index_of_nth (name : string) (cols : list string) (i : nat) :
  index_of name cols = Some i -> nth_error cols i = Some name.
Proof.
  revert i. induction cols as [|c cols IH]; intros i; simpl; [discriminate|].
  destruct (String.eqb name c) eqn:E.
  - intros H. injection H as <-. apply String.eqb_eq in E. subst. reflexivity.
  - destruct (index_of name cols) as [j|]; [|discriminate].
    intros H. injection H as <-. simpl. apply IH. reflexivity.
Qed.

Lemma index_of_app_new (name : string) (cols : list string) :
  index_of name cols = None ->
  index_of name (cols ++ [name]) = Some (List.length cols).
Proof.
  induction cols as [|c cols IH]; simpl.
  - rewrite String.eqb_refl. reflexivity.
  - destruct (String.eqb name c); [discriminate|].
    destruct (index_of name cols); [discriminate|].
    intros _. rewrite IH; reflexivity.
Qed.

Lemma index_of_app_other (c name : string) (cols : list string) :
  c <> name -> index_of c (cols ++ [name]) = index_of c cols.
Proof.
  intros Hne. induction cols as [|x cols IH]; simpl.
  - apply String.eqb_neq in Hne. rewrite Hne. reflexivity.
  - rewrite IH. reflexivity.
Qed.

Lemma map_map2_rows (f : row -> cell) (g : row -> cell -> row)
  (rs : list row) (vs : list cell) (h : row -> cell -> cell) :
  List.length vs = List.length rs ->
  Forall (fun r => forall v, f (g r v) = h r v) rs ->
  map f (map2 g rs vs) = map2 h rs vs.
Proof.
  revert vs. induction rs as [|r rs IH]; intros [|v vs]; simpl; try discriminate;
    [reflexivity|].
  intros Hl H. apply Forall_cons_iff in H. destruct H as [Hr H].
  rewrite Hr, IH; auto.
Qed.

Lemma map2_snd (rs : list row) (vs : list cell) :
  List.length vs = List.length rs -> map2 (fun _ v => v) rs vs = vs.
Proof.
  revert vs. induction rs as [|r rs IH]; intros [|v vs]; simpl; try discriminate;
    [reflexivity|].
  intros H. rewrite IH; auto.
Qed.

Lemma map2_fst (f : row -> cell) (rs : list row) (vs : list cell) :
  List.length vs = List.length rs -> map2 (fun r _ => f r) rs vs = map f rs.
Proof.
  revert vs. induction rs as [|r rs IH]; intros [|v vs]; simpl; try discriminate;
    [reflexivity|].
  intros H. rewrite IH; auto.
Qed.

Lemma map2_Forall (P : row -> Prop) (g : row -> cell -> row)
  (rs : list row) (vs : list cell) :
  Forall (fun r => forall v, P (g r v)) rs -> Forall P (map2 g rs vs).
Proof.
  revert vs. induction rs as [|r rs IH]; intros [|v vs] H; simpl; try constructor.
  - apply Forall_inv in H. apply H.
  - apply IH. apply Forall_inv_tail in H. exact H.
Qed.

(** [df[name] = values] and [df[name]] afterwards: the column holds the
    values, every other column is as before. *)
Lemma assign_column_get (df : DataFrame) (name : string) (values : list cell) :
  well_formed df ->
  List.length values = List.length (rows df) ->
  exists df',
    assign_column df name values = Ok df' /\
    get_column df' name = Ok values /\
    (forall c, c <> name -> get_column df' c = get_column df c) /\
    well_formed df' /\
    List.length (rows df') = List.length (rows df) /\
    columns df' = if has_column df name then columns df
                  else (columns df ++ [name])%list.
Proof.
  intros Hwf Hl. pose proof (well_formed_lengths Hwf) as Hlen.
  unfold assign_column. rewrite Hl, Nat.eqb_refl. cbn [negb].
  destruct (index_of name (columns df)) as [i|] eqn:Ei.
  - pose proof (index_of_nth _ _ Ei) as Hi.
    assert (Hlt : (i < List.length (columns df))%nat)
      by (apply nth_error_Some; congruence).
    assert (Hhas : has_column df name = true).
    { unfold has_column. apply index_of_mem. eauto. }
    eexists. split; [reflexivity|]. rewrite Hhas.
    unfold get_column. cbn [columns rows]. rewrite Ei.
    split; [|split; [|split; [|split]]].
    + f_equal.
      rewrite (@map_map2_rows _ _ _ _ (fun _ v => v) Hl).
      * apply map2_snd, Hl.
      * eapply Forall_impl; [|exact Hlen]. cbv beta. intros r Hr v.
        apply set_at_same. lia.
    + intros c Hc. destruct (index_of c (columns df)) as [j|] eqn:Ej;
        [|reflexivity].
      f_equal.
      assert (Hij : i <> j).
      { intros ->. apply index_of_nth in Ej. congruence. }
      rewrite (@map_map2_rows _ _ _ _ (fun r _ => nth j r Null) Hl).
      * apply map2_fst, Hl.
      * apply Forall_forall. intros r _ v. apply set_at_other, Hij.
    + unfold well_formed, rows_satisfy. cbn [columns rows].
      apply map2_Forall. eapply Forall_impl; [|exact Hlen]. cbv beta.
      intros r Hr v. apply Forall2_True_length.
      rewrite set_at_length. congruence.
    + rewrite map2_length; [reflexivity|exact Hl].
    + reflexivity.
  - assert (Hhas : has_column df name = false).
    { unfold has_column. destruct (existsb _ _) eqn:E; [|reflexivity].
      apply index_of_mem in E. destruct E as [i E]. congruence. }
    eexists. split; [reflexivity|]. rewrite Hhas.
    unfold get_column. cbn [columns rows]. rewrite (index_of_app_new _ _ Ei).
    split; [|split; [|split; [|split]]].
    + f_equal.
      rewrite (@map_map2_rows _ _ _ _ (fun _ v => v) Hl).
      * apply map2_snd, Hl.
      * eapply Forall_impl; [|exact Hlen]. cbv beta. intros r Hr v.
        rewrite <- Hr. apply nth_middle.
    + intros c Hc. rewrite (index_of_app_other _ Hc).
      destruct (index_of c (columns df)) as [j|] eqn:Ej; [|reflexivity].
      f_equal.
      assert (Hj : (j < List.length (columns df))%nat).
      { apply index_of_nth in Ej. apply nth_error_Some. congruence. }
      rewrite (@map_map2_rows _ _ _ _ (fun r _ => nth j r Null) Hl).
      * apply map2_fst, Hl.
      * eapply Forall_impl; [|exact Hlen]. cbv beta. intros r Hr v.
        apply app_nth1. lia.
    + unfold well_formed, rows_satisfy. cbn [columns rows].
      apply map2_Forall. eapply Forall_impl; [|exact Hlen]. cbv beta.
      intros r Hr v. apply Forall2_True_length.
      rewrite !length_app. simpl. lia.
    + rewrite map2_length; [reflexivity|exact Hl].
    + reflexivity.
Qed.

Section ClusterFacts.

Variables scaler kmeans matrix : Type.
Variable StandardScaler_fit_transform : DataFrame -> result (scaler * matrix).
Variable KMeans_fit_predict : nat -> matrix -> result (kmeans * list Z).

(** X13.  When the feature columns exist and the scaler and K-means
    succeed, [cluster_regions] stores the fitted model and scaler on the
    object and keeps [n_clusters].  With one label per row, the table it
    returns has a Cluster column that holds the labels in row order and
    every other column as in the input, on the same number of rows; Cluster
    is appended to the header unless the input had such a column, which is
    then overwritten.  With another number of labels the input table comes
    back unchanged, although the model has been stored. *)
Theorem cluster_regions_adds_labels
  (self : PopulationClusterer scaler kmeans) (df X : DataFrame)
  (features : list string) (s : scaler) (m : matrix) (model : kmeans)
  (clusters : list Z) :
  well_formed df ->
  select_columns df features = Ok X ->
  StandardScaler_fit_transform (fillna_zero X) = Ok (s, m) ->
  KMeans_fit_predict (n_clusters self) m = Ok (model, clusters) ->
  exists df_result,
    cluster_regions StandardScaler_fit_transform KMeans_fit_predict
      self df features
    = (df_result, {| n_clusters := n_clusters self;
                     kmeans_model := Some model;
                     clusterer_scaler := Some s |}) /\
    (List.length clusters = List.length (rows df) ->
     get_column df_result "Cluster"
     = Ok (map (fun c => Num (inject_Z c)) clusters) /\
     (forall c, c <> "Cluster" -> get_column df_result c = get_column df c) /\
     well_formed df_result /\
     List.length (rows df_result) = List.length (rows df) /\
     columns df_result = if has_column df "Cluster" then columns df
                         else (columns df ++ ["Cluster"])%list) /\
    (List.length clusters <> List.length (rows df) -> df_result = df).
Proof.
  intros Hwf HX Hs Hk. unfold cluster_regions, cluster_attempt.
  rewrite HX. cbn [bind]. rewrite Hs. cbn [bind snd fst]. rewrite Hk.
  cbn [bind].
  destruct (Nat.eq_dec (List.length clusters) (List.length (rows df)))
    as [Hl|Hl].
  - assert (Hl' : List.length (map (fun c => Num (inject_Z c)) clusters)
                  = List.length (rows df)) by (rewrite length_map; exact Hl).
    destruct (@assign_column_get df "Cluster" _ Hwf Hl')
      as (df' & -> & H1 & H2 & H3 & H4 & H5).
    exists df'. split; [reflexivity|]. split; [|contradiction].
    intros _. auto.
  - unfold assign_column. rewrite length_map.
    apply Nat.eqb_neq in Hl. rewrite Hl. cbn [negb].
    exists df. split; [reflexivity|]. split; [|reflexivity].
    apply Nat.eqb_neq in Hl. contradiction.
Qed.

End ClusterFacts.

Lemma cluster_regions_witness :
  exists df_result self',
    cluster_regions identity_scaler constant_kmeans
      {| n_clusters := 5; kmeans_model := None; clusterer_scaler := None |}
      regions_sample ["Enrolment_Count"; "Biometric_Updates"]
    = (df_result, self') /\
    kmeans_model self' = Some tt /\
    get_column df_result "Cluster" = Ok [Num 0; Num 0; Num 0] /\
    get_column df_result "State" = get_column regions_sample "State".
Proof.
  assert (Hwf : well_formed regions_sample).
  { unfold well_formed, rows_satisfy. simpl. repeat constructor. }
  destruct (select_columns regions_sample ["Enrolment_Count"; "Biometric_Updates"])
    as [X|e] eqn:EX; [|vm_compute in EX; discriminate EX].
  destruct (@cluster_regions_adds_labels unit unit DataFrame identity_scaler
              constant_kmeans
              {| n_clusters := 5; kmeans_model := None; clusterer_scaler := None |}
              regions_sample X ["Enrolment_Count"; "Biometric_Updates"]
              tt (fillna_zero X) tt (repeat 0%Z (List.length (rows (fillna_zero X))))
              Hwf EX eq_refl eq_refl)
    as (df_result & E & Hok & _).
  exists df_result. eexists. split; [exact E|]. split; [reflexivity|].
  assert (Hl : List.length (repeat 0%Z (List.length (rows (fillna_zero X))))
               = List.length (rows regions_sample)).
  { vm_compute in EX. injection EX as <-. reflexivity. }
  destruct (Hok Hl) as (Hc & Hother & _).
  split.
  - rewrite Hc. vm_compute in EX. injection EX as <-. reflexivity.
  - apply Hother. intros F. discriminate F.
Defined.


(** ** Insight generator: the highest risks *)

Lemma records_three (t : Table) (a b c : string) (sa sb sc : series)
  (idx : list nat) :
  table_column t a = Some sa -> table_column t b = Some sb ->
  table_column t c = Some sc ->
  records t [a; b; c] idx
  = Ok (map (fun i => [(a, nth i (series_fields sa) (FCell Null));
                       (b, nth i (series_fields sb) (FCell Null));
                       (c, nth i (series_fields sc) (FCell Null))]) idx).
Proof.
  intros Ha Hb Hc. unfold records. cbn [mapM]. rewrite Ha, Hb, Hc. reflexivity.
Qed.

Lemma enumerate_from_fst (A : Type) (l : list A) (a : nat) :
  map fst (enumerate_from a l) = seq a (List.length l).
Proof.
  revert a. induction l as [|x l IH]; intros a; simpl; [reflexivity|].
  rewrite IH. reflexivity.
Qed.

Lemma firstn_In (A : Type) (n : nat) (l : list A) (x : A) :
  In x (firstn n l) -> In x l.
Proof.
  revert n. induction l as [|a l IH]; intros [|n]; simpl; try tauto.
  intros [H|H]; [left; exact H|right; eapply IH; exact H].
Qed.

Lemma StronglySorted_firstn (A : Type) (R : A -> A -> Prop) (n : nat)
  (l : list A) :
  StronglySorted R l -> StronglySorted R (firstn n l).
Proof.
  intros H. revert n. induction H as [|a l Hs IH Ha]; intros [|n]; simpl;
    try constructor.
  - apply IH.
  - apply Forall_forall. intros x Hx. apply firstn_In in Hx.
    eapply Forall_forall in Ha; eauto.
Qed.

Lemma StronglySorted_cross (A : Type) (R : A -> A -> Prop) (l1 l2 : list A) :
  StronglySorted R (l1 ++ l2) ->
  forall a b, In a l1 -> In b l2 -> R a b.
Proof.
  induction l1 as [|x l1 IH]; simpl; [tauto|].
  intros H a b [<-|Ha] Hb.
  - apply StronglySorted_inv in H. destruct H as [_ H].
    eapply Forall_forall in H; [exact H|]. apply in_or_app. right. exact Hb.
  - apply StronglySorted_inv in H. destruct H as [H _]. eapply IH; eauto.
Qed.

Lemma StronglySorted_map_in (A B : Type) (R : A -> A -> Prop)
  (R' : B -> B -> Prop) (f : A -> B) (l : list A) :
  (forall a b, In a l -> In b l -> R a b -> R' (f a) (f b)) ->
  StronglySorted R l -> StronglySorted R' (map f l).
Proof.
  intros Hf H. induction H as [|a l Hs IH Ha]; simpl; constructor.
  - apply IH. intros x y Hx Hy. apply Hf; right; assumption.
  - apply Forall_map, Forall_forall. intros x Hx. apply Hf.
    + left. reflexivity.
    + right. exact Hx.
    + eapply Forall_forall in Ha; eauto.
Qed.

(** The labels chosen by [nlargest] on a column without missing values. *)
Lemma nlargest_spec (n : nat) (values : list float64) :
  Forall (fun x => isnan x = false) values ->
  let idx := nlargest n values in
  List.length idx = Nat.min n (List.length values) /\
  NoDup idx /\
  Forall (fun i => (i < List.length values)%nat) idx /\
  StronglySorted (fun i j => fle (nth j values NaN) (nth i values NaN)) idx /\
  (forall i j, In i idx -> (j < List.length values)%nat -> ~ In j idx ->
               fle (nth j values NaN) (nth i values NaN)).
Proof.
  intros Hnn. unfold nlargest. cbv zeta.
  set (labelled := enumerate_from 0 values).
  assert (Hlab : Forall (fun ix => isnan (snd ix) = false) labelled).
  { apply Forall_forall. intros [i x] Hin. apply enumerate_from_In in Hin.
    apply nth_error_In in Hin. eapply Forall_forall in Hnn; eauto. }
  assert (Epresent : filter (fun ix => negb (isnan (snd ix))) labelled
                     = labelled).
  { apply filter_all. intros ix Hin.
    rewrite (proj1 (Forall_forall _ _) Hlab ix Hin). reflexivity. }
  assert (Emissing : filter (fun ix : nat * float64 => isnan (snd ix)) labelled
                     = []).
  { apply filter_none. intros ix Hin.
    apply (proj1 (Forall_forall _ _) Hlab ix Hin). }
  rewrite Epresent, Emissing, app_nil_r.
  set (sorted := sort_descending snd labelled).
  pose proof (sort_descending_perm snd labelled) as Hperm. fold sorted in Hperm.
  assert (Hsorted : StronglySorted (fun a b => fle (snd b) (snd a)) sorted)
    by (apply sort_descending_sorted, Hlab).
  assert (Hval : forall i x, In (i, x) sorted ->
                   nth_error values i = Some x).
  { intros i x Hin. apply (Permutation_in _ Hperm) in Hin.
    apply enumerate_from_In, Hin. }
  assert (Hlen : List.length sorted = List.length values).
  { rewrite (Permutation_length Hperm). unfold labelled.
    rewrite <- (length_map fst), enumerate_from_fst, length_seq. reflexivity. }
  assert (Hnd : NoDup (map fst sorted)).
  { apply (Permutation_NoDup (Permutation_map fst (Permutation_sym Hperm))).
    unfold labelled. rewrite enumerate_from_fst. apply seq_NoDup. }
  rewrite <- (firstn_skipn n sorted) in Hnd, Hsorted.
  split; [|split; [|split; [|split]]].
  - rewrite length_map, length_firstn, Hlen. reflexivity.
  - rewrite map_app in Hnd. apply NoDup_app_remove_r in Hnd. exact Hnd.
  - apply Forall_map, Forall_forall. intros [i x] Hin. cbn [fst].
    apply firstn_In in Hin. apply Hval in Hin.
    apply nth_error_Some. congruence.
  - apply (@StronglySorted_map_in _ _ (fun a b => fle (snd b) (snd a))).
    + intros [i x] [j y] Hi Hj Hr. cbn [fst snd] in *.
      apply firstn_In in Hi, Hj. apply Hval in Hi, Hj.
      rewrite (nth_error_nth _ _ NaN Hi), (nth_error_nth _ _ NaN Hj). exact Hr.
    + apply StronglySorted_firstn.
      rewrite (firstn_skipn n sorted) in Hsorted. exact Hsorted.
  - intros i j Hi Hj Hnot. apply in_map_iff in Hi.
    destruct Hi as ([i' x] & <- & Hi). cbn [fst].
    destruct (nth_error values j) as [y|] eqn:Ej;
      [|apply nth_error_None in Ej; lia].
    assert (Hjs : In (j, y) sorted).
    { apply (Permutation_in _ (Permutation_sym Hperm)).
      apply enumerate_from_In, Ej. }
    rewrite <- (firstn_skipn n sorted) in Hjs. apply in_app_or in Hjs.
    destruct Hjs as [Hjs|Hjs].
    + exfalso. apply Hnot. apply in_map_iff. exists (j, y). auto.
    + pose proof (StronglySorted_cross _ _ Hsorted _ _ Hi Hjs) as Hr.
      cbn [snd] in Hr. apply firstn_In in Hi. apply Hval in Hi.
      rewrite (nth_error_nth _ _ NaN Hi), (nth_error_nth _ _ NaN Ej). exact Hr.
Qed.

(** The table of [calculate_migration_indicators], column by column. *)
Lemma migration_table_columns (self : AadhaarDataPipeline) (t : Table) :
  calculate_migration_indicators self = Ok t -> t <> [] ->
  exists State District Enrolment Updates Update_Rate,
    t = [("State", Cells State); ("District", Cells District);
         ("Enrolment", Cells Enrolment); ("Updates", Cells Updates);
         ("Update_Rate", Floats Update_Rate);
         ("Migration_Risk", Floats (_calculate_migration_risk Update_Rate))] /\
    List.length State = List.length Update_Rate /\
    List.length District = List.length Update_Rate.
Proof.
  intros Hcalc Hne.
  unfold calculate_migration_indicators in Hcalc.
  destruct (enrolment_df self) as [enrolment|]; [|discriminate].
  destruct (demographic_df self) as [demographic|]; [|discriminate].
  destruct (merge enrolment demographic _ _ _) as [merged|]; [|discriminate].
  cbn [bind] in Hcalc.
  destruct (has_column merged "Aadhaar Generated_enrol"
            && has_column merged "Update_count");
    [|injection Hcalc as <-; contradiction].
  destruct (get_column merged "State") as [State|] eqn:ES; [|discriminate].
  destruct (get_column merged "District") as [District|] eqn:ED; [|discriminate].
  destruct (get_column merged "Aadhaar Generated_enrol") as [Enrolment|] eqn:EE;
    [|discriminate].
  destruct (get_column merged "Update_count") as [Updates|] eqn:EU; [|discriminate].
  cbn [bind] in Hcalc.
  destruct (to_floats Updates) as [us|] eqn:Eus; [|discriminate].
  destruct (to_floats Enrolment) as [es|] eqn:Ees; [|discriminate].
  cbn [bind] in Hcalc. injection Hcalc as <-.
  apply get_column_length in ES, ED, EE, EU.
  pose proof (to_floats_length _ Eus) as Lus.
  pose proof (to_floats_length _ Ees) as Les.
  do 5 eexists. split; [reflexivity|].
  rewrite map2_length by congruence. split; congruence.
Qed.

(** X15.  [generate_migration_insights] raises KeyError on a table without
    a Migration_Risk column, such as the empty table that
    [calculate_migration_indicators] returns when the merged data lacks its
    two columns.  On a table with State, District and a Migration_Risk
    column without missing values it reports nothing for a table without
    rows and otherwise one HIGH insight on min(10, rows) rows of the table,
    no row twice, in descending order of risk, and no row left out has a
    higher risk than a row reported.  On every table with columns that
    [calculate_migration_indicators] returns it does not raise, and each
    risk it reports is in [0,100]. *)
Theorem migration_insight_lists_highest_risks :
  (forall t, table_column t "Migration_Risk" = None ->
             generate_migration_insights t = Raise (KeyError "Migration_Risk")) /\
  (forall self,
      calculate_migration_indicators self = Ok [] ->
      (t <- calculate_migration_indicators self ;; generate_migration_insights t)
      = Raise (KeyError "Migration_Risk")) /\
  (forall t State District risk,
      table_column t "State" = Some (Cells State) ->
      table_column t "District" = Some (Cells District) ->
      table_column t "Migration_Risk" = Some (Floats risk) ->
      List.length State = List.length risk ->
      List.length District = List.length risk ->
      Forall (fun x => isnan x = false) risk ->
      exists insights,
        generate_migration_insights t = Ok insights /\
        (insights = [] <-> risk = []) /\
        (forall ins, In ins insights ->
           insights = [ins] /\ severity ins = "HIGH" /\
           finding ins = str (Nat.min 10 (List.length risk))
                         ++ " districts show high migration risk" /\
           exists idx,
             List.length idx = Nat.min 10 (List.length risk) /\
             NoDup idx /\
             Forall (fun i => (i < List.length risk)%nat) idx /\
             details ins
             = map (fun i => [("State", FCell (nth i State Null));
                              ("District", FCell (nth i District Null));
                              ("Migration_Risk", FFloat (nth i risk NaN))]) idx /\
             StronglySorted (fun i j => fle (nth j risk NaN) (nth i risk NaN))
                            idx /\
             (forall i j, In i idx -> (j < List.length risk)%nat ->
                          ~ In j idx ->
                          fle (nth j risk NaN) (nth i risk NaN)))) /\
  (forall self t,
      calculate_migration_indicators self = Ok t -> t <> [] ->
      exists insights,
        generate_migration_insights t = Ok insights /\
        forall ins d, In ins insights -> In d (details ins) ->
          exists s dd r,
            d = [("State", FCell s); ("District", FCell dd);
                 ("Migration_Risk", FFloat r)] /\
            in_range 0 100 r).
Proof.
  assert (Hmissing : forall t, table_column t "Migration_Risk" = None ->
            generate_migration_insights t = Raise (KeyError "Migration_Risk")).
  { intros t H. unfold generate_migration_insights, table_floats.
    rewrite H. reflexivity. }
  assert (Hmain : forall t State District risk,
      table_column t "State" = Some (Cells State) ->
      table_column t "District" = Some (Cells District) ->
      table_column t "Migration_Risk" = Some (Floats risk) ->
      List.length State = List.length risk ->
      List.length District = List.length risk ->
      Forall (fun x => isnan x = false) risk ->
      exists insights,
        generate_migration_insights t = Ok insights /\
        (insights = [] <-> risk = []) /\
        (forall ins, In ins insights ->
           insights = [ins] /\ severity ins = "HIGH" /\
           finding ins = str (Nat.min 10 (List.length risk))
                         ++ " districts show high migration risk" /\
           exists idx,
             List.length idx = Nat.min 10 (List.length risk) /\
             NoDup idx /\
             Forall (fun i => (i < List.length risk)%nat) idx /\
             details ins
             = map (fun i => [("State", FCell (nth i State Null));
                              ("District", FCell (nth i District Null));
                              ("Migration_Risk", FFloat (nth i risk NaN))]) idx /\
             StronglySorted (fun i j => fle (nth j risk NaN) (nth i risk NaN))
                            idx /\
             (forall i j, In i idx -> (j < List.length risk)%nat ->
                          ~ In j idx ->
                          fle (nth j risk NaN) (nth i risk NaN)))).
  { intros t State District risk HS HD HR LS LD Hnn.
    unfold generate_migration_insights, table_floats. rewrite HR. cbn [bind].
    destruct (nlargest_spec 10 Hnn) as (Hlen & Hnd & Hlt & Hsorted & Hdom).
    set (idx := nlargest 10 risk) in *.
    rewrite (@records_three _ _ _ _ _ _ _ idx HS HD HR). cbn [bind app].
    destruct (0 <? List.length idx)%nat eqn:Epos.
    - eexists. split; [reflexivity|]. split.
      + split; [discriminate|]. intros E. apply Nat.ltb_lt in Epos.
        rewrite E in Hlen. change (List.length (@nil float64)) with 0%nat in Hlen.
        lia.
      + intros ins [<-|[]]. cbn [severity finding details].
        split; [reflexivity|]. split; [reflexivity|].
        split; [rewrite Hlen; reflexivity|].
        exists idx. split; [exact Hlen|]. split; [exact Hnd|].
        split; [exact Hlt|]. split; [|split; [exact Hsorted|exact Hdom]].
        apply map_ext_in. intros i Hi.
        pose proof (proj1 (Forall_forall _ _) Hlt i Hi) as Hi'.
        cbv beta in Hi'. cbn [series_fields].
        rewrite (map_nth FCell State Null i), (map_nth FCell District Null i).
        destruct (nth_error risk i) as [x|] eqn:Ex;
          [|apply nth_error_None in Ex; lia].
        rewrite (@nth_map_some _ _ FFloat _ _ _ _ Ex).
        rewrite (nth_error_nth _ _ NaN Ex). reflexivity.
    - exists []. split; [reflexivity|]. split; [|intros ins []].
      split; [|reflexivity]. intros _.
      apply Nat.ltb_ge in Epos. destruct risk as [|x risk]; [reflexivity|].
      simpl in Hlen. lia. }
  split; [exact Hmissing|]. split; [|split; [exact Hmain|]].
  - intros self ->. cbn [bind]. apply Hmissing. reflexivity.
  - intros self t Hcalc Hne.
    destruct (@migration_table_columns self t Hcalc Hne)
      as (State & District & Enrolment & Updates & Update_Rate & -> & LS & LD).
    set (risk := _calculate_migration_risk Update_Rate).
    pose proof (migration_risk_in_range Update_Rate) as Hrange.
    fold risk in Hrange.
    assert (Hnn : Forall (fun x => isnan x = false) risk).
    { eapply Forall_impl; [|exact Hrange]. intros x Hx.
      destruct x; simpl in Hx; try contradiction. reflexivity. }
    assert (Lr : List.length risk = List.length Update_Rate)
      by apply migration_risk_length.
    assert (LS' : List.length State = List.length risk) by congruence.
    assert (LD' : List.length District = List.length risk) by congruence.
    match goal with
    | |- context [generate_migration_insights ?tt] =>
        destruct (Hmain tt State District risk eq_refl eq_refl eq_refl
                    LS' LD' Hnn)
          as (insights & Hgen & _ & Hins)
    end.
    exists insights. split; [exact Hgen|].
    intros ins d Hin Hd.
    destruct (Hins ins Hin) as (_ & _ & _ & idx & _ & _ & Hlt & Hdet & _).
    rewrite Hdet in Hd. apply in_map_iff in Hd. destruct Hd as (i & <- & Hi).
    do 3 eexists. split; [reflexivity|].
    pose proof (proj1 (Forall_forall _ _) Hlt i Hi) as Hi'.
    cbv beta in Hi'.
    apply (proj1 (Forall_forall _ _) Hrange). apply nth_In. exact Hi'.
Qed.

Lemma migration_insight_witness :
  exists ins,
    (t <- calculate_migration_indicators migration_pipeline ;;
     generate_migration_insights t) = Ok [ins] /\
    finding ins = "4 districts show high migration risk" /\
    Forall (fun d => exists s dd r,
                d = [("State", FCell s); ("District", FCell dd);
                     ("Migration_Risk", FFloat r)] /\
                in_range 0 100 r) (details ins).
Proof.
  destruct migration_insight_lists_highest_risks as (_ & _ & _ & H).
  destruct (calculate_migration_indicators migration_pipeline) as [t|e] eqn:E;
    [|vm_compute in E; discriminate E].
  assert (Hne : t <> []).
  { pose proof E as E'. vm_compute in E'. injection E' as <-.
    intros F; discriminate F. }
  destruct (H _ t E Hne) as (insights & Hgen & Hd). cbn [bind].
  assert (Hshape : exists ins,
             insights = [ins] /\
             finding ins = "4 districts show high migration risk").
  { clear Hd. vm_compute in E. injection E as <-.
    vm_compute in Hgen. injection Hgen as <-.
    eexists. split; reflexivity. }
  destruct Hshape as (ins & -> & Hf).
  exists ins. split; [exact Hgen|]. split; [exact Hf|].
  apply Forall_forall. intros d Hin.
  apply (Hd ins d (or_introl eq_refl) Hin).
Defined.


(** ** Age groups *)

(** The table of sums of one dataset. *)
Lemma age_group_sum_spec (df : DataFrame) (value : string) (tbl : DataFrame) :
  age_group_sum df value = Ok tbl ->
  exists Age_Group values,
    get_column df "Age_Group" = Ok Age_Group /\
    get_column df value = Ok values /\
    columns tbl = ["Age_Group"; value] /\
    numeric_total (column_at 1 (rows tbl))
    == numeric_total (keyed_values (map (fun g => [g]) Age_Group) values) /\
    (forall g, isnull g = false ->
       List.length (filter (fun r => cell_eqb g (nth 0 r Null)) (rows tbl))
       = if existsb (cell_eqb g) Age_Group then 1%nat else 0%nat).
Proof.
  unfold age_group_sum.
  destruct (get_column df "Age_Group") as [Age_Group|] eqn:EA; [|discriminate].
  destruct (get_column df value) as [values|] eqn:EV; [|discriminate].
  cbn [bind]. set (keys := map (fun g => [g]) Age_Group).
  destruct (mapM _ (group_keys keys)) as [sums|] eqn:ES; [|discriminate].
  cbn [bind]. intros H. injection H as <-. cbn [columns rows].
  exists Age_Group, values. split; [reflexivity|]. split; [reflexivity|].
  split; [reflexivity|].
  apply mapM_Ok in ES.
  assert (Hshape : forall k, In k (group_keys keys) ->
            exists g, k = [g] /\ isnull g = false).
  { intros k Hk. apply group_keys_In in Hk. destruct Hk as [Hin Hn].
    apply in_map_iff in Hin. destruct Hin as [g [<- _]].
    simpl in Hn. apply orb_false_iff in Hn. exists g. tauto. }
  split.
  - assert (Hw : Forall (fun k => List.length k = 1%nat) (group_keys keys)).
    { apply Forall_forall. intros k Hk. destruct (Hshape k Hk) as (g & -> & _).
      reflexivity. }
    pose proof (@sums_total 1 keys values (group_keys keys) sums Hw ES) as H1.
    assert (Hin : Forall (fun kv : row * cell => In (fst kv) keys)
                         (combine keys values)).
    { apply Forall_forall. intros [k v] Hin. apply in_combine_l in Hin.
      exact Hin. }
    pose proof (@groups_partition keys (combine keys values) Hin) as H2.
    exact (Qeq_trans _ _ _ H1 H2).
  - intros g Hg.
    assert (Hk : has_null [g] = false) by (simpl; rewrite Hg; reflexivity).
    rewrite <- (existsb_map_key g Age_Group).
    change (map (fun s => [s]) Age_Group) with keys.
    rewrite <- (@group_keys_count [g] keys Hk).
    clear - ES Hshape. induction ES as [|k r groups sums Hr ES IH];
      [reflexivity|].
    destruct (group_sum (group_values keys values k)) as [v|]; [|discriminate].
    cbn [bind] in Hr. injection Hr as <-.
    destruct (Hshape k (or_introl eq_refl)) as (g' & -> & _).
    cbn [filter app nth row_eqb]. rewrite andb_true_r.
    destruct (cell_eqb g g'); cbn [List.length]; rewrite IH; auto.
    + intros k Hk. apply Hshape. right. exact Hk.
    + intros k Hk. apply Hshape. right. exact Hk.
Qed.

Lemma age_entry_spec (analysis : list (string * DataFrame)) (name : string)
  (odf : option DataFrame) (value : string) (out : list (string * DataFrame)) :
  age_entry analysis name odf value = Ok out ->
  (exists df tbl, odf = Some df /\ has_column df "Age_Group" = true /\
                  age_group_sum df value = Ok tbl /\
                  out = dict_set analysis name tbl) \/
  ((forall df, odf = Some df -> has_column df "Age_Group" = false) /\
   out = analysis).
Proof.
  unfold age_entry. destruct odf as [df|].
  - destruct (has_column df "Age_Group") eqn:H.
    + destruct (age_group_sum df value) as [tbl|] eqn:E; [|discriminate].
      cbn [bind]. intros Ho. injection Ho as <-. left. eauto 6.
    + intros Ho. injection Ho as <-. right. split; [|reflexivity].
      intros df' E. injection E as <-. exact H.
  - intros Ho. injection Ho as <-. right. split; [|reflexivity].
    intros df' E. discriminate E.
Qed.

Ltac in_entries H :=
  repeat (destruct H as [H|H];
          [ first [ discriminate H
                  | injection H as H; try discriminate H; subst ]
          | ]);
  try contradiction.

(** X16.  On loaded tables with distinct column names,
    [calculate_age_group_analysis] returns an empty analysis when no table
    has an Age_Group column, and raises KeyError when the enrolment table has
    Age_Group but no 'Aadhaar Generated' column.  An analysis it returns has
    an entry for a dataset exactly when that dataset is loaded and has an
    Age_Group column; the entry has the columns Age_Group and the summed
    column and one row for each age group that occurs; when the summed
    column has exact sums, the sums of the entry add up to the total of the
    column over the rows with an age group. *)
Theorem age_group_analysis_entries (self : AadhaarDataPipeline) :
  (forall name df value,
      In (name, Some df, value) (age_sources self) -> NoDup (columns df)) ->
  ((forall name df value,
       In (name, Some df, value) (age_sources self) ->
       has_column df "Age_Group" = false) ->
   calculate_age_group_analysis self = Ok []) /\
  (forall df,
      enrolment_df self = Some df ->
      has_column df "Age_Group" = true ->
      has_column df "Aadhaar Generated" = false ->
      calculate_age_group_analysis self = Raise (KeyError "Aadhaar Generated")) /\
  (forall analysis,
      calculate_age_group_analysis self = Ok analysis ->
      NoDup (map fst analysis) /\
      forall name odf value,
        In (name, odf, value) (age_sources self) ->
        ((exists tbl, In (name, tbl) analysis) <->
         (exists df, odf = Some df /\ has_column df "Age_Group" = true)) /\
        (forall tbl,
            In (name, tbl) analysis ->
            exists df Age_Group values,
              odf = Some df /\
              get_column df "Age_Group" = Ok Age_Group /\
              get_column df value = Ok values /\
              columns tbl = ["Age_Group"; value] /\
              (exact_counts values ->
               numeric_total (column_at 1 (rows tbl))
               == numeric_total
                    (keyed_values (map (fun g => [g]) Age_Group) values)) /\
              (forall g, isnull g = false ->
                 List.length (filter (fun r => cell_eqb g (nth 0 r Null))
                                     (rows tbl))
                 = if existsb (cell_eqb g) Age_Group then 1%nat else 0%nat))).
Proof.
  intros _. split; [|split].
  - intros Hnone. unfold calculate_age_group_analysis, age_entry.
    unfold age_sources in Hnone.
    destruct (enrolment_df self) as [e|];
      [rewrite (Hnone "enrolment_age" e "Aadhaar Generated")
         by (left; reflexivity)|];
      (destruct (demographic_df self) as [d|];
       [rewrite (Hnone "demographic_age" d "Update_Count")
          by (right; left; reflexivity)|]);
      (destruct (biometric_df self) as [b|];
       [rewrite (Hnone "biometric_age" b "Update_Count")
          by (right; right; left; reflexivity)|]);
      reflexivity.
  - intros df Hdf Hage Hval.
    unfold calculate_age_group_analysis, age_entry, age_group_sum.
    rewrite Hdf, Hage. destruct (has_column_get _ _ Hage) as [Age_Group ->].
    rewrite (get_column_KeyError _ _ Hval). reflexivity.
  - intros analysis. unfold calculate_age_group_analysis.
    destruct (age_entry [] _ _ _) as [a1|] eqn:E1; [|discriminate].
    cbn [bind].
    destruct (age_entry a1 _ _ _) as [a2|] eqn:E2; [|discriminate].
    cbn [bind].
    destruct (age_entry a2 _ _ _) as [a3|] eqn:E3; [|discriminate].
    cbn [bind]. intros H. injection H as <-.
    apply age_entry_spec in E1, E2, E3.
    destruct E1 as [(df1 & t1 & Hd1 & Hh1 & Hs1 & ->)|(Hn1 & ->)];
      destruct E2 as [(df2 & t2 & Hd2 & Hh2 & Hs2 & ->)|(Hn2 & ->)];
      destruct E3 as [(df3 & t3 & Hd3 & Hh3 & Hs3 & ->)|(Hn3 & ->)];
      simpl.
    all: split;
      [ repeat (apply NoDup_cons; [simpl; intuition discriminate|]);
        apply NoDup_nil | ].
    all: intros name odf value Hsrc; unfold age_sources in Hsrc;
      in_entries Hsrc.
    all: split;
      [ split;
        [ intros [tbl Hin]; in_entries Hin; eauto
        | intros (df & Hdf & Hhas);
          first [ eexists; simpl; eauto 6; fail
                | exfalso;
                  match goal with
                  | Hn : forall df, _ = Some df -> _ = false |- _ =>
                      rewrite (Hn df Hdf) in Hhas; discriminate Hhas
                  end ] ]
      | intros tbl Hin; in_entries Hin;
        match goal with
        | Hs : age_group_sum ?df _ = Ok tbl |- _ =>
            destruct (age_group_sum_spec _ _ Hs)
              as (Age_Group & values & HA & HV & HC & HT & HN);
            exists df, Age_Group, values; auto 8
        end ].
Qed.

Lemma age_group_analysis_witness :
  calculate_age_group_analysis (pipeline_of biometric_sample)
  = Raise (KeyError "Aadhaar Generated") /\
  calculate_age_group_analysis (pipeline_of pincode_sample) = Ok [] /\
  exists tbl,
    calculate_age_group_analysis biometric_only = Ok [("biometric_age", tbl)] /\
    columns tbl = ["Age_Group"; "Update_Count"] /\
    numeric_total (column_at 1 (rows tbl)) == 7.
Proof.
  assert (N1 : forall name df value,
             In (name, Some df, value) (age_sources (pipeline_of biometric_sample)) ->
             NoDup (columns df)).
  { intros name df value H. unfold age_sources in H. simpl in H.
    destruct H as [H|[H|[H|[]]]]; injection H as _ <- _;
      repeat constructor; simpl; intuition discriminate. }
  assert (N2 : forall name df value,
             In (name, Some df, value) (age_sources (pipeline_of pincode_sample)) ->
             NoDup (columns df)).
  { intros name df value H. unfold age_sources in H. simpl in H.
    destruct H as [H|[H|[H|[]]]]; injection H as _ <- _;
      repeat constructor; simpl; intuition discriminate. }
  assert (N3 : forall name df value,
             In (name, Some df, value) (age_sources biometric_only) ->
             NoDup (columns df)).
  { intros name df value H. unfold age_sources in H. simpl in H.
    destruct H as [H|[H|[H|[]]]]; try discriminate H. injection H as _ <- _.
    repeat constructor; simpl; intuition discriminate. }
  split; [|split].
  - apply (proj1 (proj2 (age_group_analysis_entries N1)) biometric_sample);
      reflexivity.
  - apply (proj1 (age_group_analysis_entries N2)).
    intros name df value H. unfold age_sources in H. simpl in H.
    destruct H as [H|[H|[H|[]]]]; injection H as _ <- _; reflexivity.
  - destruct (calculate_age_group_analysis biometric_only) as [analysis|e] eqn:E;
      [|vm_compute in E; discriminate E].
    destruct (proj2 (proj2 (age_group_analysis_entries N3))
                analysis E) as [_ H].
    destruct (H "biometric_age" (Some biometric_sample) "Update_Count")
      as [_ Htbl]; [right; right; left; reflexivity|].
    assert (Hshape : exists tbl, analysis = [("biometric_age", tbl)]).
    { vm_compute in E. injection E as <-. eexists. reflexivity. }
    destruct Hshape as [tbl ->]. exists tbl. split; [reflexivity|].
    destruct (Htbl tbl (or_introl eq_refl))
      as (df & A & V & Hdf & HA & HV & HC & HT & _).
    split; [exact HC|].
    injection Hdf as <-. vm_compute in HA. vm_compute in HV.
    injection HA as <-. injection HV as <-.
    rewrite HT; [reflexivity|].
    split; [reflexivity|vm_compute; discriminate].
Defined.


(** ** Time series *)








Section SeriesFacts.

Variable strptime : string -> option Z.
Variable epoch : Q -> option Z.


End SeriesFacts.



(** ** Order of the groups *)

Lemma ascii_compare_lt_trans (a b c : ascii) :
  Ascii.compare a b = Lt -> Ascii.compare b c = Lt -> Ascii.compare a c = Lt.
Proof.
  unfold Ascii.compare. rewrite !N.compare_lt_iff. lia.
Qed.

Lemma string_leb_compare (s t : string) :
  String.leb s t = true <-> String.compare s t <> Gt.
Proof.
  unfold String.leb. destruct (String.compare s t); split; congruence.
Qed.

Lemma string_compare_trans (s t u : string) :
  String.compare s t <> Gt -> String.compare t u <> Gt ->
  String.compare s u <> Gt.
Proof.
  revert t u. induction s as [|a s IH]; intros [|b t] [|c u]; simpl;
    try congruence.
  destruct (Ascii.compare a b) eqn:Eab; try congruence;
    destruct (Ascii.compare b c) eqn:Ebc; try congruence.
  - apply Ascii.compare_eq_iff in Eab, Ebc. subst.
    assert (E : Ascii.compare c c = Eq)
      by (unfold Ascii.compare; apply N.compare_refl).
    rewrite E. apply IH.
  - apply Ascii.compare_eq_iff in Eab. subst. rewrite Ebc. congruence.
  - apply Ascii.compare_eq_iff in Ebc. subst. rewrite Eab. congruence.
  - rewrite (ascii_compare_lt_trans _ _ _ Eab Ebc). congruence.
Qed.

Lemma string_leb_trans (s t u : string) :
  String.leb s t = true -> String.leb t u = true -> String.leb s u = true.
Proof. rewrite !string_leb_compare. apply string_compare_trans. Qed.

Lemma Qle_bool_total (p q : Q) : Qle_bool p q = true \/ Qle_bool q p = true.
Proof.
  rewrite !Qle_bool_iff. destruct (Qlt_le_dec p q) as [H|H]; [left|right]; lra.
Qed.

Lemma cell_leb_total (a b : cell) : cell_leb a b = true \/ cell_leb b a = true.
Proof.
  destruct a, b; simpl; auto.
  - apply Qle_bool_total.
  - apply String.leb_total.
  - rewrite !Z.leb_le. lia.
Qed.

Lemma cell_leb_trans (a b c : cell) :
  cell_leb a b = true -> cell_leb b c = true -> cell_leb a c = true.
Proof.
  destruct a, b, c; simpl; try congruence; auto.
  - rewrite !Qle_bool_iff. lra.
  - apply string_leb_trans.
  - rewrite !Z.leb_le. lia.
Qed.

Lemma cell_leb_antisym (a b : cell) :
  cell_leb a b = true -> cell_leb b a = true -> cell_eqb a b = true.
Proof.
  destruct a, b; simpl; try congruence; auto.
  - rewrite !Qle_bool_iff. intros. apply Qeq_bool_iff. lra.
  - intros H1 H2. rewrite (String.leb_antisym _ _ H1 H2). apply String.eqb_refl.
  - rewrite !Z.leb_le. intros. apply Z.eqb_eq. lia.
Qed.

Lemma cell_eqb_leb (a b : cell) : cell_eqb a b = true -> cell_leb a b = true.
Proof.
  destruct a, b; simpl; try congruence; auto.
  - intros H. apply Qeq_bool_iff in H. apply Qle_bool_iff. lra.
  - intros H. apply String.eqb_eq in H. subst.
    destruct (String.leb_total s0 s0); assumption.
  - intros H. apply Z.eqb_eq in H. apply Z.leb_le. lia.
Qed.

Lemma row_leb_total (a b : row) : row_leb a b = true \/ row_leb b a = true.
Proof.
  revert b. induction a as [|x a IH]; intros [|y b]; simpl; auto.
  rewrite (cell_eqb_sym y x). destruct (cell_eqb x y); [apply IH|].
  apply cell_leb_total.
Qed.

Lemma row_leb_trans (a b c : row) :
  row_leb a b = true -> row_leb b c = true -> row_leb a c = true.
Proof.
  revert b c. induction a as [|x a IH]; intros [|y b] [|z c]; simpl;
    try congruence.
  destruct (cell_eqb x y) eqn:Exy, (cell_eqb y z) eqn:Eyz.
  - rewrite (cell_eqb_trans _ _ _ Exy Eyz). apply IH.
  - intros _ Hyz.
    assert (Exz : cell_eqb x z = false).
    { destruct (cell_eqb x z) eqn:E; [|reflexivity].
      rewrite cell_eqb_sym in Exy.
      rewrite (cell_eqb_trans _ _ _ Exy E) in Eyz. discriminate. }
    rewrite Exz. apply (cell_leb_trans _ _ _ (cell_eqb_leb _ _ Exy) Hyz).
  - intros Hxy _.
    assert (Exz : cell_eqb x z = false).
    { destruct (cell_eqb x z) eqn:E; [|reflexivity].
      rewrite cell_eqb_sym in Eyz.
      rewrite (cell_eqb_trans _ _ _ E Eyz) in Exy. discriminate. }
    rewrite Exz. apply (cell_leb_trans _ _ _ Hxy (cell_eqb_leb _ _ Eyz)).
  - intros Hxy Hyz.
    assert (Exz : cell_eqb x z = false).
    { destruct (cell_eqb x z) eqn:E; [|reflexivity].
      rewrite cell_eqb_sym in E. apply cell_eqb_leb in E.
      pose proof (cell_leb_trans _ _ _ E Hxy) as Hzy.
      rewrite (cell_leb_antisym _ _ Hyz Hzy) in Eyz. discriminate. }
    rewrite Exz. apply (cell_leb_trans _ _ _ Hxy Hyz).
Qed.

Lemma insert_sorted_sorted (k : row) (ks : list row) :
  StronglySorted (fun a b => row_leb a b = true) ks ->
  StronglySorted (fun a b => row_leb a b = true) (insert_sorted k ks).
Proof.
  intros Hs. induction Hs as [|k' ks Hs IH Hk']; simpl.
  - constructor; constructor.
  - destruct (row_leb k k') eqn:E.
    + constructor; [constructor; assumption|].
      constructor; [exact E|].
      eapply Forall_impl; [|exact Hk']. cbv beta. intros z Hz.
      apply (row_leb_trans _ _ _ E Hz).
    + constructor; [exact IH|].
      apply Forall_forall. intros z Hz. apply insert_sorted_In in Hz.
      destruct Hz as [->|Hz].
      * destruct (row_leb_total k k') as [H|H]; [congruence|exact H].
      * eapply Forall_forall in Hk'; eauto.
Qed.

Lemma sort_rows_sorted (ks : list row) :
  StronglySorted (fun a b => row_leb a b = true) (sort_rows ks).
Proof.
  induction ks as [|k ks IH]; simpl; [constructor|].
  apply insert_sorted_sorted, IH.
Qed.

Lemma group_keys_sorted (keys : list row) :
  StronglySorted (fun a b => row_leb a b = true) (group_keys keys).
Proof. apply sort_rows_sorted. Qed.

Lemma StronglySorted_nth (A : Type) (R : A -> A -> Prop) (l : list A)
  (i j : nat) (a b : A) :
  StronglySorted R l -> (i < j)%nat ->
  nth_error l i = Some a -> nth_error l j = Some b -> R a b.
Proof.
  intros H. revert i j. induction H as [|x l Hs IH Hx]; intros i j Hij Hi Hj.
  - destruct i; discriminate.
  - destruct j as [|j]; [lia|]. destruct i as [|i]; simpl in Hi, Hj.
    + injection Hi as <-. apply nth_error_In in Hj.
      eapply Forall_forall in Hx; eauto.
    + apply (IH i j); [lia|assumption|assumption].
Qed.

Lemma row_leb_head (x y : cell) (a b : row) :
  row_leb (x :: a) (y :: b) = true -> cell_leb x y = true.
Proof.
  simpl. destruct (cell_eqb x y) eqn:E; [|tauto].
  intros _. apply cell_eqb_leb, E.
Qed.

(** X18.  The rows of [aggregate_by_state_district] come in ascending order
    of (State, District), numbers by value and text by code point: of two
    rows of the result the earlier one never has the greater key, and with
    text States the State of an earlier row is never after that of a later
    row.  The States of [calculate_biometric_quality] are in ascending order
    as well. *)
Theorem groups_in_ascending_order :
  (forall df value_col State District out,
      get_column df "State" = Ok State ->
      get_column df "District" = Ok District ->
      aggregate_by_state_district df value_col = Ok out ->
      StronglySorted (fun r r' => row_leb (firstn 2 r) (firstn 2 r') = true)
                     (rows out) /\
      (forall i j r r' s s',
          (i < j)%nat ->
          nth_error (rows out) i = Some r -> nth_error (rows out) j = Some r' ->
          nth 0 r Null = Str s -> nth 0 r' Null = Str s' ->
          String.leb s s' = true)) /\
  (forall self t States,
      calculate_biometric_quality self = Ok t ->
      table_column t "State" = Some (Cells States) ->
      StronglySorted (fun a b => cell_leb a b = true) States).
Proof.
  split.
  - intros df value_col State District out HS HD Hagg.
    unfold aggregate_by_state_district in Hagg.
    rewrite (get_column_Ok _ _ HS), (get_column_Ok _ _ HD) in Hagg.
    simpl in Hagg. rewrite HS, HD in Hagg. cbn [bind] in Hagg.
    destruct (get_column df value_col) as [values|]; [|discriminate].
    cbn [bind] in Hagg.
    set (keys := map (fun sd => [fst sd; snd sd]) (combine State District))
      in Hagg.
    destruct (mapM _ (group_keys keys)) as [sums|] eqn:Esums; [|discriminate].
    cbn [bind] in Hagg.
    destruct (String.eqb value_col "State" || String.eqb value_col "District");
      [discriminate|].
    injection Hagg as <-. cbn [rows]. apply mapM_Ok in Esums.
    assert (Hkeys : map (firstn 2) sums = group_keys keys).
    { assert (Hw : Forall (fun k => List.length k = 2%nat) (group_keys keys)).
      { apply Forall_forall. intros k Hk.
        apply (@group_key_width State District k Hk). }
      clear - Esums Hw. induction Esums as [|k r groups sums Hr H IH];
        [reflexivity|].
      apply Forall_cons_iff in Hw. destruct Hw as [Hk Hw].
      destruct (group_sum _) as [v|]; [|discriminate].
      cbn [bind] in Hr. injection Hr as <-. cbn [map].
      rewrite (IH Hw). f_equal.
      destruct k as [|s [|d [|x k]]]; try discriminate. reflexivity. }
    pose proof (group_keys_sorted keys) as Hsorted. rewrite <- Hkeys in Hsorted.
    assert (Hrows : StronglySorted
                      (fun r r' => row_leb (firstn 2 r) (firstn 2 r') = true)
                      sums).
    { clear - Hsorted. induction sums as [|r sums IH]; [constructor|].
      cbn [map] in Hsorted. apply StronglySorted_inv in Hsorted.
      destruct Hsorted as [Hs Hr]. constructor; [apply IH, Hs|].
      apply Forall_forall. intros r' Hr'.
      eapply Forall_forall in Hr; [exact Hr|]. apply in_map, Hr'. }
    split; [exact Hrows|].
    intros i j r r' s s' Hij Hi Hj Hs Hs'.
    pose proof (StronglySorted_nth Hrows Hij Hi Hj) as Hle. cbv beta in Hle.
    assert (Hr : exists a, firstn 2 r = Str s :: a).
    { assert (Hin : In (firstn 2 r) (group_keys keys)).
      { rewrite <- Hkeys. apply in_map. apply (nth_error_In _ _ Hi). }
      apply (@group_key_width State District) in Hin.
      destruct r as [|x [|y r]]; simpl in Hin; try discriminate.
      simpl in Hs. subst x. eexists. reflexivity. }
    assert (Hr' : exists a, firstn 2 r' = Str s' :: a).
    { assert (Hin : In (firstn 2 r') (group_keys keys)).
      { rewrite <- Hkeys. apply in_map. apply (nth_error_In _ _ Hj). }
      apply (@group_key_width State District) in Hin.
      destruct r' as [|x [|y r']]; simpl in Hin; try discriminate.
      simpl in Hs'. subst x. eexists. reflexivity. }
    destruct Hr as [a Ea]. destruct Hr' as [b Eb]. rewrite Ea, Eb in Hle.
    apply row_leb_head in Hle. exact Hle.
  - intros self t States Hcalc Hcol.
    unfold calculate_biometric_quality in Hcalc.
    destruct (biometric_df self) as [df|]; [|discriminate].
    destruct (has_column df "State");
      [|injection Hcalc as <-; discriminate Hcol].
    destruct (get_column df "State") as [State|]; [|discriminate].
    destruct (get_column df "Update_Count") as [Update_Count|]; [|discriminate].
    destruct (get_column df "Age_Group") as [Age_Group|]; [|discriminate].
    cbn [bind] in Hcalc.
    set (keys := map (fun s => [s]) State) in Hcalc.
    destruct (mapM _ (group_keys keys)) as [Total_Updates|]; [|discriminate].
    cbn [bind] in Hcalc. injection Hcalc as <-.
    simpl in Hcol. injection Hcol as <-.
    apply (@StronglySorted_map_in _ _ (fun a b => row_leb a b = true)).
    + intros a b Ha Hb Hab.
      apply group_keys_In in Ha, Hb. destruct Ha as [Ha _], Hb as [Hb _].
      apply in_map_iff in Ha, Hb.
      destruct Ha as (x & <- & _), Hb as (y & <- & _).
      apply (row_leb_head _ _ _ _ Hab).
    + apply group_keys_sorted.
Qed.

Lemma groups_order_witness :
  exists out,
    aggregate_by_state_district enrolment_sample "Aadhaar Generated" = Ok out /\
    map (fun r => nth 0 r Null) (rows out) = [Str "Goa"; Str "Kerala"] /\
    String.leb "Goa" "Kerala" = true.
Proof.
  destruct groups_in_ascending_order as [H _].
  destruct (aggregate_by_state_district enrolment_sample "Aadhaar Generated")
    as [out|e] eqn:E; [|vm_compute in E; discriminate E].
  destruct (H enrolment_sample "Aadhaar Generated" _ _ out eq_refl eq_refl E)
    as [_ Hord].
  exists out. split; [reflexivity|].
  assert (Hrows : rows out = [[Str "Goa"; Str "North Goa"; Num 250];
                              [Str "Kerala"; Str "Idukki"; Num 140]]).
  { vm_compute in E. injection E as <-. reflexivity. }
  split; [rewrite Hrows; reflexivity|].
  apply (Hord 0%nat 1%nat [Str "Goa"; Str "North Goa"; Num 250]
              [Str "Kerala"; Str "Idukki"; Num 140]); try reflexivity.
  - lia.
  - rewrite Hrows. reflexivity.
  - rewrite Hrows. reflexivity.
Defined.


(** ** Migration risk: order *)

Lemma fillna_finite (v : Q) (s : list float64) :
  Forall finite_or_nan s -> Forall finite_or_nan (fillna (Finite v) s).
Proof.
  intros H. unfold fillna. apply Forall_map.
  eapply Forall_impl; [|exact H]. intros x Hx. destruct x; simpl; auto.
Qed.

(** X19.  The migration risk follows the update rate: of two rows with
    rates [a <= b] in a column of numbers and missing values, the row with
    the lower rate never gets the higher risk; both risks are numbers, at
    least 0 and at most 100. *)
Theorem migration_risk_follows_rate
  (Update_Rate : list float64) (i j : nat) (a b : Q) :
  Forall finite_or_nan Update_Rate ->
  nth_error Update_Rate i = Some (Finite a) ->
  nth_error Update_Rate j = Some (Finite b) ->
  a <= b ->
  exists ra rb,
    nth_error (_calculate_migration_risk Update_Rate) i = Some (Finite ra) /\
    nth_error (_calculate_migration_risk Update_Rate) j = Some (Finite rb) /\
    0 <= ra /\ ra <= rb /\ rb <= 100.
Proof.
  intros Hf Hi Hj Hab. unfold _calculate_migration_risk. cbv zeta.
  set (ur := fillna (Finite 0) Update_Rate).
  assert (Hfu : Forall finite_or_nan ur) by (apply fillna_finite, Hf).
  assert (Hi' : nth_error ur i = Some (Finite a))
    by (unfold ur; rewrite (fillna_at _ _ _ Hi); reflexivity).
  assert (Hj' : nth_error ur j = Some (Finite b))
    by (unfold ur; rewrite (fillna_at _ _ _ Hj); reflexivity).
  destruct (@column_bounds ur i a Hfu Hi') as (lo & hi & Hlo & Hhi & La & Ha).
  destruct (@column_bounds ur j b Hfu Hj') as (lo' & hi' & Hlo' & Hhi' & Lb & Hb).
  rewrite Hlo in Hlo'. rewrite Hhi in Hhi'.
  injection Hlo' as <-. injection Hhi' as <-.
  rewrite (@subscore_at _ _ _ _ _ Hi'), (@subscore_at _ _ _ _ _ Hj').
  rewrite Hlo, Hhi. simpl.
  assert (Hd : 0 < hi + - lo + eps) by (unfold eps; lra).
  assert (E : Qeq_bool (hi + - lo + eps) 0 = false)
    by (apply Qeq_bool_false; lra).
  rewrite E. simpl. do 2 eexists. split; [reflexivity|].
  split; [reflexivity|].
  pose proof (@Qdiv_le_mono (a + - lo) (b + - lo) _ Hd ltac:(lra)) as Hmono.
  assert (H0 : 0 <= (a + - lo) / (hi + - lo + eps))
    by (apply Qle_shift_div_l; [exact Hd|lra]).
  assert (H1 : (b + - lo) / (hi + - lo + eps) <= 1)
    by (apply Qle_shift_div_r; [exact Hd|unfold eps; lra]).
  lra.
Qed.

Lemma migration_risk_order_witness :
  exists ra rb,
    nth_error (_calculate_migration_risk [Finite 10; NaN; Finite 40]) 0
    = Some (Finite ra) /\
    nth_error (_calculate_migration_risk [Finite 10; NaN; Finite 40]) 2
    = Some (Finite rb) /\
    0 <= ra /\ ra <= rb /\ rb <= 100.
Proof.
  apply (@migration_risk_follows_rate [Finite 10; NaN; Finite 40] 0 2 10 40).
  - repeat constructor.
  - reflexivity.
  - reflexivity.
  - lra.
Defined.


(** ** Validator: outliers *)

Lemma dict_set_In (V : Type) (d : list (string * V)) (k' : string) (v' : V) :
  NoDup (map fst d) ->
  (forall v, In (k', v) d -> v = v') ->
  NoDup (map fst (dict_set d k' v')) /\
  forall k v, In (k, v) (dict_set d k' v') <-> In (k, v) d \/ (k = k' /\ v = v').
Proof.
  induction d as [|[k0 v0] d IH]; intros Hnd Hsame.
  - simpl. split; [repeat constructor; tauto|].
    intros k v. split.
    + intros [H|[]]. injection H as <- <-. auto.
    + intros [[]|[-> ->]]. left. reflexivity.
  - simpl in Hnd. apply NoDup_cons_iff in Hnd. destruct Hnd as [Hk0 Hnd].
    simpl. destruct (String.eqb k' k0) eqn:E.
    + apply String.eqb_eq in E. subst k0.
      assert (v0 = v') by (apply Hsame; left; reflexivity). subst v0.
      split; [simpl; constructor; assumption|].
      intros k v. simpl. split; [tauto|].
      intros [H|[-> ->]]; [exact H|left; reflexivity].
    + apply String.eqb_neq in E.
      destruct IH as [IHnd IHin]; [exact Hnd| |].
      { intros v Hv. apply Hsame. right. exact Hv. }
      split.
      * simpl. constructor; [|exact IHnd].
        intros Hin. apply in_map_iff in Hin.
        destruct Hin as ([k v] & Hk & Hin). simpl in Hk. subst k.
        apply IHin in Hin. destruct Hin as [Hin|[-> _]]; [|congruence].
        apply Hk0. apply in_map_iff. exists (k0, v). auto.
      * intros k v. simpl. rewrite IHin. tauto.
Qed.

Lemma select_length (A : Type) (p : float -> bool) (zs : list float)
  (l : list A) :
  List.length l = List.length zs ->
  List.length (select (map p zs) l) = List.length (filter p zs).
Proof.
  revert l. induction zs as [|z zs IH]; intros [|x l]; simpl; try discriminate;
    [reflexivity|].
  intros H. destruct (p z); simpl; rewrite IH; auto.
Qed.

Lemma numeric_cells_floats (cells : list cell) :
  is_numeric_col cells = true ->
  exists values, mapM Binary64.of_cell cells = Ok values.
Proof.
  unfold is_numeric_col. induction cells as [|c cells IH]; simpl.
  - eauto.
  - intros H. apply andb_true_iff in H. destruct H as [Hc H].
    destruct (IH H) as [values ->].
    destruct c; simpl in Hc; try discriminate; simpl; eauto.
Qed.

Lemma enumerate_from_length (A : Type) (l : list A) (a : nat) :
  List.length (enumerate_from a l) = List.length l.
Proof.
  rewrite <- (length_map snd), enumerate_from_snd. reflexivity.
Qed.

Lemma zscore_length (xs : list float) :
  List.length (Binary64.zscore xs) = List.length xs.
Proof.
  unfold Binary64.zscore. destruct xs as [|x xs]; [reflexivity|].
  destruct (forallb _ _); apply length_map.
Qed.

Section OutlierFacts.

Variable zscore : list float -> list float.

(** scipy.stats.zscore returns one score per entry. *)
Hypothesis zscore_shape : forall xs, List.length (zscore xs) = List.length xs.

(** What [identify_anomalies] answers at the threshold 3 on a numeric
    column. *)
Lemma anomalies_counted (df : DataFrame) (col : string) (cells : list cell)
  (values : list float) :
  get_column df col = Ok cells ->
  mapM Binary64.of_cell cells = Ok values ->
  exists anomalies,
    identify_anomalies zscore df col 3%float = Ok anomalies /\
    List.length anomalies
    = List.length
        (filter (fun z => PrimFloat.ltb 3%float z)
           (map PrimFloat.abs (zscore (Binary64.fillna0 values)))) /\
    (List.length anomalies <= List.length (rows df))%nat.
Proof.
  intros Hc Hv. unfold identify_anomalies. rewrite Hc. cbn [bind].
  rewrite Hv. cbn [bind]. eexists. split; [reflexivity|].
  assert (Hl : List.length (enumerate_from 0 (rows df))
               = List.length (map PrimFloat.abs
                                (zscore (Binary64.fillna0 values)))).
  { rewrite enumerate_from_length, length_map, zscore_shape.
    unfold Binary64.fillna0. rewrite length_map. apply mapM_length in Hv.
    apply get_column_length in Hc. congruence. }
  rewrite (select_length _ _ _ Hl). split; [reflexivity|].
  eapply Nat.le_trans; [apply filter_length_le|].
  rewrite <- Hl, enumerate_from_length. lia.
Qed.

Lemma flagged_functional (df : DataFrame) (col : string) (n m : nat) :
  flagged zscore df col n -> flagged zscore df col m -> n = m.
Proof.
  intros (c1 & a1 & _ & _ & H1 & <- & _) (c2 & a2 & _ & _ & H2 & <- & _).
  congruence.
Qed.

Lemma check_outliers_step_spec (df : DataFrame) (d : list (string * nat))
  (col : string) :
  NoDup (map fst d) ->
  (forall c n, In (c, n) d -> flagged zscore df c n) ->
  exists d',
    check_outliers_step zscore df (Ok d) col = Ok d' /\
    NoDup (map fst d') /\
    forall c n, In (c, n) d' <-> In (c, n) d \/ (c = col /\ flagged zscore df col n).
Proof.
  intros Hnd Hinv. unfold check_outliers_step. cbn [bind].
  assert (Hkeep : (forall n, ~ flagged zscore df col n) ->
            exists d', Ok d = Ok d' /\ NoDup (map fst d') /\
              forall c n, In (c, n) d' <->
                          In (c, n) d \/ (c = col /\ flagged zscore df col n)).
  { intros Hno. exists d. split; [reflexivity|]. split; [exact Hnd|].
    intros c n. split; [tauto|]. intros [H|[_ H]]; [exact H|].
    destruct (Hno n H). }
  destruct (has_column df col) eqn:Hhas.
  - destruct (has_column_get _ _ Hhas) as [cells Hc]. rewrite Hc. cbn [bind].
    destruct (is_numeric_col cells) eqn:Hnum.
    + destruct (numeric_cells_floats _ Hnum) as [values Hv]. rewrite Hv.
      cbn [bind].
      destruct (anomalies_counted _ _ Hc Hv) as (anomalies & Ha & Hlen & _).
      set (count := List.length (filter _ _)) in *.
      destruct (0 <? count)%nat eqn:Epos.
      * apply Nat.ltb_lt in Epos.
        assert (Hf : flagged zscore df col count).
        { exists cells, anomalies. repeat split; trivial. }
        destruct (@dict_set_In _ d col count Hnd) as [Hnd' Hin'].
        { intros v Hv'. apply (flagged_functional (Hinv _ _ Hv') Hf). }
        eexists. split; [reflexivity|]. split; [exact Hnd'|].
        intros c n. rewrite Hin'. split.
        -- intros [H|[-> ->]]; auto.
        -- intros [H|[-> H]]; [auto|]. right. split; [reflexivity|].
           apply (flagged_functional H Hf).
      * apply Hkeep. intros n (c' & a' & Hc' & _ & Ha' & Hl' & Hpos).
        apply Nat.ltb_ge in Epos. rewrite Ha in Ha'. injection Ha' as <-.
        lia.
    + apply Hkeep. intros n (c' & a' & Hc' & Hnum' & _).
      rewrite Hc in Hc'. injection Hc' as <-. congruence.
  - apply Hkeep. intros n (c' & a' & Hc' & _).
    apply get_column_Ok in Hc'. congruence.
Qed.

Lemma check_outliers_fold (df : DataFrame) (cols : list string)
  (d : list (string * nat)) :
  NoDup (map fst d) ->
  (forall c n, In (c, n) d -> flagged zscore df c n) ->
  exists report,
    fold_left (check_outliers_step zscore df) cols (Ok d) = Ok report /\
    NoDup (map fst report) /\
    forall c n, In (c, n) report <->
                In (c, n) d \/ (In c cols /\ flagged zscore df c n).
Proof.
  revert d. induction cols as [|col cols IH]; intros d Hnd Hinv.
  - exists d. split; [reflexivity|]. split; [exact Hnd|].
    intros c n. simpl. tauto.
  - cbn [fold_left].
    destruct (@check_outliers_step_spec df d col Hnd Hinv) as (d' & -> & Hnd' & Hin').
    destruct (IH d' Hnd') as (report & Hr & Hndr & Hinr).
    { intros c n H. apply Hin' in H. destruct H as [H|[-> H]]; auto. }
    exists report. split; [exact Hr|]. split; [exact Hndr|].
    intros c n. rewrite Hinr, Hin'. simpl. split.
    + intros [[H|[-> H]]|[H1 H2]]; auto.
    + intros [H|[[<-|H1] H2]]; auto.
Qed.

(** X20.  On a table with distinct column names whose numbers are below
    2^63 in magnitude, [check_outliers] returns a report and raises nothing.
    It reports a column exactly when the column is listed, holds numbers and
    missing values only, and [identify_anomalies] flags at least one of its
    rows at the threshold 3; the number reported is the number of rows
    flagged, at most the number of rows of the table.  A listed column that
    is not in the table, or not numeric, is passed over, and no column is
    reported twice. *)
Theorem outliers_count_flagged_rows (df : DataFrame) (numeric_cols : list string) :
  NoDup (columns df) ->
  Forall (Forall within_int64) (rows df) ->
  exists report,
    check_outliers zscore df numeric_cols = Ok report /\
    NoDup (map fst report) /\
    (forall col n,
        In (col, n) report <->
        In col numeric_cols /\
        exists cells anomalies,
          get_column df col = Ok cells /\ is_numeric_col cells = true /\
          identify_anomalies zscore df col 3%float = Ok anomalies /\
          List.length anomalies = n /\ (0 < n)%nat) /\
    (forall col n, In (col, n) report -> (n <= List.length (rows df))%nat).
Proof.
  intros _ _.
  destruct (@check_outliers_fold df numeric_cols [])
    as (report & Hr & Hnd & Hin).
  { constructor. }
  { intros c n []. }
  exists report. split; [exact Hr|]. split; [exact Hnd|]. split.
  - intros col n. rewrite Hin. simpl. unfold flagged. tauto.
  - intros col n H. apply Hin in H. destruct H as [[]|[_ H]].
    destruct H as (cells & anomalies & Hc & Hnum & Ha & <- & _).
    destruct (numeric_cells_floats _ Hnum) as [values Hv].
    destruct (anomalies_counted _ _ Hc Hv) as (a' & Ha' & _ & Hle).
    rewrite Ha in Ha'. injection Ha' as <-. exact Hle.
Qed.

End OutlierFacts.

Lemma outliers_witness :
  check_outliers Binary64.zscore outlier_sample
                 ["Update_Count"; "District"; "Pin Code"]
  = Ok [("Update_Count", 1%nat)] /\
  exists anomalies,
    identify_anomalies Binary64.zscore outlier_sample "Update_Count" 3%float
    = Ok anomalies /\
    List.length anomalies = 1%nat.
Proof.
  destruct (@outliers_count_flagged_rows Binary64.zscore zscore_length
              outlier_sample ["Update_Count"; "District"; "Pin Code"])
    as (report & Hr & _ & Hin & _).
  { repeat constructor; simpl; intuition discriminate. }
  { repeat constructor. }
  assert (Hval : report = [("Update_Count", 1%nat)]).
  { pose proof Hr as Hr'. vm_compute in Hr'. injection Hr' as <-. reflexivity. }
  split; [rewrite Hr, Hval; reflexivity|].
  destruct (proj1 (Hin "Update_Count" 1%nat)) as (_ & cells & anomalies & _ & _ & Ha & Hl & _).
  { rewrite Hval. left. reflexivity. }
  exists anomalies. split; assumption.
Defined.


(** ** Vulnerability score: when it returns *)










(** ** Biometric quality: when it returns *)

Lemma mapM_Raise (A B : Type) (f : A -> result B) (l : list A) (e : exn) :
  (exists a, In a l /\ f a = Raise e) ->
  (forall a e', In a l -> f a = Raise e' -> e' = e) ->
  mapM f l = Raise e.
Proof.
  induction l as [|x l IH]; intros (a & Hin & Ha) Hall; [destruct Hin|].
  simpl. destruct (f x) as [y|e'] eqn:Ex.
  - cbn [bind]. destruct Hin as [->|Hin]; [congruence|].
    rewrite IH; [reflexivity|eauto|].
    intros a' e'' Hin' H'. apply (Hall a' e''); [right; exact Hin'|exact H'].
  - cbn [bind]. f_equal. apply (Hall x e'); [left; reflexivity|exact Ex].
Qed.

Lemma numeric_sum_cases (vs : list cell) :
  (exists y, numeric_sum vs = Ok y) \/ numeric_sum vs = Raise TypeError.
Proof. unfold numeric_sum. destruct (forallb _ vs); eauto. Qed.

(** X22.  With the columns State, Update_Count and Age_Group,
    [calculate_biometric_quality] returns a table with columns whenever
    Update_Count holds numbers and missing values only.  It raises TypeError
    when a row with a State has text or a date as its Update_Count. *)
Theorem biometric_quality_returns_on_counts
  (self : AadhaarDataPipeline) (df : DataFrame)
  (State Update_Count Age_Group : list cell) :
  biometric_df self = Some df ->
  get_column df "State" = Ok State ->
  get_column df "Update_Count" = Ok Update_Count ->
  get_column df "Age_Group" = Ok Age_Group ->
  (is_numeric_col Update_Count = true ->
   exists t, calculate_biometric_quality self = Ok t /\ t <> []) /\
  ((exists s c, In (s, c) (combine State Update_Count) /\
                isnull s = false /\ isnull c || is_num c = false) ->
   calculate_biometric_quality self = Raise TypeError).
Proof.
  intros Hdf HS HU HA. unfold calculate_biometric_quality.
  rewrite Hdf, (get_column_Ok _ _ HS), HS, HU, HA. cbn [bind].
  set (keys := map (fun s => [s]) State).
  assert (Hcomb : forall k v,
             In (k, v) (combine keys Update_Count) ->
             exists s, k = [s] /\ In (s, v) (combine State Update_Count)).
  { intros k v. unfold keys. clear. revert Update_Count.
    induction State as [|s State IH]; intros [|c cs]; simpl; try tauto.
    intros [H|H].
    - injection H as <- <-. eauto.
    - destruct (IH _ H) as (s' & -> & Hin). eauto. }
  assert (Hcomb' : forall s v,
             In (s, v) (combine State Update_Count) ->
             In ([s], v) (combine keys Update_Count)).
  { intros s v. unfold keys. clear. revert Update_Count.
    induction State as [|s0 State IH]; intros [|c cs]; simpl; try tauto.
    intros [H|H].
    - injection H as <- <-. auto.
    - right. apply IH, H. }
  split.
  - intros Hcol.
    assert (Hnum : Forall (fun sc => isnull (fst sc) = false ->
                             isnull (snd sc) || is_num (snd sc) = true)
                          (combine State Update_Count)).
    { apply Forall_forall. intros [s c] Hin _. apply in_combine_r in Hin.
      unfold is_numeric_col in Hcol. rewrite forallb_forall in Hcol.
      apply (Hcol c Hin). }
    assert (Hall : Forall (fun k => exists y,
                     numeric_sum (group_values keys Update_Count k) = Ok y)
                          (group_keys keys)).
    { apply Forall_forall. intros k Hk. unfold numeric_sum.
      replace (forallb (fun c => isnull c || is_num c)
                 (group_values keys Update_Count k)) with true; [eauto|].
      symmetry. apply forallb_forall. intros c Hc.
      unfold group_values in Hc. apply in_map_iff in Hc.
      destruct Hc as ([k' v] & <- & Hin). apply filter_In in Hin.
      destruct Hin as [Hin Heq]. cbn [fst snd] in *.
      destruct (Hcomb _ _ Hin) as (s & -> & Hsv).
      apply group_keys_In in Hk. destruct Hk as [_ Hk].
      apply row_eqb_has_null in Heq. rewrite Hk in Heq.
      simpl in Heq. symmetry in Heq. apply orb_false_iff in Heq.
      apply (proj1 (Forall_forall _ _) Hnum (s, v) Hsv). tauto. }
    assert (Hm : exists totals,
               mapM (fun k => numeric_sum (group_values keys Update_Count k))
                    (group_keys keys) = Ok totals).
    { clear - Hall. induction Hall as [|k ks (y & Hy) _ (totals & IH)].
      - exists []. reflexivity.
      - simpl. rewrite Hy. cbn [bind]. rewrite IH. cbn [bind]. eauto. }
    destruct Hm as [totals ->]. cbn [bind]. eexists. split; [reflexivity|].
    discriminate.
  - intros (s & c & Hin & Hs & Hc).
    rewrite (@mapM_Raise _ _ _ _ TypeError); [reflexivity| |].
    + assert (Hk : exists k, In k (group_keys keys) /\ row_eqb k [s] = true).
      { assert (Hks : In [s] keys).
        { apply in_combine_l in Hin. apply in_map_iff. eauto. }
        assert (Hn : has_null [s] = false) by (simpl; rewrite Hs; reflexivity).
        pose proof (@group_keys_count [s] keys Hn) as Hcount.
        replace (existsb (row_eqb [s]) keys) with true in Hcount.
        - destruct (filter (row_eqb [s]) (group_keys keys)) as [|k l] eqn:E;
            [discriminate|].
          assert (Hin' : In k (filter (row_eqb [s]) (group_keys keys)))
            by (rewrite E; left; reflexivity).
          apply filter_In in Hin'. destruct Hin' as [Hin' Heq].
          exists k. split; [exact Hin'|]. rewrite row_eqb_sym. exact Heq.
        - symmetry. apply existsb_exists. exists [s]. split; [exact Hks|].
          apply row_eqb_refl. }
      destruct Hk as (k & Hk & Heq). exists k. split; [exact Hk|].
      unfold numeric_sum.
      replace (forallb (fun c => isnull c || is_num c)
                 (group_values keys Update_Count k)) with false; [reflexivity|].
      symmetry. apply not_true_is_false. intros Hall.
      rewrite forallb_forall in Hall.
      assert (Hv : In c (group_values keys Update_Count k)).
      { unfold group_values. apply in_map_iff. exists ([s], c).
        split; [reflexivity|]. apply filter_In. split; [apply Hcomb', Hin|].
        exact Heq. }
      rewrite (Hall c Hv) in Hc. discriminate.
    + intros k e' _ He.
      destruct (numeric_sum_cases (group_values keys Update_Count k))
        as [[y Hy]|Hy]; congruence.
Qed.

Lemma biometric_quality_returns_witness :
  (exists t, calculate_biometric_quality (pipeline_of biometric_sample) = Ok t /\
             t <> []) /\
  calculate_biometric_quality (pipeline_of biometric_text) = Raise TypeError.
Proof.
  split.
  - apply (proj1 (@biometric_quality_returns_on_counts
                    (pipeline_of biometric_sample) biometric_sample _ _ _
                    eq_refl eq_refl eq_refl eq_refl)).
    reflexivity.
  - apply (proj2 (@biometric_quality_returns_on_counts
                    (pipeline_of biometric_text) biometric_text _ _ _
                    eq_refl eq_refl eq_refl eq_refl)).
    exists (Str "Goa"), (Str "seven"). split; [left; reflexivity|].
    split; reflexivity.
Defined.
